(** * ag-grid: the stacked area series and the status bar range aggregator

    A shallow embedding of
    - [AreaSeries] (charts-packages/ag-charts-community/src/chart/series/cartesian/areaSeries.ts):
      the [normalizedTo] setter, [processData], [findLargestMinMax], [update]
      and [generateSelectionData], the key setters, [toggleSeriesItem] and
      [listSeriesItems];
    - [StatusBar] (the enterprise status bar): [onRangeSelectionChanged] and
      [getRowNode].

    JavaScript numbers are modelled as exact rationals extended with
    [Infinity], [-Infinity] and [NaN]: the special values and the results of
    dividing by zero are kept; rounding, overflow and the sign of zero are
    not. The values of a series are numbers, as [yData] is declared: a row
    that holds a string under a value key is outside the model, and what is
    proved of such values assumes [numberFields]. Console warnings, event
    notifications and the scheduling of the next data pass are not part of
    the model. *)

From Stdlib Require Import QArith Qabs ZArith List String Bool Arith Lia Lqa.
Import ListNotations.

Close Scope Q_scope.
Open Scope nat_scope.

Set Implicit Arguments.

(** ** JavaScript values *)

Module JS.

(** A number: an exact rational, an infinity or [NaN]. Sums, products and
    quotients are exact, where the code's doubles round and overflow. *)
Inductive num : Type :=
| Fin (q : Q)
| PInf
| NInf
| NaN.

Definition zero : num := Fin 0.

Definition isNaN (x : num) : bool :=
  match x with NaN => true | _ => false end.

(** [isFinite(x)] on a number. *)
Definition isFinite (x : num) : bool :=
  match x with Fin _ => true | _ => false end.

(** The sign of a number; [Eq] for zero and for [NaN]. *)
Definition sign (x : num) : comparison :=
  match x with
  | Fin q => (q ?= 0)%Q
  | PInf => Gt
  | NInf => Lt
  | NaN => Eq
  end.

Definition sign_mul (a b : comparison) : comparison :=
  match a, b with
  | Eq, _ | _, Eq => Eq
  | Gt, c => c
  | Lt, c => CompOpp c
  end.

(** The infinity of a given sign; a zero sign is the invalid operation. *)
Definition inf_of (c : comparison) : num :=
  match c with Gt => PInf | Lt => NInf | Eq => NaN end.

(** Unary minus. *)
Definition neg (x : num) : num :=
  match x with
  | Fin q => Fin (- q)
  | PInf => NInf
  | NInf => PInf
  | NaN => NaN
  end.

(** [Math.abs]. *)
Definition abs (x : num) : num :=
  match x with
  | Fin q => Fin (Qabs q)
  | PInf | NInf => PInf
  | NaN => NaN
  end.

(** [x + y]. *)
Definition add (x y : num) : num :=
  match x, y with
  | NaN, _ | _, NaN => NaN
  | Fin a, Fin b => Fin (a + b)
  | PInf, NInf | NInf, PInf => NaN
  | PInf, _ | _, PInf => PInf
  | NInf, _ | _, NInf => NInf
  end.

(** [x * y]; infinity times zero is [NaN]. *)
Definition mul (x y : num) : num :=
  match x, y with
  | NaN, _ | _, NaN => NaN
  | Fin a, Fin b => Fin (a * b)
  | _, _ => inf_of (sign_mul (sign x) (sign y))
  end.

(** [x / y]; [0 / 0] is [NaN], any other finite number over zero is an
    infinity of its sign. *)
Definition div (x y : num) : num :=
  match x, y with
  | NaN, _ | _, NaN => NaN
  | Fin a, Fin b => if Qeq_bool b 0 then inf_of (a ?= 0)%Q else Fin (a / b)
  | Fin _, _ => Fin 0
  | _, Fin b => inf_of (sign_mul (sign x) (if Qeq_bool b 0 then Gt else (b ?= 0)%Q))
  | _, _ => NaN
  end.

(** [x < y]; false as soon as one side is [NaN]. *)
Definition lt (x y : num) : bool :=
  match x, y with
  | NaN, _ | _, NaN => false
  | Fin a, Fin b => match (a ?= b)%Q with Lt => true | _ => false end
  | NInf, NInf | PInf, _ => false
  | NInf, _ => true
  | Fin _, PInf => true
  | Fin _, NInf => false
  end.

(** [x > y]. *)
Definition gt (x y : num) : bool := lt y x.

(** [x === y] on numbers: [NaN] equals nothing. *)
Definition strict_eq (x y : num) : bool :=
  match x, y with
  | Fin a, Fin b => Qeq_bool a b
  | PInf, PInf | NInf, NInf => true
  | _, _ => false
  end.

(** A number used as a condition: zero and [NaN] are falsy. *)
Definition truthy (x : num) : bool :=
  match x with
  | Fin q => negb (Qeq_bool q 0)
  | NaN => false
  | PInf | NInf => true
  end.

(** Two numbers denote the same value. *)
Definition num_eq (x y : num) : Prop :=
  match x, y with
  | Fin a, Fin b => (a == b)%Q
  | PInf, PInf | NInf, NInf | NaN, NaN => True
  | _, _ => False
  end.

(** A field of a data row: a number or a string. A missing field
    ([undefined]) is [None] at the place of use. *)
Inductive value : Type :=
| VNum (n : num)
| VStr (s : string).

(** A row of the data: an object read by key. *)
Definition object := list (string * value).

(** [o[k]]. *)
Fixpoint get (o : object) (k : string) : option value :=
  match o with
  | [] => None
  | (k', v) :: o' => if String.eqb k' k then Some v else get o' k
  end.

(** [a[i] = v] on a JavaScript array: an index past the end extends the
    array, the slots in between are holes ([None]). *)
Fixpoint array_set (A : Type) (a : list (option A)) (i : nat) (v : A) : list (option A) :=
  match i, a with
  | O, [] => [Some v]
  | O, _ :: t => Some v :: t
  | S i', [] => None :: array_set [] i' v
  | S i', h :: t => h :: array_set t i' v
  end.

(** [a[i]]: [None] for a hole and past the end. *)
Definition array_get (A : Type) (a : list (option A)) (i : nat) : option A :=
  match nth_error a i with
  | Some (Some v) => Some v
  | _ => None
  end.

(** How a call ends. [OutOfFuel] is the bounded model of a loop giving up;
    the source has no such case. *)
Inductive outcome (A : Type) : Type :=
| Returned (a : A)
| Threw
| OutOfFuel.

Arguments Threw {A}.
Arguments OutOfFuel {A}.

Definition bind (A B : Type) (m : outcome A) (k : A -> outcome B) : outcome B :=
  match m with
  | Returned a => k a
  | Threw => Threw
  | OutOfFuel => OutOfFuel
  end.

(** [l.forEach((x, i) => ...)] threading a state: the callback sees the
    element and its index. *)
Fixpoint forEach_from (A S : Type) (f : S -> A -> nat -> S) (i : nat) (l : list A) (s : S) : S :=
  match l with
  | [] => s
  | x :: l' => forEach_from f (Datatypes.S i) l' (f s x i)
  end.

Definition forEach (A S : Type) (f : S -> A -> nat -> S) (l : list A) (s : S) : S :=
  forEach_from f 0 l s.

(** The same for a callback that may throw. *)
Fixpoint forEachM_from (A S : Type) (f : S -> A -> nat -> outcome S) (i : nat) (l : list A) (s : S)
  : outcome S :=
  match l with
  | [] => Returned s
  | x :: l' => bind (f s x i) (forEachM_from f (Datatypes.S i) l')
  end.

Definition forEachM (A S : Type) (f : S -> A -> nat -> outcome S) (l : list A) (s : S) : outcome S :=
  forEachM_from f 0 l s.

(** [l.map((x, i) => ...)]. *)
Fixpoint mapi_from (A B : Type) (f : A -> nat -> B) (i : nat) (l : list A) : list B :=
  match l with
  | [] => []
  | x :: l' => f x i :: mapi_from f (Datatypes.S i) l'
  end.

Definition mapi (A B : Type) (f : A -> nat -> B) (l : list A) : list B := mapi_from f 0 l.

(** *** Notions and tactics the proofs use *)

(** One round of keeping the least, and of keeping the greatest, number
    met so far; the two loops of [findLargestMinMax] and of the aggregator. *)
Definition least_step (m v : num) : num := if lt v m then v else m.
Definition greatest_step (m v : num) : num := if lt m v then v else m.

(** A rational is negative. *)
Definition negativeQ (q : Q) : bool :=
  match (q ?= 0)%Q with Lt => true | _ => false end.

(** The sum of the negative rationals of a list, and of the others. *)
Fixpoint sumNeg (qs : list Q) : Q :=
  match qs with
  | [] => 0
  | q :: rest => (if negativeQ q then q else 0) + sumNeg rest
  end.

Fixpoint sumPos (qs : list Q) : Q :=
  match qs with
  | [] => 0
  | q :: rest => (if negativeQ q then 0 else q) + sumPos rest
  end.

(** Case analysis on every comparison of rationals in sight. *)
Ltac qcmp :=
  repeat match goal with
  | H : context [(?a ?= ?b)%Q] |- _ => destruct (Qcompare_spec a b)
  | |- context [(?a ?= ?b)%Q] => destruct (Qcompare_spec a b)
  end.

Ltac num_order :=
  simpl in *; qcmp; simpl in *; try congruence; try reflexivity;
  try (exfalso; lra).

End JS.

(** ** The stacked area series (areaSeries.ts) *)

Module AreaSeries.
Import JS.

(** *** Data *)

Record MinMax : Type := { min : num; max : num }.

Record Point : Type := { point_x : num; point_y : num }.

(** [AreaSelectionDatum]: [points] is a JavaScript array filled by index. *)
Record AreaSelectionDatum : Type := {
  itemId : option string;
  points : list (option Point)
}.

(** [MarkerSelectionDatum]; the back reference [series] is left out. *)
Record MarkerSelectionDatum : Type := {
  marker_index : nat;
  marker_itemId : option string;
  seriesDatum : object;
  yValue : option value;
  yKey : option string;
  marker_point : Point;
  marker_datum_fill : option string;
  marker_datum_stroke : option string
}.

(** [LabelSelectionDatum]; of the [label] object the text is kept, its font
    fields repeat the series' label configuration. *)
Record LabelSelectionDatum : Type := {
  label_index : nat;
  label_itemId : option string;
  label_point : Point;
  label_text : option string
}.

(** What the series reads of an axis: its scale. *)
Record Scale : Type := {
  convert : option value -> num;
  bandwidth : option num
}.

Record Chart : Type := {
  layoutPending : bool;
  dataPending : bool
}.

Record CartesianSeriesMarker : Type := {
  marker_enabled : bool;
  marker_fill : option string;
  marker_stroke : option string;
  marker_strokeWidth : option num;
  marker_size : num
}.

Record AreaSeriesLabel : Type := {
  label_enabled : bool;
  label_formatter : option (option value -> string)
}.

(** *** Scene nodes *)

Inductive PathCommand : Type :=
| MoveTo (px py : num)
| LineTo (px py : num)
| ClosePath.

Record Path : Type := {
  path_fill : option string;
  path_fillOpacity : num;
  path_stroke : option string;
  path_strokeOpacity : num;
  path_strokeWidth : num;
  path_visible : bool;
  path_commands : list PathCommand
}.

Record Marker : Type := {
  node_fill : option string;
  node_stroke : option string;
  node_strokeWidth : num;
  node_size : num;
  translationX : num;
  translationY : num;
  node_visible : bool
}.

Record Text : Type := {
  text_text : string;
  text_x : num;
  text_y : num;
  text_visible : bool
}.

(** A selection: the retained nodes, each with the datum bound to it. *)
Definition Selection (N D : Type) : Type := list (N * D).

(** *** The series *)

Record AreaSeries : Type := {
  data : option (list object);
  visible : bool;
  chart : option Chart;
  xAxis : option Scale;
  yAxis : option Scale;
  _xKey : string;
  _yKeys : list string;
  seriesItemEnabled : list (string * bool);
  _normalizedTo : option num;
  xData : list (option value);
  yData : list (list num);
  yDomain : list num;
  fills : list string;
  strokes : list string;
  fillOpacity : num;
  strokeOpacity : num;
  strokeWidth : num;
  marker : CartesianSeriesMarker;
  label : AreaSeriesLabel;
  group_visible : bool;
  fillSelection : Selection Path (option AreaSelectionDatum);
  strokeSelection : Selection Path (option AreaSelectionDatum);
  markerSelection : Selection Marker MarkerSelectionDatum;
  labelSelection : Selection Text LabelSelectionDatum;
  markerSelectionData : list MarkerSelectionDatum
}.

Definition with_normalizedTo (s : AreaSeries) (v : option num) : AreaSeries :=
  {| data := data s; visible := visible s; chart := chart s; xAxis := xAxis s;
     yAxis := yAxis s; _xKey := _xKey s; _yKeys := _yKeys s;
     seriesItemEnabled := seriesItemEnabled s; _normalizedTo := v;
     xData := xData s; yData := yData s; yDomain := yDomain s; fills := fills s;
     strokes := strokes s; fillOpacity := fillOpacity s;
     strokeOpacity := strokeOpacity s; strokeWidth := strokeWidth s;
     marker := marker s; label := label s; group_visible := group_visible s;
     fillSelection := fillSelection s; strokeSelection := strokeSelection s;
     markerSelection := markerSelection s; labelSelection := labelSelection s;
     markerSelectionData := markerSelectionData s |}.

Definition with_processed (s : AreaSeries) (xs : list (option value)) (ys : list (list num))
  (dom : list num) : AreaSeries :=
  {| data := data s; visible := visible s; chart := chart s; xAxis := xAxis s;
     yAxis := yAxis s; _xKey := _xKey s; _yKeys := _yKeys s;
     seriesItemEnabled := seriesItemEnabled s; _normalizedTo := _normalizedTo s;
     xData := xs; yData := ys; yDomain := dom; fills := fills s;
     strokes := strokes s; fillOpacity := fillOpacity s;
     strokeOpacity := strokeOpacity s; strokeWidth := strokeWidth s;
     marker := marker s; label := label s; group_visible := group_visible s;
     fillSelection := fillSelection s; strokeSelection := strokeSelection s;
     markerSelection := markerSelection s; labelSelection := labelSelection s;
     markerSelectionData := markerSelectionData s |}.

Definition with_group_visible (s : AreaSeries) (b : bool) : AreaSeries :=
  {| data := data s; visible := visible s; chart := chart s; xAxis := xAxis s;
     yAxis := yAxis s; _xKey := _xKey s; _yKeys := _yKeys s;
     seriesItemEnabled := seriesItemEnabled s; _normalizedTo := _normalizedTo s;
     xData := xData s; yData := yData s; yDomain := yDomain s; fills := fills s;
     strokes := strokes s; fillOpacity := fillOpacity s;
     strokeOpacity := strokeOpacity s; strokeWidth := strokeWidth s;
     marker := marker s; label := label s; group_visible := b;
     fillSelection := fillSelection s; strokeSelection := strokeSelection s;
     markerSelection := markerSelection s; labelSelection := labelSelection s;
     markerSelectionData := markerSelectionData s |}.

Definition with_selections (s : AreaSeries)
  (fs ss : Selection Path (option AreaSelectionDatum))
  (ms : Selection Marker MarkerSelectionDatum)
  (ls : Selection Text LabelSelectionDatum)
  (md : list MarkerSelectionDatum) : AreaSeries :=
  {| data := data s; visible := visible s; chart := chart s; xAxis := xAxis s;
     yAxis := yAxis s; _xKey := _xKey s; _yKeys := _yKeys s;
     seriesItemEnabled := seriesItemEnabled s; _normalizedTo := _normalizedTo s;
     xData := xData s; yData := yData s; yDomain := yDomain s; fills := fills s;
     strokes := strokes s; fillOpacity := fillOpacity s;
     strokeOpacity := strokeOpacity s; strokeWidth := strokeWidth s;
     marker := marker s; label := label s; group_visible := group_visible s;
     fillSelection := fs; strokeSelection := ss;
     markerSelection := ms; labelSelection := ls;
     markerSelectionData := md |}.

(** [seriesItemEnabled.get(key)] used as a condition: an absent key is
    [undefined], hence false. *)
Fixpoint enabled (m : list (string * bool)) (key : string) : bool :=
  match m with
  | [] => false
  | (k, b) :: m' => if String.eqb k key then b else enabled m' key
  end.

Definition enabled_item (m : list (string * bool)) (key : option string) : bool :=
  match key with
  | Some k => enabled m k
  | None => false
  end.

(** *** The key setters (lines 167-194) and the legend toggle (lines 786-789) *)

Definition with_keys (s : AreaSeries) (xKey : string) (yKeys : list string)
  (itemEnabled : list (string * bool)) (xs : list (option value)) (ys : list (list num))
  : AreaSeries :=
  {| data := data s; visible := visible s; chart := chart s; xAxis := xAxis s;
     yAxis := yAxis s; _xKey := xKey; _yKeys := yKeys;
     seriesItemEnabled := itemEnabled; _normalizedTo := _normalizedTo s;
     xData := xs; yData := ys; yDomain := yDomain s; fills := fills s;
     strokes := strokes s; fillOpacity := fillOpacity s;
     strokeOpacity := strokeOpacity s; strokeWidth := strokeWidth s;
     marker := marker s; label := label s; group_visible := group_visible s;
     fillSelection := fillSelection s; strokeSelection := strokeSelection s;
     markerSelection := markerSelection s; labelSelection := labelSelection s;
     markerSelectionData := markerSelectionData s |}.

Definition set_xKey (s : AreaSeries) (v : string) : AreaSeries :=
  if String.eqb (_xKey s) v then s
  else with_keys s v (_yKeys s) (seriesItemEnabled s) [] (yData s).

(** [Map.set]: the entry of an existing key is replaced in place. *)
Fixpoint map_set (m : list (string * bool)) (key : string) (b : bool) : list (string * bool) :=
  match m with
  | [] => [(key, b)]
  | (k, b') :: m' => if String.eqb k key then (k, b) :: m' else (k, b') :: map_set m' key b
  end.

Definition set_yKeys (s : AreaSeries) (values : list string) : AreaSeries :=
  if list_eq_dec string_dec (_yKeys s) values then s
  else
    with_keys s (_xKey s) values
      (fold_left (fun m key => map_set m key true) values []) (xData s) [].

Definition toggleSeriesItem (s : AreaSeries) (item : string) (b : bool) : AreaSeries :=
  with_keys s (_xKey s) (_yKeys s) (map_set (seriesItemEnabled s) item b) (xData s) (yData s).

(** *** The [normalizedTo] setter (lines 207-215) *)

(** [a !== b] on [number | undefined]. *)
Definition differs (a b : option num) : bool :=
  match a, b with
  | None, None => false
  | Some u, Some v => negb (strict_eq u v)
  | _, _ => true
  end.

Definition set_normalizedTo (s : AreaSeries) (v : option num) : AreaSeries :=
  let absValue :=
    match v with
    | Some n => if truthy n then Some (abs n) else None
    | None => None
    end in
  if differs (_normalizedTo s) absValue
  then with_normalizedTo s absValue
  else s.

(** *** processData (lines 230-311) *)

(** Modelled from the spec: [findMinMax] of util/array is not under src/.
    The spec has a row's negative and positive magnitudes as the sum of its
    negative values and the sum of its positive values, both starting at 0
    (for the row [5, -3] the minimum is [-3] and the maximum [5]); a value
    that is not negative goes to the positive side. *)
Definition findMinMax (values : list num) : MinMax :=
  fold_left
    (fun acc v =>
       if lt v zero
       then {| min := add (min acc) v; max := max acc |}
       else {| min := min acc; max := add (max acc) v |})
    values {| min := zero; max := zero |}.

(** Lines 313-327. *)
Definition findLargestMinMax (totals : list MinMax) : MinMax :=
  fold_left
    (fun acc total =>
       let mn := if lt (min total) (min acc) then min total else min acc in
       let mx := if gt (max total) (max acc) then max total else max acc in
       {| min := mn; max := mx |})
    totals {| min := zero; max := zero |}.

(** [isFinite(value)] for a field read through a value key, on numbers
    and on missing fields. [yData] is a [number[][]] here as in its
    declaration. The global [isFinite] converts a string first, and a string
    that reads as a finite number is kept by line 269 as the string it is,
    which a row of numbers cannot hold: rows with a string under a value key
    are outside this reading, and what is proved through it assumes
    [numberFields] below. *)
Definition finite_number (v : option value) : option num :=
  match v with
  | Some (VNum n) => if isFinite n then Some n else None
  | _ => None
  end.

(** Lines 262-270: one row of [yData]. *)
Definition yRow (yKeys : list string) (itemEnabled : list (string * bool)) (datum : object)
  : list num :=
  map (fun yKey =>
         match finite_number (get datum yKey) with
         | Some n => if enabled itemEnabled yKey then n else zero
         | None => zero
         end) yKeys.

(** Lines 290-296: the in-place rescaling. Each slot is read once, before
    it is written, and [yMinMax] was computed before the loop; [yMinMax] has
    an entry for every row. *)
Definition normalizeStack (mm : MinMax) (normalizedTo : num) (stack : list num) : list num :=
  map (fun y =>
         if lt y zero
         then mul (div (neg y) (min mm)) normalizedTo
         else mul (div y (max mm)) normalizedTo) stack.

Definition normalizeData (yMinMax : list MinMax) (normalizedTo : num) (yData : list (list num))
  : list (list num) :=
  mapi (fun stack i => normalizeStack (nth i yMinMax {| min := zero; max := zero |}) normalizedTo stack)
       yData.

(** Line 287: [normalizedTo && isFinite(normalizedTo)]. *)
Definition normalizing (normalizedTo : option num) : option num :=
  match normalizedTo with
  | Some n => if truthy n && isFinite n then Some n else None
  | None => None
  end.

(** Lines 231-232: the rows that are processed. *)
Definition processedRows (s : AreaSeries) : list object :=
  match data s with
  | Some rows =>
      if negb (String.eqb (_xKey s) "") && negb (Nat.eqb (List.length (_yKeys s)) 0)
      then rows else []
  | None => []
  end.

(** Lines 262-270: [yData] before normalization. *)
Definition rawYData (s : AreaSeries) : list (list num) :=
  map (yRow (_yKeys s) (seriesItemEnabled s)) (processedRows s).

(** No row of the data holds a string under a value key: the value fields
    are numbers, or missing. *)
Definition numberFields (s : AreaSeries) : bool :=
  match data s with
  | Some rows =>
      forallb
        (fun datum =>
           forallb
             (fun yKey => match get datum yKey with Some (VStr _) => false | _ => true end)
             (_yKeys s))
        rows
  | None => true
  end.

Section ProcessData.

(** [fixNumericExtent] is inherited from the series base class, which is
    not under src/: it is a parameter of the model. *)
Variable fixNumericExtent : num * num -> num * num.

Definition processData (s : AreaSeries) : AreaSeries * bool :=
  let xKey := _xKey s in
  let rows := processedRows s in
  let xData := map (fun datum => get datum xKey) rows in
  let yData := rawYData s in
  let yMinMax := map findMinMax yData in
  let yLargestMinMax := findLargestMinMax yMinMax in
  let '(yMin, yMax, yData) :=
    match normalizing (_normalizedTo s) with
    | Some normalizedTo =>
        (if lt (min yLargestMinMax) zero then neg normalizedTo else zero,
         normalizedTo,
         normalizeData yMinMax normalizedTo yData)
    | None => (min yLargestMinMax, max yLargestMinMax, yData)
    end in
  let yMax := if strict_eq yMin zero && strict_eq yMax zero then Fin 1 else yMax in
  let '(lo, hi) := fixNumericExtent (yMin, yMax) in
  (with_processed s xData yData [lo; hi], true).

End ProcessData.

(** *** generateSelectionData (lines 407-496) *)

Record SelectionData : Type := {
  areaSelectionData : list (option AreaSelectionDatum);
  markerSelectionData_ : list MarkerSelectionDatum;
  labelSelectionData : list LabelSelectionDatum
}.

(** [a || 0] on [number | undefined]. *)
Definition or_zero (a : option num) : num :=
  match a with
  | Some n => if truthy n then n else zero
  | None => zero
  end.

(** [seriesDatum[yKey]]; an [undefined] key reads the property named
    "undefined". *)
Definition get_key (o : object) (k : option string) : option value :=
  match k with
  | Some key => get o key
  | None => get o "undefined"
  end.

(** [l[j % l.length]]: [undefined] for an empty list. *)
Definition cycle (l : list string) (j : nat) : option string :=
  nth_error l (j mod List.length l).

Section GenerateSelectionData.

(** [Number.prototype.toFixed(2)] and [String(number)] are the platform's. *)
Variable toFixed2 : num -> string.
Variable String_of_num : num -> string.

(** Lines 455-461, on numbers, on missing values and on strings that do
    not read as a finite number. For a string that does, line 460 calls
    [toFixed] on the string and throws; what is proved to return assumes
    [numberFields]. *)
Definition labelText (lbl : AreaSeriesLabel) (v : option value) : string :=
  match label_formatter lbl with
  | Some formatter => formatter v
  | None =>
      match v with
      | Some (VNum n) =>
          if isFinite n then toFixed2 n
          else if truthy n then String_of_num n else EmptyString
      | Some (VStr str) => str
      | None => EmptyString
      end
  end.

(** The state of the loop over one row's values: the two running totals
    and the three lists under construction. *)
Record RowState : Type := {
  prevMin : num;
  prevMax : num;
  built : SelectionData
}.

(** Lines 435-492: the body of [yDatum.forEach((curr, j) => ...)] for row
    [i], whose raw row is [seriesDatum] (undefined when [data] is shorter
    than [xData]) and whose x coordinate is [xv]. *)
Definition eachValue (s : AreaSeries) (yScale : Scale) (yOffset : num) (last i : nat)
  (seriesDatum : option object) (xv : num) (st : RowState) (curr : num) (j : nat)
  : outcome RowState :=
  let prev := if lt curr zero then prevMin st else prevMax st in
  let yv := add (convert yScale (Some (VNum (add prev curr)))) yOffset in
  let yKey := nth_error (_yKeys s) j in
  match seriesDatum with
  | None => Threw
  | Some datum =>
      let yValue := get_key datum yKey in
      let markers :=
        markerSelectionData_ (built st) ++
        [{| marker_index := i; marker_itemId := yKey; seriesDatum := datum;
            yValue := yValue; yKey := yKey;
            marker_point := {| point_x := xv; point_y := yv |};
            marker_datum_fill := cycle (fills s) j;
            marker_datum_stroke := cycle (strokes s) j |}] in
      let text := labelText (label s) yValue in
      let labels :=
        labelSelectionData (built st) ++
        [{| label_index := i; label_itemId := yKey;
            label_point := {| point_x := xv; point_y := yv |};
            label_text := if String.eqb text EmptyString then None else Some text |}] in
      let areaDatum :=
        match array_get (areaSelectionData (built st)) j with
        | Some d => d
        | None => {| itemId := yKey; points := [] |}
        end in
      let areaPoints := array_set (points areaDatum) i {| point_x := xv; point_y := yv |} in
      let areaPoints :=
        array_set areaPoints (last - i)
          {| point_x := xv;
             point_y := add (convert yScale (Some (VNum prev))) yOffset |} in
      let area :=
        array_set (areaSelectionData (built st)) j
          {| itemId := itemId areaDatum; points := areaPoints |} in
      Returned
        {| prevMin := if lt curr zero then add (prevMin st) curr else prevMin st;
           prevMax := if lt curr zero then prevMax st else add (prevMax st) curr;
           built := {| areaSelectionData := area;
                       markerSelectionData_ := markers;
                       labelSelectionData := labels |} |}
  end.

(** Lines 427-493: the body of [xData.forEach((xDatum, i) => ...)]. *)
Definition eachRow (s : AreaSeries) (rows : list object) (xScale yScale : Scale)
  (xOffset yOffset : num) (last : nat) (acc : SelectionData) (xDatum : option value) (i : nat)
  : outcome SelectionData :=
  match nth_error (yData s) i with
  | None => Threw
  | Some yDatum =>
      let seriesDatum := nth_error rows i in
      let xv := add (convert xScale xDatum) xOffset in
      bind
        (forEachM (eachValue s yScale yOffset last i seriesDatum xv) yDatum
           {| prevMin := zero; prevMax := zero; built := acc |})
        (fun st => Returned (built st))
  end.

Definition generateSelectionData (s : AreaSeries) : outcome (option SelectionData) :=
  match data s with
  | None => Returned None
  | Some rows =>
      match xAxis s, yAxis s with
      | Some xScale, Some yScale =>
          let xOffset := div (or_zero (bandwidth xScale)) (Fin 2) in
          let yOffset := div (or_zero (bandwidth yScale)) (Fin 2) in
          let last := List.length (xData s) * 2 - 1 in
          bind
            (forEachM (eachRow s rows xScale yScale xOffset yOffset last) (xData s)
               {| areaSelectionData := []; markerSelectionData_ := [];
                  labelSelectionData := [] |})
            (fun sel => Returned (Some sel))
      | _, _ => Threw
      end
  end.

End GenerateSelectionData.

(** *** update (lines 373-405) and the selections (lines 498-686) *)

(** Modelled from the spec: [Selection] of scene/selection is not under
    src/. The previous nodes and the new data are matched by position: a node
    up to the new length is reused with the new datum, the nodes beyond it are
    removed, and the missing trailing nodes are created. This is
    [setData], [exit.remove], [enter.append] and [merge] in one step. *)
Fixpoint rebind (N D : Type) (fresh : N) (sel : list (N * D)) (newData : list D) : list (N * D) :=
  match newData with
  | [] => []
  | d :: rest =>
      match sel with
      | [] => (fresh, d) :: rebind fresh [] rest
      | (n, _) :: sel' => (n, d) :: rebind fresh sel' rest
      end
  end.

(** [selection.each((node, datum, index) => ...)] for a callback that may
    throw; the callback returns the node as it leaves it. *)
Fixpoint each_from (N D : Type) (f : N -> D -> nat -> outcome N) (i : nat) (sel : list (N * D))
  : outcome (list (N * D)) :=
  match sel with
  | [] => Returned []
  | (n, d) :: sel' =>
      bind (f n d i) (fun n' =>
      bind (each_from f (S i) sel') (fun rest => Returned ((n', d) :: rest)))
  end.

Definition each (N D : Type) (f : N -> D -> nat -> outcome N) (sel : list (N * D))
  : outcome (list (N * D)) := each_from f 0 sel.

Section Update.

Variable toFixed2 : num -> string.
Variable String_of_num : num -> string.

(** The nodes the scene classes [Path], [Marker] and [Text] construct; the
    classes are not under src/. *)
Variable newPath : Path.
Variable newMarker : Marker.
Variable newText : Text.

(** Lines 498-511. *)
Definition updateFillSelection (s : AreaSeries) (areaData : list (option AreaSelectionDatum))
  : Selection Path (option AreaSelectionDatum) :=
  let entered :=
    {| path_fill := path_fill newPath; path_fillOpacity := path_fillOpacity newPath;
       path_stroke := None; path_strokeOpacity := path_strokeOpacity newPath;
       path_strokeWidth := path_strokeWidth newPath; path_visible := path_visible newPath;
       path_commands := path_commands newPath |} in
  rebind entered (fillSelection s) areaData.

(** Lines 533-541: the closed outline through all the points. *)
Definition fillCommands (pts : list (option Point)) : list PathCommand :=
  forEach
    (fun cmds slot i =>
       match slot with
       | Some p =>
           cmds ++ [if 0 <? i then LineTo (point_x p) (point_y p)
                    else MoveTo (point_x p) (point_y p)]
       | None => cmds
       end) pts []
  ++ [ClosePath].

(** Lines 513-543. *)
Definition updateFillNodes (s : AreaSeries) (sel : Selection Path (option AreaSelectionDatum))
  : outcome (Selection Path (option AreaSelectionDatum)) :=
  each
    (fun (shape : Path) datum index =>
       match datum with
       | None => Threw
       | Some d =>
           Returned
             {| path_fill := cycle (fills s) index;
                path_fillOpacity := fillOpacity s;
                path_stroke := cycle (strokes s) index;
                path_strokeOpacity := strokeOpacity s;
                path_strokeWidth := strokeWidth s;
                path_visible := enabled_item (seriesItemEnabled s) (itemId d);
                path_commands := fillCommands (points d) |}
       end) sel.

(** Lines 545-558. *)
Definition updateStrokeSelection (s : AreaSeries) (areaData : list (option AreaSelectionDatum))
  : Selection Path (option AreaSelectionDatum) :=
  let entered :=
    {| path_fill := None; path_fillOpacity := path_fillOpacity newPath;
       path_stroke := path_stroke newPath; path_strokeOpacity := path_strokeOpacity newPath;
       path_strokeWidth := path_strokeWidth newPath; path_visible := path_visible newPath;
       path_commands := path_commands newPath |} in
  rebind entered (strokeSelection s) areaData.

(** Lines 583-591: the top edge only, one point per row of [data]; reading
    a missing point throws. *)
Definition strokeCommands (pts : list (option Point)) (rowCount : nat) : outcome (list PathCommand) :=
  forEachM
    (fun cmds i _ =>
       match array_get pts i with
       | Some p =>
           Returned (cmds ++ [if 0 <? i then LineTo (point_x p) (point_y p)
                              else MoveTo (point_x p) (point_y p)])
       | None => Threw
       end) (seq 0 rowCount) [].

(** Lines 560-593. *)
Definition updateStrokeNodes (s : AreaSeries) (sel : Selection Path (option AreaSelectionDatum))
  : outcome (Selection Path (option AreaSelectionDatum)) :=
  match data s with
  | None => Returned sel
  | Some rows =>
      each
        (fun (shape : Path) datum index =>
           match datum with
           | None => Threw
           | Some d =>
               bind (strokeCommands (points d) (List.length rows)) (fun cmds =>
               Returned
                 {| path_fill := path_fill shape;
                    path_fillOpacity := path_fillOpacity shape;
                    path_stroke := cycle (strokes s) index;
                    path_strokeOpacity := strokeOpacity s;
                    path_strokeWidth := strokeWidth s;
                    path_visible := enabled_item (seriesItemEnabled s) (itemId d);
                    path_commands := cmds |})
           end) sel
  end.

(** Lines 595-602; [getMarker] always yields a marker class. *)
Definition updateMarkerSelection (s : AreaSeries) (markerData : list MarkerSelectionDatum)
  : Selection Marker MarkerSelectionDatum :=
  rebind newMarker (markerSelection s) (if marker_enabled (marker s) then markerData else []).

(** [a || b] on [string | undefined]; the empty string is falsy. *)
Definition or_else (a b : option string) : option string :=
  match a with
  | Some str => if String.eqb str EmptyString then b else a
  | None => b
  end.

(** Lines 604-649, as [update] runs them: the data bound to the nodes is
    new, so no datum is the chart's highlighted one; the marker formatter
    callback is left out. *)
Definition updateMarkerNodes (s : AreaSeries) (sel : Selection Marker MarkerSelectionDatum)
  : Selection Marker MarkerSelectionDatum :=
  match chart s with
  | None => sel
  | Some _ =>
      let m := marker s in
      let markerStrokeWidth :=
        match marker_strokeWidth m with Some w => w | None => strokeWidth s end in
      map (fun nd : Marker * MarkerSelectionDatum =>
             let datum := snd nd in
             ({| node_fill := or_else (marker_fill m) (marker_datum_fill datum);
                 node_stroke := or_else (marker_stroke m) (marker_datum_stroke datum);
                 node_strokeWidth := markerStrokeWidth;
                 node_size := marker_size m;
                 translationX := point_x (marker_point datum);
                 translationY := point_y (marker_point datum);
                 node_visible :=
                   marker_enabled m && gt (marker_size m) zero
                   && enabled_item (seriesItemEnabled s) (yKey datum) |}, datum)) sel
  end.

(** Lines 651-658. *)
Definition updateLabelSelection (s : AreaSeries) (labelData : list LabelSelectionDatum)
  : Selection Text LabelSelectionDatum :=
  rebind newText (labelSelection s) (if label_enabled (label s) then labelData else []).

(** Lines 660-686. *)
Definition updateLabelNodes (s : AreaSeries) (sel : Selection Text LabelSelectionDatum)
  : Selection Text LabelSelectionDatum :=
  match chart s with
  | None => sel
  | Some _ =>
      map (fun nd : Text * LabelSelectionDatum =>
             let (text, datum) := nd in
             match label_text datum with
             | Some str =>
                 if label_enabled (label s)
                 then ({| text_text := str;
                          text_x := point_x (label_point datum);
                          text_y := add (point_y (label_point datum)) (Fin (-10));
                          text_visible := true |}, datum)
                 else ({| text_text := text_text text; text_x := text_x text;
                          text_y := text_y text; text_visible := false |}, datum)
             | None =>
                 ({| text_text := text_text text; text_x := text_x text;
                     text_y := text_y text; text_visible := false |}, datum)
             end) sel
  end.

(** Lines 378-379: the readiness test. *)
Definition notReady (s : AreaSeries) : bool :=
  match chart s with
  | None => true
  | Some c => layoutPending c || dataPending c
  end
  || negb (visible s)
  || match xAxis s with None => true | Some _ => false end
  || match yAxis s with None => true | Some _ => false end
  || Nat.eqb (List.length (xData s)) 0
  || Nat.eqb (List.length (yData s)) 0.

(** Line 376. *)
Definition groupVisible (s : AreaSeries) : bool :=
  visible s
  && (negb (Nat.eqb (List.length (xData s)) 0) && negb (Nat.eqb (List.length (yData s)) 0)).

(** Lines 373-398. *)
Definition update (s : AreaSeries) : outcome AreaSeries :=
  let s := with_group_visible s (groupVisible s) in
  if notReady s then Returned s
  else
    bind (generateSelectionData toFixed2 String_of_num s) (fun selectionData =>
    match selectionData with
    | None => Returned s
    | Some sel =>
        let fillSel := updateFillSelection s (areaSelectionData sel) in
        let strokeSel := updateStrokeSelection s (areaSelectionData sel) in
        let markerSel := updateMarkerSelection s (markerSelectionData_ sel) in
        let labelSel := updateLabelSelection s (labelSelectionData sel) in
        bind (updateFillNodes s fillSel) (fun fillSel =>
        bind (updateStrokeNodes s strokeSel) (fun strokeSel =>
        Returned
          (with_selections s fillSel strokeSel
             (updateMarkerNodes s markerSel) (updateLabelNodes s labelSel)
             (markerSelectionData_ sel))))
    end).

End Update.

(** *** listSeriesItems (lines 759-784) *)

(** An entry of the legend; the marker's shape is left out. *)
Record LegendDatum : Type := {
  legend_id : string;
  legend_itemId : string;
  legend_enabled : bool;
  legend_text : string;
  legend_fill : option string;
  legend_stroke : option string;
  legend_fillOpacity : num;
  legend_strokeOpacity : num
}.

(** [yNames[index] || yKeys[index]]. *)
Definition legendText (yNames : list string) (yKey : string) (index : nat) : string :=
  match nth_error yNames index with
  | Some name => if String.eqb name EmptyString then yKey else name
  | None => yKey
  end.

(** The series' [id] and [yNames] are not among the fields of [AreaSeries]
    above: they are passed in. The entries are pushed onto the list the
    legend hands over. *)
Definition listSeriesItems (s : AreaSeries) (id : string) (yNames : list string)
  (legendData : list LegendDatum) : list LegendDatum :=
  match data s with
  | Some (_ :: _) =>
      if negb (String.eqb (_xKey s) EmptyString) && negb (Nat.eqb (List.length (_yKeys s)) 0)
      then
        forEach
          (fun legend yKey index =>
             legend ++
             [{| legend_id := id;
                 legend_itemId := yKey;
                 legend_enabled := enabled (seriesItemEnabled s) yKey;
                 legend_text := legendText yNames yKey index;
                 legend_fill := or_else (marker_fill (marker s)) (cycle (fills s) index);
                 legend_stroke := or_else (marker_stroke (marker s)) (cycle (strokes s) index);
                 legend_fillOpacity := fillOpacity s;
                 legend_strokeOpacity := strokeOpacity s |}])
          (_yKeys s) legendData
      else legendData
  | _ => legendData
  end.

(** *** Notions the properties are stated with *)

(** The sum of the entries of a row that satisfy [p]. *)
Definition sumWhere (p : num -> bool) (row : list num) : num :=
  fold_left add (filter p row) zero.

(** [b] is a number on the side of zero that [a] is on: negative,
    positive or zero like it. [NaN] is on no side. *)
Definition keepsSign (a b : num) : Prop :=
  (lt a zero = true /\ lt b zero = true)
  \/ (gt a zero = true /\ gt b zero = true)
  \/ (strict_eq a zero = true /\ strict_eq b zero = true).

(** One entry [q] of a finite row after rescaling to [t], the row's
    negative and positive magnitudes being [mn] and [mx]. *)
Definition scaled (mn mx t q : Q) : num :=
  if lt (Fin q) zero
  then mul (div (neg (Fin q)) (Fin mn)) (Fin t)
  else mul (div (Fin q) (Fin mx)) (Fin t).

(** Row [i] of the polygon [d] over [n] rows: the top point at [i] and the
    bottom point at [2n - 1 - i] are there and share their x coordinate. *)
Definition closedAt (n : nat) (d : AreaSelectionDatum) (i : nat) : Prop :=
  exists p q,
    nth_error (points d) i = Some (Some p)
    /\ nth_error (points d) (2 * n - 1 - i) = Some (Some q)
    /\ point_x p = point_x q.

(** The polygons of [m] value keys over [n] rows, after [k] rows. *)
Definition rowsDone (n m k : nat) (area : list (option AreaSelectionDatum)) : Prop :=
  (k = 0 /\ area = [])
  \/ (0 < k /\ List.length area = m
      /\ forall j, j < m ->
           exists d, nth_error area j = Some (Some d)
                     /\ List.length (points d) = 2 * n
                     /\ forall i, i < k -> closedAt n d i).

(** The polygons inside row [k], after [j] of its values. *)
Definition valuesDone (n m k j : nat) (area : list (option AreaSelectionDatum)) : Prop :=
  (forall j', j' < j ->
     exists d, nth_error area j' = Some (Some d)
               /\ List.length (points d) = 2 * n
               /\ forall i, i < S k -> closedAt n d i)
  /\ (k = 0 -> List.length area = j)
  /\ (0 < k -> List.length area = m
      /\ forall j', j <= j' -> j' < m ->
           exists d, nth_error area j' = Some (Some d)
                     /\ List.length (points d) = 2 * n
                     /\ forall i, i < k -> closedAt n d i).

(** [lo] is the least of zero and the numbers of [l]. *)
Definition leastWithZero (l : list num) (lo : num) : Prop :=
  (lo = zero \/ In lo l)
  /\ lt zero lo = false
  /\ forall v, In v l -> lt v lo = false.

(** [hi] is the greatest of zero and the numbers of [l]. *)
Definition greatestWithZero (l : list num) (hi : num) : Prop :=
  (hi = zero \/ In hi l)
  /\ gt zero hi = false
  /\ forall v, In v l -> gt v hi = false.

(** The total that value [j] of a row is stacked on: the sum of the earlier
    values of the row on its side of zero; a value that is not negative is
    on the positive side. *)
Definition stackedOn (values : list num) (j : nat) : num :=
  sumWhere (fun v => Bool.eqb (lt v zero) (lt (nth j values zero) zero)) (firstn j values).

(** The point of a category at a level of the stack: each coordinate is
    moved by half the band width of its scale. *)
Definition stackPoint (xScale yScale : Scale) (xDatum : option value) (level : num) : Point :=
  {| point_x := add (convert xScale xDatum) (div (or_zero (bandwidth xScale)) (Fin 2));
     point_y := add (convert yScale (Some (VNum level))) (div (or_zero (bandwidth yScale)) (Fin 2)) |}.

(** Value [j] of row [i] is drawn in the polygons [area]: polygon [j] has
    the top point of the value at [i] and its bottom point at [last - i]. *)
Definition stackedAt (s : AreaSeries) (xScale yScale : Scale) (last : nat)
  (area : list (option AreaSelectionDatum)) (i j : nat) : Prop :=
  forall xDatum yDatum curr,
    nth_error (xData s) i = Some xDatum ->
    nth_error (yData s) i = Some yDatum ->
    nth_error yDatum j = Some curr ->
    exists d,
      array_get area j = Some d
      /\ array_get (points d) i
         = Some (stackPoint xScale yScale xDatum (add (stackedOn yDatum j) curr))
      /\ array_get (points d) (last - i)
         = Some (stackPoint xScale yScale xDatum (stackedOn yDatum j)).

(** Every polygon of [area] is named after the value key of its position. *)
Definition keyed (s : AreaSeries) (area : list (option AreaSelectionDatum)) : Prop :=
  forall j d, array_get area j = Some d -> itemId d = nth_error (_yKeys s) j.

(** The marker datum and the label datum of value [j] of row [i], the raw
    row being [datum]. *)
Definition markerOf (s : AreaSeries) (xScale yScale : Scale) (i j : nat) (datum : object)
  (xDatum : option value) (yDatum : list num) (curr : num) : MarkerSelectionDatum :=
  {| marker_index := i; marker_itemId := nth_error (_yKeys s) j; seriesDatum := datum;
     yValue := get_key datum (nth_error (_yKeys s) j); yKey := nth_error (_yKeys s) j;
     marker_point := stackPoint xScale yScale xDatum (add (stackedOn yDatum j) curr);
     marker_datum_fill := cycle (fills s) j;
     marker_datum_stroke := cycle (strokes s) j |}.

Definition labelOf (toFixed2 String_of_num : num -> string) (s : AreaSeries)
  (xScale yScale : Scale) (i j : nat) (datum : object)
  (xDatum : option value) (yDatum : list num) (curr : num) : LabelSelectionDatum :=
  let text := labelText toFixed2 String_of_num (label s)
                (get_key datum (nth_error (_yKeys s) j)) in
  {| label_index := i; label_itemId := nth_error (_yKeys s) j;
     label_point := stackPoint xScale yScale xDatum (add (stackedOn yDatum j) curr);
     label_text := if String.eqb text EmptyString then None else Some text |}.

(** Value [j] of row [i] has its marker datum and its label datum at
    [i * m + j], [m] being the number of values of a row. *)
Definition markedAt (toFixed2 String_of_num : num -> string) (s : AreaSeries)
  (rows : list object) (xScale yScale : Scale) (m : nat)
  (markers : list MarkerSelectionDatum) (labels : list LabelSelectionDatum) (i j : nat) : Prop :=
  forall xDatum yDatum curr,
    nth_error (xData s) i = Some xDatum ->
    nth_error (yData s) i = Some yDatum ->
    nth_error yDatum j = Some curr ->
    exists datum,
      nth_error rows i = Some datum
      /\ nth_error markers (i * m + j)
         = Some (markerOf s xScale yScale i j datum xDatum yDatum curr)
      /\ nth_error labels (i * m + j)
         = Some (labelOf toFixed2 String_of_num s xScale yScale i j datum xDatum yDatum curr).

(** The command that draws to point [i] of an outline: the first point
    starts the path. *)
Definition drawTo (p : Point) (i : nat) : PathCommand :=
  if 0 <? i then LineTo (point_x p) (point_y p) else MoveTo (point_x p) (point_y p).

(** A fill node and a stroke node as [update] leaves them for the polygon
    bound to them, the data having [rowCount] rows. *)
Definition drawnFill (s : AreaSeries) (nd : Path * option AreaSelectionDatum) : Prop :=
  exists d,
    snd nd = Some d
    /\ path_commands (fst nd) = fillCommands (points d)
    /\ path_visible (fst nd) = enabled_item (seriesItemEnabled s) (itemId d).

Definition drawnStroke (s : AreaSeries) (rowCount : nat)
  (nd : Path * option AreaSelectionDatum) : Prop :=
  exists d,
    snd nd = Some d
    /\ path_commands (fst nd) = firstn rowCount (fillCommands (points d))
    /\ path_visible (fst nd) = enabled_item (seriesItemEnabled s) (itemId d).



(** *** Scenarios *)

(** [new AreaSeries()] with its data and keys set; the series is visible
    and belongs to no chart. *)
Definition newSeries (rows : list object) (xKey : string) (yKeys : list string) : AreaSeries :=
  {| data := Some rows; visible := true; chart := None; xAxis := None; yAxis := None;
     _xKey := xKey; _yKeys := yKeys;
     seriesItemEnabled := fold_left (fun m key => map_set m key true) yKeys [];
     _normalizedTo := None;
     xData := []; yData := []; yDomain := [];
     fills := ["#c16068"; "#a2bf8a"; "#ebcc87"; "#80a0c3"; "#b58dae"; "#85c0d1"]%string;
     strokes := ["#874349"; "#718661"; "#a48f5f"; "#5a7088"; "#7f637a"; "#5d8692"]%string;
     fillOpacity := Fin 1; strokeOpacity := Fin 1; strokeWidth := Fin 2;
     marker := {| marker_enabled := false; marker_fill := None; marker_stroke := None;
                  marker_strokeWidth := None; marker_size := Fin 8 |};
     label := {| label_enabled := false; label_formatter := None |};
     group_visible := true;
     fillSelection := []; strokeSelection := []; markerSelection := [];
     labelSelection := []; markerSelectionData := [] |}.

(** The row [{x, a, b}]. *)
Definition row (x : string) (a b : Q) : object :=
  [("x", VStr x); ("a", VNum (Fin a)); ("b", VNum (Fin b))]%string.

(** Rows Jan and Feb with the value keys a and b. *)
Definition janFeb : AreaSeries :=
  newSeries [row "Jan" 5 (-3); row "Feb" 10 (-15)] "x" ["a"; "b"]%string.

(** The row [{a: 4, b: -1}]. *)
Definition fourMinusOne : AreaSeries :=
  newSeries [row "Jan" 4 (-1)] "x" ["a"; "b"]%string.

(** The row [{a: 0, b: -1}]: a zero beside a negative value. *)
Definition zeroMinusOne : AreaSeries :=
  newSeries [row "Jan" 0 (-1)] "x" ["a"; "b"]%string.

(** The row [{a: 0, b: 0}]. *)
Definition allZero : AreaSeries :=
  newSeries [row "Jan" 0 0] "x" ["a"; "b"]%string.

(** The rows of [janFeb] with no category key set. *)
Definition noCategoryKey : AreaSeries :=
  newSeries [row "Jan" 5 (-3); row "Feb" 10 (-15)] "" ["a"; "b"]%string.

(** An extent fixer that changes nothing. *)
Definition keepExtent (extent : num * num) : num * num := extent.

(** A linear scale on numbers, and a band scale for the categories Jan and
    Feb with bands 10 wide. *)
Definition linearScale : Scale :=
  {| convert := fun v => match v with Some (VNum n) => n | _ => NaN end;
     bandwidth := None |}.

Definition bandScale : Scale :=
  {| convert := fun v =>
       match v with
       | Some (VStr str) =>
           if String.eqb str "Jan" then Fin 0
           else if String.eqb str "Feb" then Fin 10 else Fin 20
       | _ => NaN
       end;
     bandwidth := Some (Fin 10) |}.

Definition with_chart (s : AreaSeries) (c : option Chart) (xs ys : option Scale) (vis : bool)
  : AreaSeries :=
  {| data := data s; visible := vis; chart := c; xAxis := xs;
     yAxis := ys; _xKey := _xKey s; _yKeys := _yKeys s;
     seriesItemEnabled := seriesItemEnabled s; _normalizedTo := _normalizedTo s;
     xData := xData s; yData := yData s; yDomain := yDomain s; fills := fills s;
     strokes := strokes s; fillOpacity := fillOpacity s;
     strokeOpacity := strokeOpacity s; strokeWidth := strokeWidth s;
     marker := marker s; label := label s; group_visible := group_visible s;
     fillSelection := fillSelection s; strokeSelection := strokeSelection s;
     markerSelection := markerSelection s; labelSelection := labelSelection s;
     markerSelectionData := markerSelectionData s |}.

Definition readyChart : Chart := {| layoutPending := false; dataPending := false |}.

Definition blankPath : Path :=
  {| path_fill := None; path_fillOpacity := Fin 1; path_stroke := None;
     path_strokeOpacity := Fin 1; path_strokeWidth := Fin 1; path_visible := true;
     path_commands := [] |}.

Definition blankMarker : Marker :=
  {| node_fill := None; node_stroke := None; node_strokeWidth := Fin 1; node_size := Fin 8;
     translationX := zero; translationY := zero; node_visible := true |}.

Definition blankText : Text :=
  {| text_text := EmptyString; text_x := zero; text_y := zero; text_visible := true |}.

(** A number formatter that prints every number alike. *)
Definition plainText (n : num) : string := "n"%string.

(** [janFeb], processed and drawn once in a chart. *)
Definition janFebDrawn : outcome AreaSeries :=
  update plainText plainText blankPath blankMarker blankText
    (with_chart (fst (processData keepExtent janFeb)) (Some readyChart)
       (Some bandScale) (Some linearScale) true).

(** The drawn series after it has been made invisible. *)
Definition drawnThenHidden : AreaSeries :=
  match janFebDrawn with
  | Returned s => with_chart s (chart s) (xAxis s) (yAxis s) false
  | _ => janFeb
  end.

(** [janFeb] in a chart with both axes, not yet drawn. *)
Definition janFebCharted : AreaSeries :=
  with_chart janFeb (Some readyChart) (Some bandScale) (Some linearScale) true.

(** Two rows whose values are all positive, in a chart with both axes. *)
Definition risingCharted : AreaSeries :=
  with_chart (newSeries [row "Jan" 1 2; row "Feb" 3 4] "x" ["a"; "b"]%string)
    (Some readyChart) (Some bandScale) (Some linearScale) true.

End AreaSeries.

(** ** The status bar's range aggregator *)

Module StatusBar.
Import JS.

(** [Constants.FLOATING_TOP], no floating, [Constants.FLOATING_BOTTOM]. *)
Inductive Floating : Type := FLOATING_TOP | NOT_FLOATING | FLOATING_BOTTOM.

Record GridRow : Type := { rowIndex : nat; floating : Floating }.

Definition Column : Type := string.

Record GridCell : Type := {
  cell_rowIndex : nat;
  cell_floating : Floating;
  cell_column : Column
}.

(** A cell range: [start], [end] and [columns]. *)
Record CellRange : Type := {
  range_start : GridCell;
  range_end : GridCell;
  columns : list Column
}.

(** The identity of a cell. *)
Definition CellId : Type := (nat * Floating * Column)%type.

(** Modelled from the spec: [GridCell] and [GridRow] of the core package
    are not under src/. A range's start and end are cell references; each
    names its row. *)
Definition getGridRow (c : GridCell) : GridRow :=
  {| rowIndex := cell_rowIndex c; floating := cell_floating c |}.

Definition getGridCell (r : GridRow) (column : Column) : GridCell :=
  {| cell_rowIndex := rowIndex r; cell_floating := floating r; cell_column := column |}.

(** Modelled from the spec: [GridCell.createId] is not under src/. The spec
    has a unique cell identity computed from the row and the column. *)
Definition createId (c : GridCell) : CellId :=
  (cell_rowIndex c, cell_floating c, cell_column c).

Definition Floating_eqb (a b : Floating) : bool :=
  match a, b with
  | FLOATING_TOP, FLOATING_TOP | NOT_FLOATING, NOT_FLOATING
  | FLOATING_BOTTOM, FLOATING_BOTTOM => true
  | _, _ => false
  end.

Definition CellId_eqb (a b : CellId) : bool :=
  let '(i, f, c) := a in
  let '(i', f', c') := b in
  Nat.eqb i i' && Floating_eqb f f' && String.eqb c c'.

(** [cellsSoFar[cellId]] on the object used as a set of identities. *)
Fixpoint seen (cellsSoFar : list CellId) (cellId : CellId) : bool :=
  match cellsSoFar with
  | [] => false
  | c :: rest => CellId_eqb c cellId || seen rest cellId
  end.

(** The place of a row group in the one logical sequence of rows: pinned
    top, main body, pinned bottom. *)
Definition groupRank (f : Floating) : nat :=
  match f with
  | FLOATING_TOP => 0
  | NOT_FLOATING => 1
  | FLOATING_BOTTOM => 2
  end.

(** Modelled from the spec: [GridRow.before] is not under src/. The spec
    has one row precede another in row order. *)
Definition before (a b : GridRow) : bool :=
  (groupRank (floating a) <? groupRank (floating b))
  || (Nat.eqb (groupRank (floating a)) (groupRank (floating b)) && (rowIndex a <? rowIndex b)).

(** Modelled from the spec: [GridRow.equals] is not under src/. *)
Definition equals (a b : GridRow) : bool :=
  Nat.eqb (rowIndex a) (rowIndex b) && Floating_eqb (floating a) (floating b).

Section Aggregator.

(** The rows are the grid's row nodes; the value service reads a column's
    value off a row node. Both belong to the core package. *)
Variable RowNode : Type.
Variable getValue : Column -> option RowNode -> option value.

(** [Number(string)] is the platform's. *)
Variable Number : string -> num.

(** The row models the status bar reads. *)
Record Grid : Type := {
  floatingTopRowData : list RowNode;
  rowModel : list RowNode;
  floatingBottomRowData : list RowNode
}.

(** Lines 143-152. *)
Definition getRowNode (g : Grid) (gridRow : GridRow) : option RowNode :=
  match floating gridRow with
  | FLOATING_TOP => nth_error (floatingTopRowData g) (rowIndex gridRow)
  | FLOATING_BOTTOM => nth_error (floatingBottomRowData g) (rowIndex gridRow)
  | NOT_FLOATING => nth_error (rowModel g) (rowIndex gridRow)
  end.

(** Modelled from the spec: [CellNavigationService.getRowBelow] is not under
    src/. The spec has a next-row traversal that crosses from the pinned top
    rows to the main body to the pinned bottom rows as one logical sequence;
    past the last row there is none ([null]). *)
Definition getRowBelow (g : Grid) (r : GridRow) : option GridRow :=
  let top := List.length (floatingTopRowData g) in
  let body := List.length (rowModel g) in
  let bottom := List.length (floatingBottomRowData g) in
  let firstBottom :=
    if 0 <? bottom then Some {| rowIndex := 0; floating := FLOATING_BOTTOM |} else None in
  let firstBody :=
    if 0 <? body then Some {| rowIndex := 0; floating := NOT_FLOATING |} else firstBottom in
  match floating r with
  | FLOATING_TOP =>
      if S (rowIndex r) <? top
      then Some {| rowIndex := S (rowIndex r); floating := FLOATING_TOP |}
      else firstBody
  | NOT_FLOATING =>
      if S (rowIndex r) <? body
      then Some {| rowIndex := S (rowIndex r); floating := NOT_FLOATING |}
      else firstBottom
  | FLOATING_BOTTOM =>
      if S (rowIndex r) <? bottom
      then Some {| rowIndex := S (rowIndex r); floating := FLOATING_BOTTOM |}
      else None
  end.

(** The variables of one aggregation pass (lines 66-71). *)
Record Aggregation : Type := {
  sum : num;
  count : nat;
  min : num;
  max : num;
  cellsSoFar : list CellId
}.

Definition initial : Aggregation :=
  {| sum := zero; count := 0; min := zero; max := zero; cellsSoFar := [] |}.

(** Lines 99-115: a value enters the totals when it is a number, after the
    conversion of a string, and not [NaN]; the cell is counted either way. *)
Definition addValue (a : Aggregation) (cellId : CellId) (v : option value) : Aggregation :=
  let v := match v with Some (VStr str) => Some (VNum (Number str)) | _ => v end in
  match v with
  | Some (VNum n) =>
      if negb (isNaN n)
      then {| sum := add (sum a) n;
              count := S (count a);
              min := if lt n (min a) then n else min a;
              max := if gt n (max a) then n else max a;
              cellsSoFar := cellId :: cellsSoFar a |}
      else {| sum := sum a; count := S (count a); min := min a; max := max a;
              cellsSoFar := cellId :: cellsSoFar a |}
  | _ => {| sum := sum a; count := S (count a); min := min a; max := max a;
            cellsSoFar := cellId :: cellsSoFar a |}
  end.

(** Lines 87-116: the body of [cellRange.columns.forEach(column => ...)]. *)
Definition eachColumn (g : Grid) (currentRow : GridRow) (a : Aggregation) (column : Column)
  : Aggregation :=
  let cellId := createId (getGridCell currentRow column) in
  if seen (cellsSoFar a) cellId then a
  else addValue a cellId (getValue column (getRowNode g currentRow)).

(** Lines 86-124: the [while (true)] loop. Past the last row of the grid
    [getRowBelow] gives [null], and the next use of [currentRow] throws. *)
Fixpoint eachRow (fuel : nat) (g : Grid) (cols : list Column) (currentRow lastRow : GridRow)
  (a : Aggregation) : outcome Aggregation :=
  match fuel with
  | O => OutOfFuel
  | S fuel' =>
      let a := fold_left (eachColumn g currentRow) cols a in
      if equals currentRow lastRow then Returned a
      else
        match getRowBelow g currentRow with
        | None => Threw
        | Some below => eachRow fuel' g cols below lastRow a
        end
  end.

(** The loop visits each row at most once: one more round than the grid has
    rows is enough. *)
Definition rowCount (g : Grid) : nat :=
  List.length (floatingTopRowData g) + List.length (rowModel g)
  + List.length (floatingBottomRowData g).

(** Lines 75-126: the body of [cellRanges.forEach(cellRange => ...)]. *)
Definition eachRange (g : Grid) (a : Aggregation) (cellRange : CellRange) : outcome Aggregation :=
  let startRow := getGridRow (range_start cellRange) in
  let endRow := getGridRow (range_end cellRange) in
  let startRowIsFirst := before startRow endRow in
  let currentRow := if startRowIsFirst then startRow else endRow in
  let lastRow := if startRowIsFirst then endRow else startRow in
  eachRow (S (rowCount g)) g (columns cellRange) currentRow lastRow a.

(** Lines 64-128: the aggregation pass. [cellRanges] may be missing. *)
Definition aggregate (g : Grid) (cellRanges : option (list CellRange)) : outcome Aggregation :=
  match cellRanges with
  | None => Returned initial
  | Some ranges =>
      fold_left (fun acc cellRange => bind acc (fun a => eachRange g a cellRange))
                ranges (Returned initial)
  end.

(** Modelled from the spec: [StatusItem] (statusItem.ts) is not under src/.
    The spec has the aggregate pushed to a status display that is shown or
    hidden: an item holds the value set last and whether it is visible. *)
Record StatusItem : Type := {
  item_value : option num;
  item_visible : bool
}.

Record StatusBar : Type := {
  statusItemSum : StatusItem;
  statusItemCount : StatusItem;
  statusItemMin : StatusItem;
  statusItemMax : StatusItem;
  statusItemAvg : StatusItem
}.

Definition setValue (item : StatusItem) (v : num) : StatusItem :=
  {| item_value := Some v; item_visible := item_visible item |}.

Definition setVisible (item : StatusItem) (b : bool) : StatusItem :=
  {| item_value := item_value item; item_visible := b |}.

(** Lines 59-61. *)
Definition forEachStatusItem (f : StatusItem -> StatusItem) (bar : StatusBar) : StatusBar :=
  {| statusItemSum := f (statusItemSum bar);
     statusItemCount := f (statusItemCount bar);
     statusItemMin := f (statusItemMin bar);
     statusItemMax := f (statusItemMax bar);
     statusItemAvg := f (statusItemAvg bar) |}.

Definition statusItems (bar : StatusBar) : list StatusItem :=
  [statusItemAvg bar; statusItemCount bar; statusItemMin bar; statusItemMax bar;
   statusItemSum bar].

(** A count as a number. *)
Definition of_nat (n : nat) : num := Fin (inject_Z (Z.of_nat n)).

(** Lines 63-141. *)
Definition onRangeSelectionChanged (g : Grid) (cellRanges : option (list CellRange))
  (bar : StatusBar) : outcome StatusBar :=
  bind (aggregate g cellRanges) (fun a =>
  let gotResult := 1 <? count a in
  let bar :=
    if gotResult
    then {| statusItemSum := setValue (statusItemSum bar) (sum a);
            statusItemCount := setValue (statusItemCount bar) (of_nat (count a));
            statusItemMin := setValue (statusItemMin bar) (min a);
            statusItemMax := setValue (statusItemMax bar) (max a);
            statusItemAvg := setValue (statusItemAvg bar) (div (sum a) (of_nat (count a))) |}
    else bar in
  Returned (forEachStatusItem (fun statusItem => setVisible statusItem gotResult) bar)).

(** *** Notions the properties are stated with *)

(** The rows the loop of [eachRow] goes through, in order. *)
Fixpoint rowsBetween (fuel : nat) (g : Grid) (currentRow lastRow : GridRow)
  : outcome (list GridRow) :=
  match fuel with
  | O => OutOfFuel
  | S fuel' =>
      if equals currentRow lastRow then Returned [currentRow]
      else
        match getRowBelow g currentRow with
        | None => Threw
        | Some below =>
            bind (rowsBetween fuel' g below lastRow) (fun rest => Returned (currentRow :: rest))
        end
  end.

(** The cells a range covers, in the order the loops reach them. *)
Definition cellsOfRange (g : Grid) (cellRange : CellRange) : outcome (list GridCell) :=
  let startRow := getGridRow (range_start cellRange) in
  let endRow := getGridRow (range_end cellRange) in
  let startRowIsFirst := before startRow endRow in
  let currentRow := if startRowIsFirst then startRow else endRow in
  let lastRow := if startRowIsFirst then endRow else startRow in
  bind (rowsBetween (S (rowCount g)) g currentRow lastRow) (fun rows =>
  Returned (flat_map (fun r => map (getGridCell r) (columns cellRange)) rows)).

(** The cells a list of ranges covers, range after range; a cell that lies
    in several ranges is listed once for each. *)
Fixpoint cellsOfRanges (g : Grid) (ranges : list CellRange) : outcome (list GridCell) :=
  match ranges with
  | [] => Returned []
  | cellRange :: rest =>
      bind (cellsOfRange g cellRange) (fun cells =>
      bind (cellsOfRanges g rest) (fun cells' => Returned (cells ++ cells')))
  end.

(** A list of cells without the cells whose identity is in [ids] or occurs
    earlier in the list. *)
Fixpoint distinctFrom (ids : list CellId) (cells : list GridCell) : list GridCell :=
  match cells with
  | [] => []
  | c :: rest =>
      if seen ids (createId c) then distinctFrom ids rest
      else c :: distinctFrom (createId c :: ids) rest
  end.

Definition distinctCells (cells : list GridCell) : list GridCell := distinctFrom [] cells.

(** One cell enters the aggregation, whatever was counted before. *)
Definition countCell (g : Grid) (a : Aggregation) (c : GridCell) : Aggregation :=
  addValue a (createId c) (getValue (cell_column c) (getRowNode g (getGridRow c))).

(** One cell as the loop body treats it: skipped when its identity was
    counted before in the pass. *)
Definition visitCell (g : Grid) (a : Aggregation) (c : GridCell) : Aggregation :=
  if seen (cellsSoFar a) (createId c) then a else countCell g a c.

(** The aggregation of a list of cells, each taken once. *)
Definition aggregateCells (g : Grid) (cells : list GridCell) : Aggregation :=
  fold_left (countCell g) cells initial.

(** The rows after [r] in the logical sequence of the grid's rows. *)
Definition rowsAfter (g : Grid) (r : GridRow) : nat :=
  let top := List.length (floatingTopRowData g) in
  let body := List.length (rowModel g) in
  let bottom := List.length (floatingBottomRowData g) in
  match floating r with
  | FLOATING_TOP => (top - S (rowIndex r)) + body + bottom
  | NOT_FLOATING => (body - S (rowIndex r)) + bottom
  | FLOATING_BOTTOM => bottom - S (rowIndex r)
  end.

(** The number a cell's value enters the totals with (lines 99-103): a
    number that is not [NaN], a string after its conversion; a missing
    value enters with nothing. *)
Definition numeric (v : option value) : option num :=
  match v with
  | Some (VNum n) => if isNaN n then None else Some n
  | Some (VStr str) => if isNaN (Number str) then None else Some (Number str)
  | None => None
  end.

(** The numbers of a list of cells, in order. *)
Definition numbersOf (g : Grid) (cells : list GridCell) : list num :=
  flat_map
    (fun c =>
       match numeric (getValue (cell_column c) (getRowNode g (getGridRow c))) with
       | Some n => [n]
       | None => []
       end) cells.

End Aggregator.

(** *** Scenarios *)

(** Row nodes that are plain objects, read by column name. *)
Definition readField (column : Column) (node : option object) : option value :=
  match node with
  | Some o => get o column
  | None => None
  end.

(** A conversion for grids that hold no strings. *)
Definition notANumber (str : string) : num := NaN.

(** One pinned top row and two body rows, holding 1, 2 and 3 in column c. *)
Definition threeRows : Grid object :=
  {| floatingTopRowData := [[("c"%string, VNum (Fin 1))]];
     rowModel := [[("c"%string, VNum (Fin 2))]; [("c"%string, VNum (Fin 3))]];
     floatingBottomRowData := [] |}.

Definition topRow : GridRow := {| rowIndex := 0; floating := FLOATING_TOP |}.
Definition bodyRow (i : nat) : GridRow := {| rowIndex := i; floating := NOT_FLOATING |}.

Definition rangeOf (first last : GridRow) : CellRange :=
  {| range_start := getGridCell first "c"%string;
     range_end := getGridCell last "c"%string;
     columns := ["c"%string] |}.

Definition hiddenItem : StatusItem := {| item_value := None; item_visible := false |}.

(** The status bar as [createStatusItems] leaves it (lines 41-57). *)
Definition createStatusItems : StatusBar :=
  {| statusItemSum := hiddenItem; statusItemCount := hiddenItem;
     statusItemMin := hiddenItem; statusItemMax := hiddenItem;
     statusItemAvg := hiddenItem |}.

End StatusBar.

(** * Properties *)

(** ** Numbers and arrays *)

Module JSFacts.
Import JS.

(** *** Numbers *)

Lemma strict_eq_refl (x : num) : isNaN x = false -> strict_eq x x = true.
Proof.
  destruct x; simpl; try reflexivity; try discriminate.
  intros _. apply Qeq_bool_iff. reflexivity.
Qed.

Lemma truthy_not_NaN (x : num) : truthy x = true -> isNaN x = false.
Proof. destruct x; simpl; congruence. Qed.

Lemma isNaN_abs (x : num) : isNaN (abs x) = isNaN x.
Proof. destruct x; reflexivity. Qed.

Lemma abs_neg (x : num) : abs (neg x) = abs x.
Proof.
  destruct x as [[n d]| | |]; simpl; try reflexivity.
  unfold Qabs, Qopp; simpl. now rewrite Z.abs_opp.
Qed.

Lemma truthy_neg (x : num) : truthy (neg x) = truthy x.
Proof.
  destruct x as [[n d]| | |]; simpl; try reflexivity.
  unfold Qeq_bool, Qopp; simpl. f_equal.
  destruct n; reflexivity.
Qed.

Lemma lt_Fin (a b : Q) : lt (Fin a) (Fin b) = true <-> (a < b)%Q.
Proof. simpl. split; intros H; qcmp; try congruence; try lra. Qed.

Lemma lt_Fin_false (a b : Q) : lt (Fin a) (Fin b) = false <-> (b <= a)%Q.
Proof. simpl. split; intros H; qcmp; try congruence; try lra. Qed.

(** [v < m] and not [v < r], for a number [r]: then not [m < r]. *)
Lemma lt_below (v m r : num) :
  lt v r = false -> lt v m = true -> isNaN r = false -> lt m r = false.
Proof. destruct v, m, r; intros; num_order. Qed.

(** not [v < m] and not [m < r], for a number [m]: then not [v < r]. *)
Lemma lt_above (v m r : num) :
  lt v m = false -> lt m r = false -> isNaN m = false -> lt v r = false.
Proof. destruct v, m, r; intros; num_order. Qed.

Lemma lt_irrefl (x : num) : lt x x = false.
Proof. destruct x; num_order. Qed.

Lemma lt_true_not_NaN (x y : num) : lt x y = true -> isNaN x = false /\ isNaN y = false.
Proof. destruct x, y; simpl; intros; split; congruence. Qed.

Lemma fold_least (l : list num) : forall m0,
  isNaN m0 = false ->
  let r := fold_left least_step l m0 in
  (r = m0 \/ In r l) /\ lt m0 r = false /\ (forall v, In v l -> lt v r = false)
  /\ isNaN r = false.
Proof.
  induction l as [|v l IH]; intros m0 Hm0; simpl.
  - repeat split; auto using lt_irrefl. intros v [].
  - change (least_step m0 v) with (if lt v m0 then v else m0).
    destruct (lt v m0) eqn:E.
    + destruct (lt_true_not_NaN _ _ E) as [Hv _].
      destruct (IH v Hv) as (Hin & Hle & Hall & Hnan).
      repeat split; auto.
      * destruct Hin as [->|Hin]; auto.
      * eapply lt_below; eauto.
      * intros w [<-|Hw]; auto.
    + destruct (IH m0 Hm0) as (Hin & Hle & Hall & Hnan).
      repeat split; auto.
      * destruct Hin as [->|Hin]; auto.
      * intros w [<-|Hw]; auto. eapply lt_above; eauto.
Qed.

Lemma gt_below (v m r : num) :
  lt r v = false -> lt m v = true -> isNaN r = false -> lt r m = false.
Proof. destruct v, m, r; intros; num_order. Qed.

Lemma gt_above (v m r : num) :
  lt m v = false -> lt r m = false -> isNaN m = false -> lt r v = false.
Proof. destruct v, m, r; intros; num_order. Qed.

Lemma fold_greatest (l : list num) : forall m0,
  isNaN m0 = false ->
  let r := fold_left greatest_step l m0 in
  (r = m0 \/ In r l) /\ lt r m0 = false /\ (forall v, In v l -> lt r v = false)
  /\ isNaN r = false.
Proof.
  induction l as [|v l IH]; intros m0 Hm0; simpl.
  - repeat split; auto using lt_irrefl. intros v [].
  - change (greatest_step m0 v) with (if lt m0 v then v else m0).
    destruct (lt m0 v) eqn:E.
    + destruct (lt_true_not_NaN _ _ E) as [_ Hv].
      destruct (IH v Hv) as (Hin & Hle & Hall & Hnan).
      repeat split; auto.
      * destruct Hin as [->|Hin]; auto.
      * eapply gt_below; eauto.
      * intros w [<-|Hw]; auto.
    + destruct (IH m0 Hm0) as (Hin & Hle & Hall & Hnan).
      repeat split; auto.
      * destruct Hin as [->|Hin]; auto.
      * intros w [<-|Hw]; auto. eapply gt_above; eauto.
Qed.

Lemma isFinite_not_NaN (x : num) : isFinite x = true -> isNaN x = false.
Proof. destruct x; simpl; congruence. Qed.

Lemma finite_list (l : list num) :
  Forall (fun v => isFinite v = true) l -> exists qs, l = map Fin qs.
Proof.
  induction 1 as [|v l Hv _ [qs ->]].
  - now exists [].
  - destruct v; try discriminate. now exists (q :: qs).
Qed.

(** *** Sums of rationals *)

Lemma negativeQ_true (q : Q) : negativeQ q = true <-> (q < 0)%Q.
Proof. unfold negativeQ. split; intros H; qcmp; try congruence; lra. Qed.

Lemma negativeQ_false (q : Q) : negativeQ q = false <-> (0 <= q)%Q.
Proof. unfold negativeQ. split; intros H; qcmp; try congruence; lra. Qed.

Lemma lt_zero_negativeQ (q : Q) : lt (Fin q) zero = negativeQ q.
Proof. reflexivity. Qed.

Lemma sumNeg_bounds (qs : list Q) :
  (sumNeg qs <= 0)%Q /\ forall q, In q qs -> (q < 0)%Q -> (sumNeg qs <= q)%Q.
Proof.
  induction qs as [|a qs [IH1 IH2]]; simpl.
  - split; [lra | intros q []].
  - destruct (negativeQ a) eqn:E.
    + apply negativeQ_true in E. split; [lra|].
      intros q [<-|Hin] Hq; [lra|]. specialize (IH2 q Hin Hq). lra.
    + split; [lra|]. intros q [<-|Hin] Hq.
      * apply negativeQ_false in E. lra.
      * specialize (IH2 q Hin Hq). lra.
Qed.

Lemma sumPos_bounds (qs : list Q) :
  (0 <= sumPos qs)%Q /\ forall q, In q qs -> (0 < q)%Q -> (q <= sumPos qs)%Q.
Proof.
  induction qs as [|a qs [IH1 IH2]]; simpl.
  - split; [lra | intros q []].
  - destruct (negativeQ a) eqn:E.
    + apply negativeQ_true in E. split; [lra|].
      intros q [<-|Hin] Hq; [lra|]. specialize (IH2 q Hin Hq). lra.
    + apply negativeQ_false in E. split; [lra|]. intros q [<-|Hin] Hq.
      * lra.
      * specialize (IH2 q Hin Hq). lra.
Qed.

Lemma sumNeg_none (qs : list Q) :
  (forall q, In q qs -> (0 <= q)%Q) -> (sumNeg qs == 0)%Q.
Proof.
  induction qs as [|a qs IH]; simpl; intros H; [reflexivity|].
  assert (Ha : negativeQ a = false) by (apply negativeQ_false, H; now left).
  rewrite Ha, IH; [lra|]. intros q Hq. apply H. now right.
Qed.

Lemma sumPos_none (qs : list Q) :
  (forall q, In q qs -> (q <= 0)%Q) -> (sumPos qs == 0)%Q.
Proof.
  induction qs as [|a qs IH]; simpl; intros H; [reflexivity|].
  assert (Ha : (a <= 0)%Q) by (apply H; now left).
  rewrite IH by (intros q Hq; apply H; now right).
  destruct (negativeQ a) eqn:E; [lra|]. apply negativeQ_false in E. lra.
Qed.

(** A positive number over a negative one is negative. *)
Lemma Qdiv_pos_neg (a b : Q) : (0 < a)%Q -> (b < 0)%Q -> (a / b < 0)%Q.
Proof.
  intros Ha Hb.
  assert (E : (a / b == - (a / - b))%Q) by (field; lra).
  rewrite E.
  assert (0 < a / - b)%Q; [|lra].
  apply Qlt_shift_div_l; lra.
Qed.

Lemma Qdiv_pos_pos (a b : Q) : (0 < a)%Q -> (0 < b)%Q -> (0 < a / b)%Q.
Proof. intros Ha Hb. apply Qlt_shift_div_l; lra. Qed.

Lemma Qmult_neg_pos (a t : Q) : (a < 0)%Q -> (0 < t)%Q -> (a * t < 0)%Q.
Proof. intros. nra. Qed.

Lemma Qmult_pos_pos (a t : Q) : (0 < a)%Q -> (0 < t)%Q -> (0 < a * t)%Q.
Proof. intros. nra. Qed.

(** *** Arrays and loops *)

Lemma length_array_set (A : Type) (a : list (option A)) : forall i v,
  List.length (array_set a i v) = Nat.max (List.length a) (S i).
Proof.
  induction a as [|h t IH]; intros i v.
  - induction i as [|i IHi]; simpl; [reflexivity|]. simpl in IHi. now rewrite IHi.
  - destruct i as [|i]; simpl; [lia|]. rewrite IH. lia.
Qed.

Lemma nth_error_array_set_same (A : Type) (a : list (option A)) : forall i v,
  nth_error (array_set a i v) i = Some (Some v).
Proof.
  induction a as [|h t IH]; intros i v.
  - induction i as [|i IHi]; simpl; [reflexivity|]. exact IHi.
  - destruct i as [|i]; simpl; [reflexivity|]. apply IH.
Qed.

Lemma nth_error_array_set_other (A : Type) (a : list (option A)) : forall i j v,
  j < List.length a -> i <> j -> nth_error (array_set a i v) j = nth_error a j.
Proof.
  induction a as [|h t IH]; intros i j v Hj Hij; simpl in Hj; [lia|].
  destruct i as [|i], j as [|j]; simpl; try reflexivity; try lia.
  apply IH; lia.
Qed.

Lemma array_get_past (A : Type) (a : list (option A)) (j : nat) :
  List.length a <= j -> array_get a j = None.
Proof.
  intros H. unfold array_get. now rewrite (proj2 (nth_error_None a j) H).
Qed.

Lemma forEachM_from_inv (A S : Type) (f : S -> A -> nat -> outcome S)
  (P : nat -> S -> Prop) (N : nat) :
  (forall s x j s', j < N -> P j s -> f s x j = Returned s' -> P (Datatypes.S j) s') ->
  forall l k s s',
    k + List.length l = N -> P k s -> forEachM_from f k l s = Returned s' -> P N s'.
Proof.
  intros Hstep. induction l as [|x l IH]; intros k s s' Hlen HP Hrun; simpl in *.
  - inversion Hrun; subst. now rewrite Nat.add_0_r.
  - destruct (f s x k) as [s1| |] eqn:E; simpl in Hrun; try discriminate.
    apply (IH (Datatypes.S k) s1 s'); [lia| |assumption].
    apply (Hstep s x k s1); [lia|assumption|assumption].
Qed.

End JSFacts.

(** ** The area series *)

Module AreaSeriesFacts.
Import JS AreaSeries JSFacts.

(** *** The normalizedTo setter *)

Lemma set_normalizedTo_neg (s : AreaSeries) (T : num) :
  set_normalizedTo s (Some (neg T)) = set_normalizedTo s (Some T).
Proof.
  unfold set_normalizedTo. now rewrite truthy_neg, abs_neg.
Qed.

Lemma set_normalizedTo_truthy (s : AreaSeries) (v : num) :
  truthy v = true ->
  exists w, _normalizedTo (set_normalizedTo s (Some v)) = Some w
            /\ strict_eq w (abs v) = true.
Proof.
  intros Hv. unfold set_normalizedTo. rewrite Hv.
  assert (Hrefl : strict_eq (abs v) (abs v) = true).
  { apply strict_eq_refl. rewrite isNaN_abs. now apply truthy_not_NaN. }
  destruct (_normalizedTo s) as [u|] eqn:Hu; simpl.
  - destruct (strict_eq u (abs v)) eqn:E; simpl.
    + exists u. now rewrite Hu.
    + exists (abs v). now split.
  - exists (abs v). now split.
Qed.

Lemma set_normalizedTo_falsy (s : AreaSeries) (v : option num) :
  match v with Some n => truthy n = false | None => True end ->
  _normalizedTo (set_normalizedTo s v) = None.
Proof.
  intros Hv. unfold set_normalizedTo.
  assert (E : match v with Some n => if truthy n then Some (abs n) else None | None => None end = None).
  { destruct v as [n|]; [now rewrite Hv | reflexivity]. }
  rewrite E. destruct (_normalizedTo s) eqn:Hu; simpl; [reflexivity | exact Hu].
Qed.

(** *** The domain extent *)

Lemma findLargestMinMax_min (totals : list MinMax) : forall acc,
  min (fold_left
         (fun acc total =>
            {| min := if lt (min total) (min acc) then min total else min acc;
               max := if gt (max total) (max acc) then max total else max acc |})
         totals acc)
  = fold_left least_step (map min totals) (min acc).
Proof. induction totals as [|t totals IH]; intros acc; simpl; [reflexivity|]. now rewrite IH. Qed.

Lemma findLargestMinMax_max (totals : list MinMax) : forall acc,
  max (fold_left
         (fun acc total =>
            {| min := if lt (min total) (min acc) then min total else min acc;
               max := if gt (max total) (max acc) then max total else max acc |})
         totals acc)
  = fold_left greatest_step (map max totals) (max acc).
Proof. induction totals as [|t totals IH]; intros acc; simpl; [reflexivity|]. now rewrite IH. Qed.

Lemma findLargestMinMax_least (totals : list MinMax) :
  leastWithZero (map min totals) (min (findLargestMinMax totals)).
Proof.
  unfold findLargestMinMax. rewrite findLargestMinMax_min. simpl.
  destruct (fold_least (map min totals) zero eq_refl) as (H1 & H2 & H3 & _).
  repeat split; assumption.
Qed.

Lemma findLargestMinMax_greatest (totals : list MinMax) :
  greatestWithZero (map max totals) (max (findLargestMinMax totals)).
Proof.
  unfold findLargestMinMax. rewrite findLargestMinMax_max. simpl.
  destruct (fold_greatest (map max totals) zero eq_refl) as (H1 & H2 & H3 & _).
  repeat split; assumption.
Qed.

(** Every entry of [yData] is finite before normalization. *)
Lemma yRow_finite yKeys itemEnabled datum :
  Forall (fun v => isFinite v = true) (yRow yKeys itemEnabled datum).
Proof.
  unfold yRow. apply Forall_forall. intros v Hv.
  apply in_map_iff in Hv. destruct Hv as (k & <- & _).
  unfold finite_number. destruct (get datum k) as [[n|]|]; try reflexivity.
  destruct (isFinite n) eqn:E; [|reflexivity].
  destruct (enabled itemEnabled k); [assumption | reflexivity].
Qed.

Lemma rawYData_finite (s : AreaSeries) :
  Forall (Forall (fun v => isFinite v = true)) (rawYData s).
Proof.
  unfold rawYData. apply Forall_forall. intros r Hr.
  apply in_map_iff in Hr. destruct Hr as (d & <- & _). apply yRow_finite.
Qed.

Lemma findMinMax_finite_from (values : list num) : forall acc,
  Forall (fun v => isFinite v = true) values ->
  isFinite (min acc) = true -> isFinite (max acc) = true ->
  let r := fold_left
    (fun acc v =>
       if lt v zero
       then {| min := add (min acc) v; max := max acc |}
       else {| min := min acc; max := add (max acc) v |}) values acc in
  isFinite (min r) = true /\ isFinite (max r) = true.
Proof.
  induction values as [|v values IH]; intros acc Hall Hmin Hmax; simpl; [now split|].
  inversion Hall as [|? ? Hv Hrest]; subst.
  apply IH; [assumption| |]; destruct (lt v zero); simpl; try assumption;
    destruct v; try discriminate;
    [destruct (min acc)|destruct (max acc)]; try discriminate; reflexivity.
Qed.

Lemma findMinMax_finite (values : list num) :
  Forall (fun v => isFinite v = true) values ->
  isFinite (min (findMinMax values)) = true /\ isFinite (max (findMinMax values)) = true.
Proof. intros H. now apply findMinMax_finite_from. Qed.

Lemma leastWithZero_finite (l : list num) (lo : num) :
  Forall (fun v => isFinite v = true) l -> leastWithZero l lo -> isFinite lo = true.
Proof.
  intros Hall ([->|Hin] & _); [reflexivity|].
  rewrite Forall_forall in Hall. now apply Hall.
Qed.

Lemma greatestWithZero_finite (l : list num) (hi : num) :
  Forall (fun v => isFinite v = true) l -> greatestWithZero l hi -> isFinite hi = true.
Proof.
  intros Hall ([->|Hin] & _); [reflexivity|].
  rewrite Forall_forall in Hall. now apply Hall.
Qed.

Lemma totals_finite (s : AreaSeries) :
  Forall (fun v => isFinite v = true) (map min (map findMinMax (rawYData s)))
  /\ Forall (fun v => isFinite v = true) (map max (map findMinMax (rawYData s))).
Proof.
  pose proof (rawYData_finite s) as H. rewrite Forall_forall in H.
  split; apply Forall_forall; intros v Hv;
    apply in_map_iff in Hv; destruct Hv as (mm & <- & Hmm);
    apply in_map_iff in Hmm; destruct Hmm as (r & <- & Hr);
    now apply findMinMax_finite, H.
Qed.

(** The widened pair is a proper interval. *)
Lemma widened_proper (lo hi : Q) :
  lt zero (Fin lo) = false -> gt zero (Fin hi) = false ->
  exists hi', (if strict_eq (Fin lo) zero && strict_eq (Fin hi) zero then Fin 1 else Fin hi)
              = Fin hi' /\ (lo < hi')%Q.
Proof.
  intros Hlo Hhi. apply lt_Fin_false in Hlo. unfold gt in Hhi. apply lt_Fin_false in Hhi.
  simpl. destruct (Qeq_bool lo 0) eqn:E1; simpl.
  - apply Qeq_bool_iff in E1. destruct (Qeq_bool hi 0) eqn:E2.
    + exists 1%Q. split; [reflexivity | lra].
    + exists hi. split; [reflexivity|].
      apply Qeq_bool_neq in E2. lra.
  - exists hi. split; [reflexivity|]. apply Qeq_bool_neq in E1. lra.
Qed.

(** Claim C5. Without normalization, and with value fields that are
    numbers or missing, the domain extent that [processData] stores is the
    pair of the least of zero and the rows' minima and the greatest of zero
    and the rows' maxima, with the maximum set to 1 when both are zero; for
    the rows Jan [a: 5, b: -3] and Feb [a: 10, b: -15] it is [-15, 10]. The
    inherited [fixNumericExtent] is any function that leaves a proper finite
    interval as it is. *)
Theorem processData_extent :
  forall (fix_ : num * num -> num * num),
    (forall a b : Q, (a < b)%Q -> fix_ (Fin a, Fin b) = (Fin a, Fin b)) ->
    (forall s, numberFields s = true -> normalizing (_normalizedTo s) = None ->
       exists lo hi,
         leastWithZero (map min (map findMinMax (rawYData s))) lo
         /\ greatestWithZero (map max (map findMinMax (rawYData s))) hi
         /\ yDomain (fst (processData fix_ s)) =
              [lo; if strict_eq lo zero && strict_eq hi zero then Fin 1 else hi])
    /\ yDomain (fst (processData fix_ janFeb)) = [Fin (-15); Fin 10].
Proof.
  intros fix_ Hfix. split.
  - intros s _ Hnone.
    pose proof (findLargestMinMax_least (map findMinMax (rawYData s))) as Hlo.
    pose proof (findLargestMinMax_greatest (map findMinMax (rawYData s))) as Hhi.
    destruct (totals_finite s) as [Fmin Fmax].
    pose proof (leastWithZero_finite Fmin Hlo) as Flo.
    pose proof (greatestWithZero_finite Fmax Hhi) as Fhi.
    exists (min (findLargestMinMax (map findMinMax (rawYData s)))),
           (max (findLargestMinMax (map findMinMax (rawYData s)))).
    split; [assumption|]. split; [assumption|].
    unfold processData. rewrite Hnone.
    destruct (min (findLargestMinMax (map findMinMax (rawYData s)))) as [lo| | |] eqn:Elo;
      try discriminate.
    destruct (max (findLargestMinMax (map findMinMax (rawYData s)))) as [hi| | |] eqn:Ehi;
      try discriminate.
    destruct Hlo as (_ & Hlo & _). destruct Hhi as (_ & Hhi & _).
    destruct (widened_proper lo hi Hlo Hhi) as (hi' & -> & Hlt).
    now rewrite (Hfix lo hi' Hlt).
  - vm_compute. rewrite (Hfix (-15)%Q 10%Q); reflexivity.
Qed.

(** The extent of [janFeb], with an extent fixer that changes nothing. *)
Lemma processData_extent_witness :
  yDomain (fst (processData keepExtent janFeb)) = [Fin (-15); Fin 10].
Proof.
  exact (proj2 (@processData_extent keepExtent (fun a b _ => eq_refl))).
Defined.

(** *** Normalization *)

Lemma findMinMax_sums (qs : list Q) : forall a b,
  exists a' b',
    fold_left
      (fun acc v =>
         if lt v zero
         then {| min := add (min acc) v; max := max acc |}
         else {| min := min acc; max := add (max acc) v |})
      (map Fin qs) {| min := Fin a; max := Fin b |}
    = {| min := Fin a'; max := Fin b' |}
    /\ (a' == a + sumNeg qs)%Q /\ (b' == b + sumPos qs)%Q.
Proof.
  induction qs as [|q qs IH]; intros a b; cbn [map fold_left].
  - exists a, b. repeat split; simpl; lra.
  - rewrite lt_zero_negativeQ. cbn [sumNeg sumPos].
    destruct (negativeQ q); cbn [min max add].
    + destruct (IH (a + q)%Q b) as (a' & b' & -> & Ha & Hb).
      exists a', b'. repeat split; lra.
    + destruct (IH a (b + q)%Q) as (a' & b' & -> & Ha & Hb).
      exists a', b'. repeat split; lra.
Qed.

Lemma neg_lt_zero (q : Q) : (q < 0)%Q -> lt (Fin q) zero = true.
Proof. intros H. now apply lt_Fin. Qed.

Lemma nonneg_lt_zero (q : Q) : (0 <= q)%Q -> lt (Fin q) zero = false.
Proof. intros H. now apply lt_Fin_false. Qed.

Lemma pos_gt_zero (q : Q) : (0 < q)%Q -> gt (Fin q) zero = true.
Proof. intros H. now apply lt_Fin. Qed.

Lemma nonpos_gt_zero (q : Q) : (q <= 0)%Q -> gt (Fin q) zero = false.
Proof. intros H. now apply lt_Fin_false. Qed.

Lemma normalizeStack_scaled (mn mx t : Q) (qs : list Q) :
  normalizeStack {| min := Fin mn; max := Fin mx |} (Fin t) (map Fin qs)
  = map (scaled mn mx t) qs.
Proof. unfold normalizeStack. rewrite map_map. reflexivity. Qed.

Lemma Qeq_bool_false_of_neq (a : Q) : ~ (a == 0)%Q -> Qeq_bool a 0 = false.
Proof.
  intros H. destruct (Qeq_bool a 0) eqn:E; [|reflexivity].
  apply Qeq_bool_iff in E. contradiction.
Qed.

Lemma scaled_negative (mn mx t q : Q) :
  (0 < t)%Q -> (q < 0)%Q -> (mn < 0)%Q ->
  scaled mn mx t q = Fin (- q / mn * t) /\ (- q / mn * t < 0)%Q.
Proof.
  intros Ht Hq Hmn. unfold scaled.
  rewrite lt_zero_negativeQ. rewrite (proj2 (negativeQ_true q) Hq). simpl.
  rewrite Qeq_bool_false_of_neq by lra. split; [reflexivity|].
  apply Qmult_neg_pos; [|assumption]. apply Qdiv_pos_neg; lra.
Qed.

Lemma scaled_positive (mn mx t q : Q) :
  (0 < t)%Q -> (0 < q)%Q -> (0 < mx)%Q ->
  scaled mn mx t q = Fin (q / mx * t) /\ (0 < q / mx * t)%Q.
Proof.
  intros Ht Hq Hmx. unfold scaled.
  rewrite lt_zero_negativeQ. rewrite (proj2 (negativeQ_false q)) by lra. simpl.
  rewrite Qeq_bool_false_of_neq by lra. split; [reflexivity|].
  apply Qmult_pos_pos; [|assumption]. now apply Qdiv_pos_pos.
Qed.

Lemma scaled_zero (mn mx t q : Q) :
  (q == 0)%Q ->
  scaled mn mx t q = NaN \/ exists e, scaled mn mx t q = Fin e /\ (e == 0)%Q.
Proof.
  intros Hq. unfold scaled.
  rewrite lt_zero_negativeQ. rewrite (proj2 (negativeQ_false q)) by lra. simpl.
  destruct (Qeq_bool mx 0) eqn:E.
  - left. destruct (Qcompare_spec q 0); try lra. reflexivity.
  - right. exists (q / mx * t)%Q. split; [reflexivity|].
    rewrite Hq. unfold Qdiv. ring.
Qed.

Lemma nth_error_mapi_from (A B : Type) (f : A -> nat -> B) (l : list A) : forall k i,
  nth_error (mapi_from f k l) i = option_map (fun x => f x (k + i)) (nth_error l i).
Proof.
  induction l as [|x l IH]; intros k [|i]; simpl; try reflexivity.
  - now rewrite Nat.add_0_r.
  - rewrite IH. now rewrite Nat.add_succ_r.
Qed.

Lemma normalizeData_nth (T : num) (ys : list (list num)) (i : nat) (stack : list num) :
  nth_error ys i = Some stack ->
  nth_error (normalizeData (map findMinMax ys) T ys) i
  = Some (normalizeStack (findMinMax stack) T stack).
Proof.
  intros H. unfold normalizeData, mapi. rewrite nth_error_mapi_from, H. simpl.
  f_equal. f_equal.
  rewrite (nth_indep _ _ (findMinMax [])).
  - rewrite map_nth. f_equal. now apply nth_error_nth.
  - rewrite length_map. apply nth_error_Some. congruence.
Qed.

Lemma processData_yData_normalized fix_ (s : AreaSeries) (T : num) :
  normalizing (_normalizedTo s) = Some T ->
  yData (fst (processData fix_ s))
  = normalizeData (map findMinMax (rawYData s)) T (rawYData s).
Proof.
  intros H. unfold processData. rewrite H.
  destruct (fix_ _) as [lo hi]. reflexivity.
Qed.

Lemma processData_yData_raw fix_ (s : AreaSeries) :
  normalizing (_normalizedTo s) = None ->
  yData (fst (processData fix_ s)) = rawYData s.
Proof.
  intros H. unfold processData. rewrite H.
  destruct (fix_ _) as [lo hi]. reflexivity.
Qed.

Lemma set_normalizedTo_rawYData (s : AreaSeries) v :
  rawYData (set_normalizedTo s v) = rawYData s.
Proof. unfold set_normalizedTo. destruct (differs _ _); reflexivity. Qed.

(** The target a finite, non-zero assignment leaves in force. *)
Lemma set_normalizedTo_target (s : AreaSeries) (qv : Q) :
  truthy (Fin qv) = true ->
  exists t, normalizing (_normalizedTo (set_normalizedTo s (Some (Fin qv)))) = Some (Fin t)
            /\ (t == Qabs qv)%Q /\ (0 < t)%Q.
Proof.
  intros Hv.
  destruct (@set_normalizedTo_truthy s (Fin qv) Hv) as (w & Hw & Heq).
  destruct w as [t| | |]; try discriminate.
  simpl in Heq. apply Qeq_bool_iff in Heq.
  assert (Hpos : (0 < Qabs qv)%Q).
  { simpl in Hv. apply negb_true_iff in Hv. apply Qeq_bool_neq in Hv.
    pose proof (Qabs_nonneg qv).
    destruct (Qeq_dec (Qabs qv) 0) as [E|E]; [|lra].
    exfalso. apply Hv. revert E. apply Qabs_case; intros; lra. }
  exists t. rewrite Hw. repeat split; [|assumption|lra].
  unfold normalizing. simpl. rewrite Qeq_bool_false_of_neq by lra. reflexivity.
Qed.

Lemma findMinMax_of_finite (qs : list Q) :
  exists mn mx,
    findMinMax (map Fin qs) = {| min := Fin mn; max := Fin mx |}
    /\ (mn == sumNeg qs)%Q /\ (mx == sumPos qs)%Q.
Proof.
  destruct (findMinMax_sums qs 0 0) as (mn & mx & E & Hmn & Hmx).
  exists mn, mx. split; [exact E|]. split; lra.
Qed.

(** *** The polygons of generateSelectionData *)

Section Polygons.
Variable toFixed2 : num -> string.
Variable String_of_num : num -> string.

Lemma eachValue_area (s : AreaSeries) yScale yOffset last i seriesDatum xv st curr j st' :
  eachValue toFixed2 String_of_num s yScale yOffset last i seriesDatum xv st curr j
  = Returned st' ->
  exists pts0 iid p q,
    match array_get (areaSelectionData (built st)) j with
    | Some d => pts0 = points d
    | None => pts0 = []
    end
    /\ point_x p = xv /\ point_x q = xv
    /\ areaSelectionData (built st')
       = array_set (areaSelectionData (built st)) j
           {| itemId := iid; points := array_set (array_set pts0 i p) (last - i) q |}.
Proof.
  unfold eachValue. destruct seriesDatum as [datum|]; [|discriminate].
  intros H. inversion H; subst; clear H. simpl.
  destruct (array_get (areaSelectionData (built st)) j) as [d|];
    do 4 eexists; (split; [reflexivity|]); (split; [|split]); try reflexivity; reflexivity.
Qed.

Variable s : AreaSeries.
Variables n m : nat.
Hypothesis Hn : n = List.length (xData s).
Hypothesis Hrect : Forall (fun r : list num => List.length r = m) (yData s).

Lemma closedAt_set (k : nat) (pts0 : list (option Point)) (iid : option string) (p q : Point) :
  k < n -> point_x p = point_x q ->
  (pts0 = [] /\ k = 0 \/ List.length pts0 = 2 * n) ->
  let d' := {| itemId := iid; points := array_set (array_set pts0 k p) (n * 2 - 1 - k) q |} in
  List.length (points d') = 2 * n
  /\ closedAt n d' k
  /\ forall i, i < k -> closedAt n {| itemId := iid; points := pts0 |} i -> closedAt n d' i.
Proof.
  intros Hk Hx Hlen d'. unfold d', closedAt. cbn [points].
  replace (n * 2 - 1 - k) with (2 * n - 1 - k) by lia.
  assert (Hl1 : List.length (array_set (array_set pts0 k p) (2 * n - 1 - k) q) = 2 * n).
  { rewrite !length_array_set. destruct Hlen as [[-> ->] | ->]; cbn [List.length]; lia. }
  split; [exact Hl1|]. split.
  - exists p, q. split; [|split; [|exact Hx]].
    + rewrite nth_error_array_set_other; [apply nth_error_array_set_same| |lia].
      rewrite length_array_set. lia.
    + apply nth_error_array_set_same.
  - intros i Hi (p0 & q0 & Hp0 & Hq0 & Hx0).
    assert (Hlen0 : List.length pts0 = 2 * n).
    { destruct Hlen as [[-> ->] | H]; [lia|exact H]. }
    exists p0, q0. split; [|split; [|exact Hx0]].
    + rewrite !nth_error_array_set_other; try assumption; try lia.
      rewrite length_array_set. lia.
    + rewrite !nth_error_array_set_other; try assumption; try lia.
      rewrite length_array_set. lia.
Qed.

Lemma closedAt_points (d : AreaSelectionDatum) (iid : option string) (i : nat) :
  closedAt n d i -> closedAt n {| itemId := iid; points := points d |} i.
Proof. intros H. exact H. Qed.

Lemma eachValue_step yScale yOffset k seriesDatum xv st curr j st' :
  k < n -> j < m ->
  valuesDone n m k j (areaSelectionData (built st)) ->
  eachValue toFixed2 String_of_num s yScale yOffset (n * 2 - 1) k seriesDatum xv st curr j
  = Returned st' ->
  valuesDone n m k (Datatypes.S j) (areaSelectionData (built st')).
Proof.
  intros Hk Hj (Hdone & Hfirst & Hlater) Hrun.
  destruct (@eachValue_area _ _ _ _ _ _ _ _ _ _ _ Hrun) as (pts0 & iid & p & q & Hpts & Hp & Hq & ->).
  assert (Hx : point_x p = point_x q) by congruence.
  destruct (Nat.eq_dec k 0) as [Hk0|Hk0].
  - pose proof (Hfirst Hk0) as Hlen.
    rewrite array_get_past in Hpts by lia. subst pts0.
    destruct (@closedAt_set k [] iid p q Hk Hx (or_introl (conj eq_refl Hk0)))
      as (Hl & Hc & _).
    split; [|split].
    + intros j' Hj'. destruct (Nat.eq_dec j' j) as [->|Hne].
      * eexists. split; [apply nth_error_array_set_same|]. split; [exact Hl|].
        intros i Hi. replace i with k by lia. exact Hc.
      * rewrite nth_error_array_set_other by lia. apply Hdone. lia.
    + intros _. rewrite length_array_set. lia.
    + intros Hpos. lia.
  - destruct (Hlater ltac:(lia)) as (Hlen & Hrest).
    destruct (Hrest j (Nat.le_refl j) Hj) as (d & Hd & Hdl & Hdc).
    unfold array_get in Hpts. rewrite Hd in Hpts. subst pts0.
    destruct (@closedAt_set k (points d) iid p q Hk Hx (or_intror Hdl)) as (Hl & Hc & Hold).
    split; [|split].
    + intros j' Hj'. destruct (Nat.eq_dec j' j) as [->|Hne].
      * eexists. split; [apply nth_error_array_set_same|]. split; [exact Hl|].
        intros i Hi. destruct (Nat.eq_dec i k) as [->|Hik]; [exact Hc|].
        apply Hold; [lia|]. apply closedAt_points. apply Hdc. lia.
      * rewrite nth_error_array_set_other by lia. apply Hdone. lia.
    + intros Hz. lia.
    + intros _. split; [rewrite length_array_set; lia|].
      intros j' Hle Hlt. rewrite nth_error_array_set_other by lia. apply Hrest; lia.
Qed.

Lemma eachRow_step rows xScale yScale xOffset yOffset acc xDatum k acc' :
  k < n ->
  rowsDone n m k (areaSelectionData acc) ->
  eachRow toFixed2 String_of_num s rows xScale yScale xOffset yOffset (n * 2 - 1) acc xDatum k
  = Returned acc' ->
  rowsDone n m (Datatypes.S k) (areaSelectionData acc').
Proof.
  intros Hk Hdone Hrun. unfold eachRow in Hrun.
  destruct (nth_error (yData s) k) as [yDatum|] eqn:Ey; [|discriminate].
  assert (Hlen : List.length yDatum = m).
  { rewrite Forall_forall in Hrect. apply Hrect. eapply nth_error_In; eauto. }
  match type of Hrun with
  | bind (forEachM ?f _ ?st0) _ = _ =>
      destruct (forEachM f yDatum st0) as [st| |] eqn:E; simpl in Hrun; try discriminate
  end.
  inversion Hrun; subst acc'; clear Hrun.
  assert (Hfinal : valuesDone n m k m (areaSelectionData (built st))).
  { unfold forEachM in E.
    refine (@forEachM_from_inv _ _ _
              (fun j st => valuesDone n m k j (areaSelectionData (built st)))
              m _ yDatum 0 _ _ _ _ E).
    - intros st1 x j st2 Hj HP Hstep. eapply eachValue_step; eauto.
    - simpl. exact Hlen.
    - simpl. split; [|split].
      + intros j' Hj'. lia.
      + intros Hk0. destruct Hdone as [[_ ->]|[Hpos _]]; [reflexivity|lia].
      + intros Hpos. destruct Hdone as [[Hz _]|(_ & Hl & Hall)]; [lia|].
        split; [exact Hl|]. intros j' _ Hj'. apply Hall. exact Hj'. }
  destruct Hfinal as (Hall & Hfirst & Hlater).
  right. split; [lia|]. split.
  - destruct (Nat.eq_dec k 0) as [Hk0|Hk0]; [now apply Hfirst|].
    apply Hlater. lia.
  - exact Hall.
Qed.

Lemma generateSelectionData_closed (sel : SelectionData) :
  generateSelectionData toFixed2 String_of_num s = Returned (Some sel) ->
  forall j d,
    nth_error (areaSelectionData sel) j = Some (Some d) ->
    List.length (points d) = 2 * n /\ forall i, i < n -> closedAt n d i.
Proof.
  unfold generateSelectionData. rewrite <- Hn.
  destruct (data s) as [rows|]; [|discriminate].
  destruct (xAxis s) as [xScale|]; [|discriminate].
  destruct (yAxis s) as [yScale|]; [|discriminate].
  match goal with
  | |- bind (forEachM ?f _ ?a0) _ = _ -> _ =>
      destruct (forEachM f (xData s) a0) as [acc| |] eqn:E; simpl; try discriminate
  end.
  intros H. inversion H; subst acc; clear H.
  assert (Hfinal : rowsDone n m n (areaSelectionData sel)).
  { unfold forEachM in E.
    refine (@forEachM_from_inv _ _ _
              (fun k acc => rowsDone n m k (areaSelectionData acc))
              n _ (xData s) 0 _ _ _ _ E).
    - intros a1 x k a2 Hk HP Hstep. eapply eachRow_step; eauto.
    - simpl. now rewrite Hn.
    - left. now split. }
  intros j d Hd.
  destruct Hfinal as [[_ Hnil]|(Hpos & Hlen & Hall)].
  - rewrite Hnil in Hd. destruct j; discriminate.
  - assert (Hj : j < m).
    { rewrite <- Hlen. apply nth_error_Some. congruence. }
    destruct (Hall j Hj) as (d' & Hd' & Hl & Hc).
    assert (d' = d) by congruence. subst d'. now split.
Qed.

End Polygons.

Lemma Forall_mapi_from (A B : Type) (f : A -> nat -> B) (P : A -> Prop) (Q : B -> Prop) :
  (forall x i, P x -> Q (f x i)) ->
  forall l k, Forall P l -> Forall Q (mapi_from f k l).
Proof.
  intros Hf. induction l as [|x l IH]; intros k Hl; simpl; constructor;
    inversion Hl; subst; auto.
Qed.

Lemma length_mapi_from (A B : Type) (f : A -> nat -> B) (l : list A) : forall k,
  List.length (mapi_from f k l) = List.length l.
Proof. induction l as [|x l IH]; intros k; simpl; [reflexivity|]. now rewrite IH. Qed.

Lemma rawYData_rectangular (s : AreaSeries) :
  Forall (fun r : list num => List.length r = List.length (_yKeys s)) (rawYData s).
Proof.
  unfold rawYData. apply Forall_forall. intros r Hr.
  apply in_map_iff in Hr. destruct Hr as (d & <- & _).
  unfold yRow. apply length_map.
Qed.

Lemma processData_fields fix_ (s : AreaSeries) :
  let s' := fst (processData fix_ s) in
  data s' = data s /\ xAxis s' = xAxis s /\ yAxis s' = yAxis s
  /\ xData s' = map (fun datum => get datum (_xKey s)) (processedRows s)
  /\ List.length (yData s') = List.length (processedRows s)
  /\ Forall (fun r : list num => List.length r = List.length (_yKeys s)) (yData s').
Proof.
  unfold processData.
  destruct (normalizing (_normalizedTo s)) as [T|];
    destruct (fix_ _) as [lo hi]; simpl; repeat split.
  - unfold normalizeData, mapi. rewrite length_mapi_from. unfold rawYData. apply length_map.
  - unfold normalizeData, mapi.
    apply Forall_mapi_from with (P := fun r : list num => List.length r = List.length (_yKeys s)).
    + intros x i Hx. unfold normalizeStack. now rewrite length_map.
    + apply rawYData_rectangular.
  - unfold rawYData. apply length_map.
  - apply rawYData_rectangular.
Qed.

Lemma forEachM_from_returns (A S : Type) (f : S -> A -> nat -> outcome S) (N : nat) :
  (forall s x j, j < N -> exists s', f s x j = Returned s') ->
  forall l k s, k + List.length l = N -> exists s', forEachM_from f k l s = Returned s'.
Proof.
  intros Hf. induction l as [|x l IH]; intros k s Hlen; simpl in *.
  - now exists s.
  - destruct (Hf s x k ltac:(lia)) as (s1 & ->). simpl. apply IH. lia.
Qed.

Lemma processedRows_data (s : AreaSeries) :
  processedRows s = [] \/ data s = Some (processedRows s).
Proof.
  unfold processedRows. destruct (data s) as [rows|]; [|now left].
  destruct (_ && _); [now right | now left].
Qed.

Lemma generateSelectionData_returns toFixed2 String_of_num fix_ (s : AreaSeries) :
  data s <> None -> xAxis s <> None -> yAxis s <> None ->
  exists sel,
    generateSelectionData toFixed2 String_of_num (fst (processData fix_ s))
    = Returned (Some sel).
Proof.
  intros Hd Hx Hy.
  destruct (processData_fields fix_ s) as (Ed & Ex & Ey & Exs & Elen & _).
  unfold generateSelectionData. rewrite Ed, Ex, Ey.
  destruct (data s) as [rows|] eqn:Erows; [|congruence].
  destruct (xAxis s) as [xScale|]; [|congruence].
  destruct (yAxis s) as [yScale|]; [|congruence].
  match goal with
  | |- exists sel, bind (forEachM ?f ?l ?a0) _ = _ =>
      assert (Hrun : exists acc, forEachM f l a0 = Returned acc)
  end.
  { unfold forEachM.
    apply forEachM_from_returns with (N := List.length (xData (fst (processData fix_ s))));
      [|reflexivity].
    intros acc x i Hi. unfold eachRow.
    rewrite Exs, length_map in Hi.
    destruct (nth_error (yData (fst (processData fix_ s))) i) as [yDatum|] eqn:Ey';
      [|apply nth_error_None in Ey'; lia].
    assert (Hrow : exists datum, nth_error rows i = Some datum).
    { destruct (processedRows_data s) as [E|E].
      - rewrite E in Hi. simpl in Hi. lia.
      - assert (rows = processedRows s) by congruence. subst rows.
        destruct (nth_error (processedRows s) i) eqn:En; [eauto|].
        apply nth_error_None in En. lia. }
    destruct Hrow as (datum & ->).
    match goal with
    | |- exists s', bind (forEachM ?g ?l ?st0) _ = _ =>
        assert (Hin : exists st, forEachM g l st0 = Returned st)
    end.
    { unfold forEachM. apply forEachM_from_returns with (N := List.length yDatum);
        [|reflexivity].
      intros st c j _. unfold eachValue. eauto. }
    destruct Hin as (st & ->). simpl. eauto. }
  destruct Hrun as (acc & ->). simpl. eauto.
Qed.

(** Claim C6. On processed data [generateSelectionData] returns when the
    data and both axes are there and the value fields are numbers or
    missing, and every polygon it returns over [n] rows has [2 * n] points,
    the points at [i] and [2 * n - 1 - i] sharing their x coordinate for
    every row [i]. *)
Theorem generateSelectionData_polygons :
  forall (toFixed2 String_of_num : num -> string) (fix_ : num * num -> num * num)
         (s0 : AreaSeries),
    let s := fst (processData fix_ s0) in
    let n := List.length (xData s) in
    (data s0 <> None -> xAxis s0 <> None -> yAxis s0 <> None ->
     numberFields s0 = true ->
     exists sel, generateSelectionData toFixed2 String_of_num s = Returned (Some sel))
    /\ forall sel,
         generateSelectionData toFixed2 String_of_num s = Returned (Some sel) ->
         forall j d,
           nth_error (areaSelectionData sel) j = Some (Some d) ->
           List.length (points d) = 2 * n
           /\ forall i, i < n ->
                exists p q,
                  nth_error (points d) i = Some (Some p)
                  /\ nth_error (points d) (2 * n - 1 - i) = Some (Some q)
                  /\ point_x p = point_x q.
Proof.
  intros toFixed2 String_of_num fix_ s0 s n. split.
  - intros Hd Hx Hy _. now apply generateSelectionData_returns.
  - intros sel Hsel j d Hd.
    destruct (processData_fields fix_ s0) as (_ & _ & _ & _ & _ & Hrect).
    exact (@generateSelectionData_closed toFixed2 String_of_num s n _ eq_refl Hrect sel Hsel j d Hd).
Qed.

(** The polygon of the value key b of [janFeb] in a chart. *)
Lemma generateSelectionData_polygons_witness :
  exists sel d,
    generateSelectionData plainText plainText (fst (processData keepExtent janFebCharted))
    = Returned (Some sel)
    /\ nth_error (areaSelectionData sel) 1 = Some (Some d)
    /\ List.length (points d) = 4
    /\ exists p q,
         nth_error (points d) 1 = Some (Some p)
         /\ nth_error (points d) 2 = Some (Some q)
         /\ point_x p = point_x q.
Proof.
  destruct (@generateSelectionData_polygons plainText plainText keepExtent janFebCharted)
    as [Hret Hclosed].
  destruct Hret as (sel & Hsel); try discriminate; [reflexivity|].
  destruct (nth_error (areaSelectionData sel) 1) as [[d|]|] eqn:Ed.
  - exists sel, d. split; [exact Hsel|]. split; [exact Ed|].
    destruct (Hclosed sel Hsel 1 d Ed) as [Hlen Hall].
    split; [exact Hlen|]. apply (Hall 1). repeat constructor.
  - exfalso. revert Ed. generalize Hsel. vm_compute. intros H; inversion H; subst.
    discriminate.
  - exfalso. revert Ed. generalize Hsel. vm_compute. intros H; inversion H; subst.
    discriminate.
Defined.

(** *** Division by zero *)

(** A zero divisor meets only a zero entry, and their quotient is [NaN]. *)
Lemma zero_divisor (qs : list Q) (mn mx t q : Q) :
  findMinMax (map Fin qs) = {| min := Fin mn; max := Fin mx |} ->
  In q qs ->
  ((q < 0)%Q -> ~ (mn == 0)%Q)
  /\ ((0 <= q)%Q -> (mx == 0)%Q -> (q == 0)%Q /\ scaled mn mx t q = NaN).
Proof.
  intros Hmm Hq.
  destruct (findMinMax_of_finite qs) as (mn' & mx' & E & Hmn & Hmx).
  rewrite E in Hmm. inversion Hmm; subst mn' mx'.
  destruct (sumNeg_bounds qs) as [_ Hn]. destruct (sumPos_bounds qs) as [_ Hp].
  split.
  - intros Hlt. specialize (Hn q Hq Hlt). lra.
  - intros Hge Hz.
    assert (Hq0 : (q == 0)%Q).
    { destruct (Qlt_le_dec 0 q) as [Hgt|Hle]; [|lra]. specialize (Hp q Hq Hgt). lra. }
    split; [exact Hq0|]. unfold scaled.
    rewrite nonneg_lt_zero by lra. simpl.
    rewrite (proj2 (Qeq_bool_iff mx 0) Hz).
    destruct (Qcompare_spec q 0); try lra. reflexivity.
Qed.

(** Claim C1, where the code breaks it. The row [a: 0, b: -1] has a
    non-zero entry; under the target 10 its entries become [NaN] and -10,
    so the entry that was zero is no number any more and the row does not
    keep the sign of every entry. In general, whenever a row of numbers has
    no positive entry, each of its zero entries is rescaled to [NaN]. *)
Theorem normalization_loses_zero_entries :
  (rawYData zeroMinusOne = [[Fin 0; Fin (-1)]]
   /\ yData (fst (processData keepExtent (set_normalizedTo zeroMinusOne (Some (Fin 10)))))
      = [[NaN; Fin (-10)]]
   /\ ~ Forall2 keepsSign [Fin 0; Fin (-1)] [NaN; Fin (-10)])
  /\ forall (fix_ : num * num -> num * num) (s0 : AreaSeries) (v : num)
            (i j : nat) (raw : list num) (y : num),
       numberFields s0 = true ->
       truthy v = true -> isFinite v = true ->
       nth_error (rawYData s0) i = Some raw ->
       nth_error raw j = Some y ->
       strict_eq y zero = true ->
       (forall y', In y' raw -> gt y' zero = false) ->
       exists scaledRow,
         nth_error (yData (fst (processData fix_ (set_normalizedTo s0 (Some v))))) i
         = Some scaledRow
         /\ nth_error scaledRow j = Some NaN.
Proof.
  split.
  - split; [reflexivity|]. split; [reflexivity|].
    intros H. inversion H as [|a b l l' Hab _]; subst.
    destruct Hab as [[Ha _] | [[Ha _] | [_ Hb]]]; discriminate.
  - intros fix_ s0 v i j raw y _ Hv Hfin Hraw Hy Hzero Hnopos.
    destruct v as [qv| | |]; try discriminate.
    destruct (@set_normalizedTo_target s0 qv Hv) as (t & Hnorm & _ & _).
    rewrite (processData_yData_normalized fix_ _ Hnorm).
    rewrite set_normalizedTo_rawYData.
    rewrite (normalizeData_nth (Fin t) _ _ Hraw).
    pose proof (rawYData_finite s0) as Hall. rewrite Forall_forall in Hall.
    destruct (finite_list (Hall raw (nth_error_In _ _ Hraw))) as (qs & ->).
    destruct (findMinMax_of_finite qs) as (mn & mx & E & Hmn & Hmx).
    rewrite E, normalizeStack_scaled.
    eexists. split; [reflexivity|].
    rewrite nth_error_map in Hy. rewrite nth_error_map.
    destruct (nth_error qs j) as [q|] eqn:Eq; [|discriminate].
    injection Hy as <-. cbn [option_map]. f_equal.
    assert (Hq0 : (q == 0)%Q) by (simpl in Hzero; now apply Qeq_bool_iff in Hzero).
    assert (Hmx0 : (mx == 0)%Q).
    { rewrite Hmx. apply sumPos_none. intros q' Hq'.
      specialize (Hnopos (Fin q') (in_map Fin _ _ Hq')).
      destruct (Qlt_le_dec 0 q') as [Hgt|Hle]; [|exact Hle].
      rewrite (pos_gt_zero Hgt) in Hnopos. discriminate. }
    destruct (@zero_divisor qs mn mx t q E (nth_error_In _ _ Eq)) as (_ & H).
    apply H; lra.
Qed.

(** Claim C2, at the rows [a: 0, b: 0] and [a: 0, b: -1] with the target
    10: the row's maximum is 0, the entry 0 is divided by it, and the
    rescaled entry is [NaN], where the claim has 0. In general a divisor that
    is zero meets only an entry that is zero, and the entry is rescaled to
    [NaN]. *)
Theorem normalization_zero_over_zero :
  (rawYData allZero = [[Fin 0; Fin 0]]
   /\ yData (fst (processData keepExtent (set_normalizedTo allZero (Some (Fin 10)))))
      = [[NaN; NaN]])
  /\ (rawYData zeroMinusOne = [[Fin 0; Fin (-1)]]
      /\ map findMinMax (rawYData zeroMinusOne) = [{| min := Fin (-1); max := Fin 0 |}]
      /\ yData (fst (processData keepExtent (set_normalizedTo zeroMinusOne (Some (Fin 10)))))
         = [[NaN; Fin (-10)]])
  /\ forall (qs : list Q) (t : Q) (i : nat) (q : Q),
       nth_error qs i = Some q ->
       lt (Fin q) zero = false ->
       strict_eq (max (findMinMax (map Fin qs))) zero = true ->
       (q == 0)%Q
       /\ nth_error (normalizeStack (findMinMax (map Fin qs)) (Fin t) (map Fin qs)) i
          = Some NaN.
Proof.
  split; [split; vm_compute; reflexivity|].
  split; [repeat split; vm_compute; reflexivity|].
  intros qs t i q Hi Hge Hz.
  destruct (findMinMax_of_finite qs) as (mn & mx & E & _).
  rewrite E in Hz |- *. simpl in Hz. apply Qeq_bool_iff in Hz.
  apply lt_Fin_false in Hge.
  destruct (@zero_divisor qs mn mx t q E (nth_error_In _ _ Hi)) as [_ H].
  destruct (H Hge Hz) as [Hq0 Hs].
  split; [exact Hq0|].
  rewrite normalizeStack_scaled, nth_error_map, Hi. simpl. now rewrite Hs.
Qed.

(** *** update while the inputs are not ready *)

Lemma notReady_with_group_visible (s : AreaSeries) (b : bool) :
  notReady (with_group_visible s b) = notReady s.
Proof. reflexivity. Qed.

(** Claim C3, amended. When the inputs are not ready, [update] keeps the
    four selections and the marker data as they are; what it changes is the
    visibility of the series' group, which it sets to whether the series is
    visible and has data. *)
Theorem update_not_ready :
  forall (toFixed2 String_of_num : num -> string) (newPath : Path) (newMarker : Marker)
         (newText : Text) (s : AreaSeries),
    notReady s = true ->
    exists s',
      update toFixed2 String_of_num newPath newMarker newText s = Returned s'
      /\ s' = with_group_visible s (groupVisible s)
      /\ group_visible s' = groupVisible s
      /\ fillSelection s' = fillSelection s
      /\ strokeSelection s' = strokeSelection s
      /\ markerSelection s' = markerSelection s
      /\ labelSelection s' = labelSelection s
      /\ markerSelectionData s' = markerSelectionData s.
Proof.
  intros toFixed2 String_of_num newPath newMarker newText s Hs.
  exists (with_group_visible s (groupVisible s)).
  unfold update. rewrite notReady_with_group_visible, Hs.
  repeat split.
Qed.

(** The drawn series made invisible: its selections stay. *)
Lemma update_not_ready_witness :
  exists s',
    update plainText plainText blankPath blankMarker blankText drawnThenHidden = Returned s'
    /\ s' = with_group_visible drawnThenHidden (groupVisible drawnThenHidden)
    /\ group_visible s' = groupVisible drawnThenHidden
    /\ fillSelection s' = fillSelection drawnThenHidden
    /\ strokeSelection s' = strokeSelection drawnThenHidden
    /\ markerSelection s' = markerSelection drawnThenHidden
    /\ labelSelection s' = labelSelection drawnThenHidden
    /\ markerSelectionData s' = markerSelectionData drawnThenHidden.
Proof.
  exact (@update_not_ready plainText plainText blankPath blankMarker blankText
           drawnThenHidden eq_refl).
Defined.

(** Claim C3 as stated fails: a drawn series that is made invisible is
    not ready, its group is visible with two visible fill nodes, and [update]
    hides the group. *)
Lemma update_hides_retained_nodes :
  notReady drawnThenHidden = true
  /\ group_visible drawnThenHidden = true
  /\ map (fun node => path_visible (fst node)) (fillSelection drawnThenHidden) = [true; true]
  /\ exists s',
       update plainText plainText blankPath blankMarker blankText drawnThenHidden
       = Returned s'
       /\ group_visible s' = false.
Proof.
  split; [vm_compute; reflexivity|]. split; [vm_compute; reflexivity|].
  split; [vm_compute; reflexivity|].
  eexists. split; vm_compute; reflexivity.
Qed.

(** *** What processData returns *)

Lemma processedRows_no_keys (s : AreaSeries) :
  _xKey s = EmptyString \/ _yKeys s = [] -> processedRows s = [].
Proof.
  intros H. unfold processedRows. destruct (data s) as [rows|]; [|reflexivity].
  destruct H as [-> | ->]; simpl; [reflexivity|]. now rewrite andb_false_r.
Qed.

Lemma normalizing_truthy (n : option num) (T : num) :
  normalizing n = Some T -> strict_eq T zero = false.
Proof.
  unfold normalizing. destruct n as [m|]; [|discriminate].
  destruct (truthy m && isFinite m) eqn:E; [|discriminate].
  intros H. inversion H; subst. apply andb_true_iff in E. destruct E as [Ht Hf].
  destruct T; try discriminate. simpl in *. now apply negb_true_iff.
Qed.

(** Claim C4, amended. [processData] always returns [true], with [xData]
    and [yData] of one length and an extent of two numbers; with an empty
    category key or no value keys the data are processed as no rows: [xData]
    and [yData] are empty and the extent is that of [0, 1], or of
    [0, target] under normalization. *)
Theorem processData_always_succeeds :
  forall (fix_ : num * num -> num * num) (s : AreaSeries),
    let s' := fst (processData fix_ s) in
    snd (processData fix_ s) = true
    /\ List.length (yDomain s') = 2
    /\ List.length (xData s') = List.length (yData s')
    /\ (_xKey s = EmptyString \/ _yKeys s = [] ->
        xData s' = [] /\ yData s' = []
        /\ yDomain s'
           = let '(lo, hi) :=
               fix_ (zero, match normalizing (_normalizedTo s) with
                           | Some T => T
                           | None => Fin 1
                           end) in
             [lo; hi]).
Proof.
  intros fix_ s s'.
  destruct (processData_fields fix_ s) as (_ & _ & _ & Exs & Elen & _).
  repeat split.
  - unfold processData. destruct (normalizing _); destruct (fix_ _); reflexivity.
  - unfold s', processData. destruct (normalizing _); destruct (fix_ _); reflexivity.
  - unfold s'. now rewrite Exs, Elen, length_map.
  - unfold s'. rewrite Exs. now rewrite (processedRows_no_keys s H).
  - pose proof (processedRows_no_keys s H) as E. unfold s'.
    destruct (yData (fst (processData fix_ s))) eqn:Ey; [reflexivity|].
    rewrite E in Elen. discriminate.
  - pose proof (processedRows_no_keys s H) as E.
    unfold s', processData, rawYData. rewrite E. simpl.
    destruct (normalizing (_normalizedTo s)) as [T|] eqn:En.
    + simpl. rewrite (normalizing_truthy _ En). simpl.
      destruct (fix_ _); reflexivity.
    + simpl. destruct (fix_ _); reflexivity.
Qed.

(** The rows of [janFeb] with no category key: nothing is processed. *)
Lemma processData_always_succeeds_witness :
  xData (fst (processData keepExtent noCategoryKey)) = []
  /\ yData (fst (processData keepExtent noCategoryKey)) = []
  /\ yDomain (fst (processData keepExtent noCategoryKey)) = [Fin 0; Fin 1].
Proof.
  exact (proj2 (proj2 (proj2 (@processData_always_succeeds keepExtent noCategoryKey)))
           (or_introl eq_refl)).
Defined.

(** Claim C4 as stated fails: with an empty category key [processData]
    returns [true]. *)
Lemma processData_succeeds_without_category_key :
  _xKey noCategoryKey = EmptyString
  /\ snd (processData keepExtent noCategoryKey) = true.
Proof. split; reflexivity. Qed.

(** *** Targets of either sign *)

(** Claim C10. The setter keeps the absolute value of a number that is
    neither zero nor [NaN]; zero, like [undefined] (and [NaN]), leaves
    [undefined] and [processData] then keeps the raw values; the targets
    [-T] and [T] give the same [processData] result. *)
Theorem normalizedTo_stores_magnitude :
  forall (fix_ : num * num -> num * num) (s : AreaSeries),
    (forall v, truthy v = true ->
       exists w, _normalizedTo (set_normalizedTo s (Some v)) = Some w
                 /\ strict_eq w (abs v) = true)
    /\ (forall v, match v with Some n => truthy n = false | None => True end ->
          _normalizedTo (set_normalizedTo s v) = None
          /\ yData (fst (processData fix_ (set_normalizedTo s v))) = rawYData s)
    /\ truthy zero = false
    /\ (forall T, processData fix_ (set_normalizedTo s (Some (neg T)))
                  = processData fix_ (set_normalizedTo s (Some T))).
Proof.
  intros fix_ s. split; [|split; [|split]].
  - intros v Hv. now apply set_normalizedTo_truthy.
  - intros v Hv. pose proof (@set_normalizedTo_falsy s v Hv) as E. split; [exact E|].
    rewrite processData_yData_raw by (now rewrite E).
    apply set_normalizedTo_rawYData.
  - reflexivity.
  - intros T. now rewrite set_normalizedTo_neg.
Qed.

(** The target -10 is kept as 10. *)
Lemma normalizedTo_stores_magnitude_witness :
  exists w, _normalizedTo (set_normalizedTo fourMinusOne (Some (Fin (-10)))) = Some w
            /\ strict_eq w (abs (Fin (-10))) = true.
Proof.
  exact (proj1 (@normalizedTo_stores_magnitude keepExtent fourMinusOne) (Fin (-10)) eq_refl).
Defined.

End AreaSeriesFacts.

(** ** The range aggregator *)

Module StatusBarFacts.
Import JS JSFacts StatusBar.

(** *** Identities of cells *)

Lemma Floating_eqb_eq (a b : Floating) : Floating_eqb a b = true <-> a = b.
Proof. destruct a, b; simpl; split; congruence. Qed.

Lemma CellId_eqb_eq (a b : CellId) : CellId_eqb a b = true <-> a = b.
Proof.
  destruct a as [[i f] c], b as [[i' f'] c']. unfold CellId_eqb.
  rewrite !andb_true_iff, Nat.eqb_eq, Floating_eqb_eq, String.eqb_eq.
  split; [intros [[-> ->] ->]; reflexivity | intros H; inversion H; auto].
Qed.

Lemma seen_In (ids : list CellId) (id : CellId) : seen ids id = true <-> In id ids.
Proof.
  induction ids as [|c ids IH]; simpl; [split; [discriminate|tauto]|].
  rewrite orb_true_iff, CellId_eqb_eq, IH. tauto.
Qed.

Lemma equals_eq (a b : GridRow) : equals a b = true <-> a = b.
Proof.
  destruct a as [i f], b as [i' f']. unfold equals. simpl.
  rewrite andb_true_iff, Nat.eqb_eq, Floating_eqb_eq.
  split; [intros [-> ->]; reflexivity | intros H; inversion H; auto].
Qed.

Lemma getGridRow_getGridCell (r : GridRow) (c : Column) : getGridRow (getGridCell r c) = r.
Proof. destruct r; reflexivity. Qed.

(** *** The pass as a visit of cells *)

Section Cells.

Variable RowNode : Type.
Variable getValue : Column -> option RowNode -> option value.
Variable Number : string -> num.

(** One cell as the loop body of [eachColumn] sees it. *)
Lemma eachColumn_cell (g : Grid RowNode) (r : GridRow) (a : Aggregation) (c : Column) :
  eachColumn getValue Number g r a c = visitCell getValue Number g a (getGridCell r c).
Proof. unfold eachColumn, visitCell, countCell. now rewrite getGridRow_getGridCell. Qed.

Lemma cellsSoFar_addValue (a : Aggregation) (id : CellId) (v : option value) :
  cellsSoFar (addValue Number a id v) = id :: cellsSoFar a
  /\ count (addValue Number a id v) = S (count a).
Proof.
  unfold addValue. destruct v as [[n|str]|]; simpl; try (now split).
  - destruct (isNaN n); now split.
  - destruct (isNaN (Number str)); now split.
Qed.

Lemma fold_eachColumn (g : Grid RowNode) (r : GridRow) (cols : list Column) : forall a,
  fold_left (eachColumn getValue Number g r) cols a
  = fold_left (visitCell getValue Number g) (map (getGridCell r) cols) a.
Proof.
  induction cols as [|c cols IH]; intros a; simpl; [reflexivity|].
  now rewrite IH, eachColumn_cell.
Qed.

(** The loop over the rows of a range is the visit of its cells in order. *)
Lemma eachRow_cells (g : Grid RowNode) (cols : list Column) (lastRow : GridRow) :
  forall fuel currentRow a,
    eachRow getValue Number fuel g cols currentRow lastRow a
    = bind (rowsBetween fuel g currentRow lastRow) (fun rows =>
        Returned (fold_left (visitCell getValue Number g)
                    (flat_map (fun r => map (getGridCell r) cols) rows) a)).
Proof.
  induction fuel as [|fuel IH]; intros currentRow a; simpl; [reflexivity|].
  rewrite fold_eachColumn.
  destruct (equals currentRow lastRow).
  - simpl. now rewrite app_nil_r.
  - destruct (getRowBelow g currentRow) as [below|]; [|reflexivity].
    rewrite IH. destruct (rowsBetween fuel g below lastRow) as [rows| |]; simpl;
      try reflexivity.
    now rewrite fold_left_app.
Qed.

Lemma eachRange_cells (g : Grid RowNode) (a : Aggregation) (cellRange : CellRange) :
  eachRange getValue Number g a cellRange
  = bind (cellsOfRange g cellRange) (fun cells =>
      Returned (fold_left (visitCell getValue Number g) cells a)).
Proof.
  unfold eachRange, cellsOfRange. rewrite eachRow_cells.
  destruct (rowsBetween _ _ _ _); reflexivity.
Qed.

Lemma fold_ranges_stuck (g : Grid RowNode) (ranges : list CellRange)
  (o : outcome Aggregation) :
  (forall a, o <> Returned a) ->
  fold_left (fun acc cellRange => bind acc (fun a => eachRange getValue Number g a cellRange))
    ranges o = o.
Proof.
  revert o. induction ranges as [|r ranges IH]; intros o Ho; simpl; [reflexivity|].
  destruct o as [a| |]; [now destruct (Ho a)| |]; simpl; apply IH; discriminate.
Qed.

Lemma fold_ranges_cells (g : Grid RowNode) (ranges : list CellRange) : forall a,
  fold_left (fun acc cellRange => bind acc (fun a => eachRange getValue Number g a cellRange))
    ranges (Returned a)
  = bind (cellsOfRanges g ranges) (fun cells =>
      Returned (fold_left (visitCell getValue Number g) cells a)).
Proof.
  induction ranges as [|r ranges IH]; intros a; simpl; [reflexivity|].
  rewrite eachRange_cells.
  destruct (cellsOfRange g r) as [cells| |]; simpl.
  - rewrite IH. destruct (cellsOfRanges g ranges) as [cells'| |]; simpl; try reflexivity.
    now rewrite fold_left_app.
  - apply fold_ranges_stuck. discriminate.
  - apply fold_ranges_stuck. discriminate.
Qed.

(** Visiting cells with the shared set of identities is counting the
    distinct cells. *)
Lemma fold_visitCell (g : Grid RowNode) (cells : list GridCell) : forall a,
  fold_left (visitCell getValue Number g) cells a
  = fold_left (countCell getValue Number g) (distinctFrom (cellsSoFar a) cells) a.
Proof.
  induction cells as [|c cells IH]; intros a; simpl; [reflexivity|].
  rewrite IH. unfold visitCell.
  destruct (seen (cellsSoFar a) (createId c)) eqn:E; [reflexivity|].
  simpl. unfold countCell at 2.
  now rewrite (proj1 (cellsSoFar_addValue a _ _)).
Qed.

Lemma aggregate_cells (g : Grid RowNode) (ranges : list CellRange) :
  aggregate getValue Number g (Some ranges)
  = bind (cellsOfRanges g ranges) (fun cells =>
      Returned (aggregateCells getValue Number g (distinctCells cells))).
Proof.
  unfold aggregate. rewrite fold_ranges_cells.
  destruct (cellsOfRanges g ranges) as [cells| |]; simpl; try reflexivity.
  now rewrite fold_visitCell.
Qed.

Lemma count_fold_countCell (g : Grid RowNode) (cells : list GridCell) : forall a,
  count (fold_left (countCell getValue Number g) cells a) = count a + List.length cells.
Proof.
  induction cells as [|c cells IH]; intros a; simpl; [lia|].
  rewrite IH. unfold countCell. rewrite (proj2 (cellsSoFar_addValue a _ _)). lia.
Qed.

Lemma count_aggregateCells (g : Grid RowNode) (cells : list GridCell) :
  count (aggregateCells getValue Number g cells) = List.length cells.
Proof. unfold aggregateCells. now rewrite count_fold_countCell. Qed.

Lemma distinctFrom_spec (cells : list GridCell) : forall ids,
  NoDup (map createId (distinctFrom ids cells))
  /\ forall id, In id (map createId (distinctFrom ids cells))
                <-> In id (map createId cells) /\ ~ In id ids.
Proof.
  induction cells as [|c cells IH]; intros ids; simpl.
  - split; [constructor | intros id; tauto].
  - destruct (seen ids (createId c)) eqn:E.
    + destruct (IH ids) as [Hnd Hin]. split; [exact Hnd|].
      intros id. rewrite Hin. apply seen_In in E.
      split; [tauto|]. intros [[<-|H] Hn]; tauto.
    + destruct (IH (createId c :: ids)) as [Hnd Hin].
      assert (Hc : ~ In (createId c) ids).
      { intros H. apply seen_In in H. congruence. }
      split.
      * simpl. constructor; [|exact Hnd]. rewrite Hin. simpl. tauto.
      * intros id. simpl. rewrite Hin. simpl.
        destruct (CellId_eqb (createId c) id) eqn:Eid.
        -- apply CellId_eqb_eq in Eid. subst id. tauto.
        -- assert (createId c <> id).
           { intros H. apply CellId_eqb_eq in H. congruence. }
           tauto.
Qed.

End Cells.

(** *** The order of the rows *)

Section Rows.

Variable RowNode : Type.
Variable getValue : Column -> option RowNode -> option value.
Variable Number : string -> num.

Lemma getRowBelow_rowsAfter (g : Grid RowNode) (r r' : GridRow) :
  getRowBelow g r = Some r' -> rowsAfter g r' < rowsAfter g r.
Proof.
  unfold getRowBelow, rowsAfter. destruct r as [i f]. simpl.
  destruct f;
    repeat match goal with
    | |- context [?a <? ?b] => destruct (Nat.ltb_spec a b)
    end; intros Hb; inversion Hb; subst; simpl; try lia.
Qed.

Lemma rowsAfter_rowCount (g : Grid RowNode) (r : GridRow) : rowsAfter g r <= rowCount g.
Proof. unfold rowsAfter, rowCount. destruct (floating r); lia. Qed.

Lemma getRowBelow_before (g : Grid RowNode) (r r' : GridRow) :
  getRowBelow g r = Some r' -> before r r' = true.
Proof.
  unfold getRowBelow. destruct r as [i f]. simpl. intros Hb.
  destruct f;
    repeat match type of Hb with
    | context [?a <? ?b] => destruct (a <? b)
    end; inversion Hb; subst; unfold before; simpl; try reflexivity;
    rewrite ?orb_false_l; apply Nat.ltb_lt; lia.
Qed.

End Rows.

Lemma before_trans (a b c : GridRow) :
  before a b = true -> before b c = true -> before a c = true.
Proof.
  unfold before. destruct a as [i [| |]], b as [j [| |]], c as [k [| |]]; simpl;
    try discriminate; try reflexivity;
    rewrite !Nat.ltb_lt; lia.
Qed.

Lemma before_strict (a b : GridRow) :
  before a b = true -> before b a = false /\ equals a b = false /\ equals b a = false.
Proof.
  unfold before, equals. destruct a as [i [| |]], b as [j [| |]]; simpl;
    try discriminate; try (intros _; repeat split; rewrite ?andb_false_r; reflexivity);
    rewrite Nat.ltb_lt; intros H; repeat split;
    rewrite ?andb_true_r; try (apply Nat.ltb_ge; lia); apply Nat.eqb_neq; lia.
Qed.

Lemma createId_distinct (r r' : GridRow) (c c' : Column) :
  equals r r' = false ->
  CellId_eqb (createId (getGridCell r c)) (createId (getGridCell r' c')) = false.
Proof.
  intros H. unfold createId, getGridCell, CellId_eqb. simpl.
  unfold equals in H. now rewrite H.
Qed.

(** *** Minimum and maximum start at zero *)

Lemma lt_zero_least (n m : num) :
  lt n m = true -> lt zero m = false -> lt zero n = false.
Proof. destruct n, m; intros; num_order. Qed.

Lemma lt_zero_greatest (n m : num) :
  lt m n = true -> lt m zero = false -> lt n zero = false.
Proof. destruct n, m; intros; num_order. Qed.

Section Passes.

Variable RowNode : Type.
Variable getValue : Column -> option RowNode -> option value.
Variable Number : string -> num.

(** The round budget of [eachRange] is never used up. *)
Lemma rowsBetween_fuel (g : Grid RowNode) (lastRow : GridRow) : forall fuel currentRow,
  rowsAfter g currentRow < fuel -> rowsBetween fuel g currentRow lastRow <> OutOfFuel.
Proof.
  induction fuel as [|fuel IH]; intros currentRow Hfuel; [lia|]. simpl.
  destruct (equals currentRow lastRow); [discriminate|].
  destruct (getRowBelow g currentRow) as [below|] eqn:E; [|discriminate].
  pose proof (getRowBelow_rowsAfter g currentRow E) as Hlt.
  specialize (IH below ltac:(lia)).
  destruct (rowsBetween fuel g below lastRow); simpl; congruence.
Qed.

Lemma eachRange_total (g : Grid RowNode) (a : Aggregation) (cellRange : CellRange) :
  eachRange getValue Number g a cellRange <> OutOfFuel.
Proof.
  rewrite eachRange_cells. unfold cellsOfRange.
  match goal with
  | |- context [rowsBetween ?f g ?c ?l] =>
      pose proof (@rowsBetween_fuel g l f c) as H; destruct (rowsBetween f g c l)
  end; simpl; try discriminate.
  intros _. apply H; [|reflexivity].
  pose proof (rowsAfter_rowCount g
    (if before (getGridRow (range_start cellRange)) (getGridRow (range_end cellRange))
     then getGridRow (range_start cellRange) else getGridRow (range_end cellRange))). lia.
Qed.

(** The minimum and the maximum start at zero: no pass reports a minimum
    above zero or a maximum below it. *)
Lemma countCell_seeded (g : Grid RowNode) (a : Aggregation) (c : GridCell) :
  lt zero (min a) = false /\ lt (max a) zero = false ->
  lt zero (min (countCell getValue Number g a c)) = false
  /\ lt (max (countCell getValue Number g a c)) zero = false.
Proof.
  intros [Hmin Hmax]. unfold countCell, addValue.
  destruct (getValue _ _) as [[n|str]|]; simpl; try (now split).
  - destruct (isNaN n); simpl; [now split|]. unfold gt. split.
    + destruct (lt n (min a)) eqn:E; [eapply lt_zero_least; eauto | assumption].
    + destruct (lt (max a) n) eqn:E; [eapply lt_zero_greatest; eauto | assumption].
  - destruct (isNaN (Number str)); simpl; [now split|]. unfold gt. split.
    + destruct (lt (Number str) (min a)) eqn:E; [eapply lt_zero_least; eauto | assumption].
    + destruct (lt (max a) (Number str)) eqn:E; [eapply lt_zero_greatest; eauto | assumption].
Qed.

Lemma aggregateCells_seeded (g : Grid RowNode) (cells : list GridCell) : forall a,
  lt zero (min a) = false /\ lt (max a) zero = false ->
  lt zero (min (fold_left (countCell getValue Number g) cells a)) = false
  /\ lt (max (fold_left (countCell getValue Number g) cells a)) zero = false.
Proof.
  induction cells as [|c cells IH]; intros a Ha; simpl; [exact Ha|].
  apply IH. now apply countCell_seeded.
Qed.

Lemma aggregate_seeded (g : Grid RowNode) (cellRanges : option (list CellRange))
  (a : Aggregation) :
  aggregate getValue Number g cellRanges = Returned a ->
  lt zero (min a) = false /\ lt (max a) zero = false.
Proof.
  destruct cellRanges as [ranges|].
  - rewrite aggregate_cells.
    destruct (cellsOfRanges g ranges) as [cells| |]; simpl; try discriminate.
    intros H. inversion H; subst. apply aggregateCells_seeded. now split.
  - simpl. intros H. inversion H; subst. now split.
Qed.

(** Three rows in a row, walked from the first to the third. *)
Lemma rowsBetween_three (g : Grid RowNode) (r1 r2 r3 : GridRow) :
  getRowBelow g r1 = Some r2 -> getRowBelow g r2 = Some r3 ->
  rowsBetween (S (rowCount g)) g r1 r3 = Returned [r1; r2; r3]
  /\ before r3 r1 = false
  /\ equals r1 r2 = false /\ equals r1 r3 = false /\ equals r2 r3 = false.
Proof.
  intros H12 H23.
  pose proof (getRowBelow_before g r1 H12) as B12.
  pose proof (getRowBelow_before g r2 H23) as B23.
  pose proof (before_trans _ _ _ B12 B23) as B13.
  destruct (before_strict _ _ B12) as (_ & E12 & _).
  destruct (before_strict _ _ B23) as (_ & E23 & _).
  destruct (before_strict _ _ B13) as (B31 & E13 & _).
  repeat split; try assumption.
  pose proof (getRowBelow_rowsAfter g r1 H12).
  pose proof (getRowBelow_rowsAfter g r2 H23).
  pose proof (rowsAfter_rowCount g r1).
  destruct (rowCount g) as [|[|k]]; try lia.
  simpl. rewrite E13, H12. simpl. rewrite E23, H23. simpl.
  rewrite (proj2 (equals_eq r3 r3) eq_refl). reflexivity.
Qed.

End Passes.

(** *** The claims on the range aggregator *)

(** Claim C7. A range whose end row is two rows above its start row, over
    one column holding 1, 2 and 3, shows sum 6, count 3, min 0, max 3 and
    average 2; in every pass the minimum and the maximum start at zero, so
    no minimum is above zero and no maximum below it. *)
Theorem reversed_range_aggregates :
  forall (RowNode : Type) (getValue : Column -> option RowNode -> option value)
         (Number : string -> num) (g : Grid RowNode) (c : Column)
         (r1 r2 r3 : GridRow) (bar : StatusBar),
    getRowBelow g r1 = Some r2 ->
    getRowBelow g r2 = Some r3 ->
    getValue c (getRowNode g r1) = Some (VNum (Fin 1)) ->
    getValue c (getRowNode g r2) = Some (VNum (Fin 2)) ->
    getValue c (getRowNode g r3) = Some (VNum (Fin 3)) ->
    let reversed :=
      {| range_start := getGridCell r3 c; range_end := getGridCell r1 c; columns := [c] |} in
    before (getGridRow (range_end reversed)) (getGridRow (range_start reversed)) = true
    /\ (exists bar',
          onRangeSelectionChanged getValue Number g (Some [reversed]) bar = Returned bar'
          /\ item_value (statusItemSum bar') = Some (Fin 6)
          /\ item_value (statusItemCount bar') = Some (Fin 3)
          /\ item_value (statusItemMin bar') = Some (Fin 0)
          /\ item_value (statusItemMax bar') = Some (Fin 3)
          /\ (exists avg, item_value (statusItemAvg bar') = Some avg /\ num_eq avg (Fin 2))
          /\ Forall (fun item => item_visible item = true) (statusItems bar'))
    /\ (forall cellRanges a,
          aggregate getValue Number g cellRanges = Returned a ->
          min initial = zero /\ max initial = zero
          /\ lt zero (min a) = false /\ lt (max a) zero = false).
Proof.
  intros RowNode getValue Number g c r1 r2 r3 bar H12 H23 V1 V2 V3 reversed.
  destruct (@rowsBetween_three _ g r1 r2 r3 H12 H23) as (Hrows & B31 & E12 & E13 & E23).
  split; [|split].
  - unfold reversed. simpl. rewrite !getGridRow_getGridCell.
    exact (@before_trans r1 r2 r3 (@getRowBelow_before _ g r1 r2 H12) (@getRowBelow_before _ g r2 r3 H23)).
  - assert (Hcells : cellsOfRanges g [reversed]
                     = Returned [getGridCell r1 c; getGridCell r2 c; getGridCell r3 c]).
    { cbn [cellsOfRanges]. unfold cellsOfRange, reversed.
      cbn [range_start range_end columns]. rewrite !getGridRow_getGridCell.
      rewrite B31, Hrows. reflexivity. }
    assert (Hagg : aggregate getValue Number g (Some [reversed])
                   = Returned {| sum := Fin 6; count := 3; min := Fin 0; max := Fin 3;
                                 cellsSoFar := [createId (getGridCell r3 c);
                                                createId (getGridCell r2 c);
                                                createId (getGridCell r1 c)] |}).
    { rewrite aggregate_cells, Hcells. cbn [bind]. f_equal.
      unfold distinctCells. cbn [distinctFrom seen].
      rewrite (@createId_distinct r1 r2 c c E12). cbn [orb distinctFrom seen].
      rewrite (@createId_distinct r2 r3 c c E23), (@createId_distinct r1 r3 c c E13).
      cbn [orb distinctFrom].
      unfold aggregateCells. cbn [fold_left]. unfold countCell.
      rewrite !getGridRow_getGridCell. cbn [cell_column getGridCell].
      rewrite V1, V2, V3. reflexivity. }
    unfold onRangeSelectionChanged. rewrite Hagg. simpl.
    eexists. split; [reflexivity|]. simpl.
    repeat split; try reflexivity.
    + eexists. split; [reflexivity|]. reflexivity.
    + repeat constructor.
  - intros cellRanges a Ha. split; [reflexivity|]. split; [reflexivity|].
    exact (@aggregate_seeded _ getValue Number g cellRanges a Ha).
Qed.

(** The range from the second body row up to the pinned top row. *)
Lemma reversed_range_aggregates_witness :
  exists bar',
    onRangeSelectionChanged readField notANumber threeRows
      (Some [rangeOf (bodyRow 1) topRow]) createStatusItems = Returned bar'
    /\ item_value (statusItemSum bar') = Some (Fin 6)
    /\ item_value (statusItemCount bar') = Some (Fin 3)
    /\ item_value (statusItemMin bar') = Some (Fin 0)
    /\ item_value (statusItemMax bar') = Some (Fin 3)
    /\ (exists avg, item_value (statusItemAvg bar') = Some avg /\ num_eq avg (Fin 2))
    /\ Forall (fun item => item_visible item = true) (statusItems bar').
Proof.
  exact (proj1 (proj2
    (@reversed_range_aggregates object readField notANumber threeRows "c"%string
       topRow (bodyRow 0) (bodyRow 1) createStatusItems
       eq_refl eq_refl eq_refl eq_refl eq_refl))).
Defined.

(** Claim C8. A pass over a list of ranges is the aggregation of the cells
    the ranges cover with every repeated identity dropped, whichever range
    repeats it: each identity is counted once, and two lists of ranges that
    cover the same distinct cells aggregate to the same result. *)
Theorem aggregate_counts_each_cell_once :
  forall (RowNode : Type) (getValue : Column -> option RowNode -> option value)
         (Number : string -> num) (g : Grid RowNode) (ranges : list CellRange),
    aggregate getValue Number g (Some ranges)
    = bind (cellsOfRanges g ranges) (fun cells =>
        Returned (aggregateCells getValue Number g (distinctCells cells)))
    /\ (forall cells,
          NoDup (map createId (distinctCells cells))
          /\ (forall id, In id (map createId (distinctCells cells))
                         <-> In id (map createId cells))
          /\ count (aggregateCells getValue Number g (distinctCells cells))
             = List.length (distinctCells cells))
    /\ (forall ranges' cells cells',
          cellsOfRanges g ranges = Returned cells ->
          cellsOfRanges g ranges' = Returned cells' ->
          distinctCells cells' = distinctCells cells ->
          aggregate getValue Number g (Some ranges')
          = aggregate getValue Number g (Some ranges)).
Proof.
  intros RowNode getValue Number g ranges. split; [|split].
  - apply aggregate_cells.
  - intros cells. destruct (distinctFrom_spec cells []) as [Hnd Hin].
    split; [exact Hnd|]. split.
    + intros id. unfold distinctCells. rewrite Hin. simpl. tauto.
    + apply count_aggregateCells.
  - intros ranges' cells cells' Hc Hc' Heq.
    rewrite !aggregate_cells, Hc, Hc'. simpl. now rewrite Heq.
Qed.

(** Two ranges that share the first body row, and the same ranges without
    the shared row. *)
Lemma aggregate_counts_each_cell_once_witness :
  aggregate readField notANumber threeRows
    (Some [rangeOf topRow (bodyRow 0); rangeOf (bodyRow 1) (bodyRow 1)])
  = aggregate readField notANumber threeRows
      (Some [rangeOf topRow (bodyRow 0); rangeOf (bodyRow 0) (bodyRow 1)]).
Proof.
  exact (proj2 (proj2
    (@aggregate_counts_each_cell_once object readField notANumber threeRows
       [rangeOf topRow (bodyRow 0); rangeOf (bodyRow 0) (bodyRow 1)]))
    [rangeOf topRow (bodyRow 0); rangeOf (bodyRow 1) (bodyRow 1)]
    _ _ eq_refl eq_refl eq_refl).
Defined.

(** *** What a pass totals *)

Section Totals.

Variable RowNode : Type.
Variable getValue : Column -> option RowNode -> option value.
Variable Number : string -> num.

Lemma fold_countCell_totals (g : Grid RowNode) (cells : list GridCell) : forall a,
  let r := fold_left (countCell getValue Number g) cells a in
  let ns := numbersOf getValue Number g cells in
  sum r = fold_left add ns (sum a)
  /\ min r = fold_left least_step ns (min a)
  /\ max r = fold_left greatest_step ns (max a).
Proof.
  induction cells as [|c cells IH]; intros a; [repeat split|].
  cbn [fold_left numbersOf flat_map]. fold (numbersOf getValue Number g cells).
  rewrite !fold_left_app.
  destruct (IH (countCell getValue Number g a c)) as (Hs & Hmin & Hmax).
  rewrite Hs, Hmin, Hmax. unfold countCell, addValue, numeric.
  destruct (getValue (cell_column c) (getRowNode g (getGridRow c))) as [[n|str]|];
    [destruct (isNaN n) | destruct (isNaN (Number str)) |]; repeat split.
Qed.

End Totals.

(** Claim C9. After [onRangeSelectionChanged] every status item is visible
    exactly when the pass visited more than one distinct cell. With one
    cell or none the items are hidden and keep their values; with more, the
    five items show the sum, the count, the minimum and the maximum of the
    pass and the sum divided by the count. The sum, the minimum and the
    maximum of the pass are those of zero and the numbers in the distinct
    cells, taken in order. *)
Theorem statusItems_shown_for_several_cells :
  forall (RowNode : Type) (getValue : Column -> option RowNode -> option value)
         (Number : string -> num) (g : Grid RowNode) (bar : StatusBar),
    onRangeSelectionChanged getValue Number g None bar
    = Returned (forEachStatusItem (fun item => setVisible item false) bar)
    /\ forall ranges cells,
         cellsOfRanges g ranges = Returned cells ->
         let visited := List.length (distinctCells cells) in
         let a := aggregateCells getValue Number g (distinctCells cells) in
         let ns := numbersOf getValue Number g (distinctCells cells) in
         exists bar',
           aggregate getValue Number g (Some ranges) = Returned a
           /\ count a = visited
           /\ sum a = fold_left add ns zero
           /\ min a = fold_left least_step ns zero
           /\ max a = fold_left greatest_step ns zero
           /\ onRangeSelectionChanged getValue Number g (Some ranges) bar = Returned bar'
           /\ Forall (fun item => item_visible item = (1 <? visited)) (statusItems bar')
           /\ (visited <= 1 ->
               bar' = forEachStatusItem (fun item => setVisible item false) bar)
           /\ (1 < visited ->
               bar' = {| statusItemSum :=
                           {| item_value := Some (sum a); item_visible := true |};
                         statusItemCount :=
                           {| item_value := Some (of_nat visited); item_visible := true |};
                         statusItemMin :=
                           {| item_value := Some (min a); item_visible := true |};
                         statusItemMax :=
                           {| item_value := Some (max a); item_visible := true |};
                         statusItemAvg :=
                           {| item_value := Some (div (sum a) (of_nat visited));
                              item_visible := true |} |}).
Proof.
  intros RowNode getValue Number g bar. split; [reflexivity|].
  intros ranges cells Hcells visited a ns.
  assert (Hcount : count a = visited) by apply count_aggregateCells.
  destruct (fold_countCell_totals getValue Number g (distinctCells cells) initial)
    as (Hsum & Hmin & Hmax).
  unfold onRangeSelectionChanged. rewrite aggregate_cells, Hcells. cbn [bind].
  fold a.
  eexists. split; [reflexivity|]. split; [exact Hcount|].
  split; [exact Hsum|]. split; [exact Hmin|]. split; [exact Hmax|].
  rewrite Hcount. split; [reflexivity|].
  destruct (Nat.ltb_spec 1 visited) as [Hgt|Hle].
  - split; [repeat constructor|]. split; [lia|]. reflexivity.
  - split; [repeat constructor|]. split; [reflexivity|]. lia.
Qed.

(** The pinned top row selected twice: one cell, nothing shown. The three
    rows selected: sum 6, count 3, minimum 0, maximum 3 and 6 / 3 shown. *)
Lemma statusItems_shown_for_several_cells_witness :
  (exists bar',
     onRangeSelectionChanged readField notANumber threeRows
       (Some [rangeOf topRow topRow; rangeOf topRow topRow]) createStatusItems = Returned bar'
     /\ Forall (fun item => item_visible item = false) (statusItems bar'))
  /\ onRangeSelectionChanged readField notANumber threeRows
       (Some [rangeOf topRow (bodyRow 1)]) createStatusItems
     = Returned
         {| statusItemSum := {| item_value := Some (Fin 6); item_visible := true |};
            statusItemCount := {| item_value := Some (of_nat 3); item_visible := true |};
            statusItemMin := {| item_value := Some (Fin 0); item_visible := true |};
            statusItemMax := {| item_value := Some (Fin 3); item_visible := true |};
            statusItemAvg :=
              {| item_value := Some (div (Fin 6) (of_nat 3)); item_visible := true |} |}.
Proof.
  split.
  - destruct (proj2 (@statusItems_shown_for_several_cells object readField notANumber
                       threeRows createStatusItems)
                [rangeOf topRow topRow; rangeOf topRow topRow] _ eq_refl)
      as (bar' & _ & _ & _ & _ & _ & Hrun & Hvis & _).
    exists bar'. split; [exact Hrun | exact Hvis].
  - destruct (proj2 (@statusItems_shown_for_several_cells object readField notANumber
                       threeRows createStatusItems)
                [rangeOf topRow (bodyRow 1)] _ eq_refl)
      as (bar' & _ & _ & _ & _ & _ & Hrun & _ & _ & Hshown).
    rewrite Hrun, (Hshown ltac:(simpl; lia)). reflexivity.
Defined.

End StatusBarFacts.

(** * Further properties of the code *)

(** ** The stacked area series *)

Module AreaSeriesMore.
Import JS AreaSeries JSFacts AreaSeriesFacts.

(** *** processData *)

(** Property X1. [processData] builds one category and one row of values
    per processed row: [xData] and [yData] have the same length, every row
    of [yData] has one entry per value key, and with data and keys set
    [xData] holds, row by row, what the row has under the category key. *)
Theorem processData_tables :
  forall (fix_ : num * num -> num * num) (s : AreaSeries),
    let s' := fst (processData fix_ s) in
    List.length (xData s') = List.length (yData s')
    /\ Forall (fun r : list num => List.length r = List.length (_yKeys s)) (yData s')
    /\ (forall rows,
          data s = Some rows -> _xKey s <> EmptyString -> _yKeys s <> [] ->
          List.length (xData s') = List.length rows
          /\ forall i datum,
               nth_error rows i = Some datum ->
               nth_error (xData s') i = Some (get datum (_xKey s))).
Proof.
  intros fix_ s s'.
  destruct (processData_fields fix_ s) as (_ & _ & _ & Exs & Elen & Hrect).
  split; [unfold s'; now rewrite Exs, Elen, length_map|].
  split; [exact Hrect|].
  intros rows Hd Hx Hy.
  assert (E : processedRows s = rows).
  { unfold processedRows. rewrite Hd.
    destruct (String.eqb_spec (_xKey s) EmptyString) as [?|_]; [contradiction|].
    destruct (_yKeys s); [contradiction|reflexivity]. }
  unfold s'. rewrite Exs, E. split; [apply length_map|].
  intros i datum Hi. rewrite nth_error_map, Hi. reflexivity.
Qed.

(** Property X2. [processData] starts from the raw data each time: a second
    pass gives what the first gave, so a normalization is not applied on top
    of an earlier one. *)
Theorem processData_again :
  forall (fix_ : num * num -> num * num) (s : AreaSeries),
    processData fix_ (fst (processData fix_ s)) = processData fix_ s.
Proof.
  intros fix_ s.
  assert (H : forall xs ys dom, processData fix_ (with_processed s xs ys dom) = processData fix_ s)
    by reflexivity.
  unfold processData at 2.
  destruct (normalizing (_normalizedTo s)); destruct (fix_ _); apply H.
Qed.

(** *** The setters *)

(** Property X3. Whatever is assigned to [normalizedTo], the target the
    setter leaves is undefined or a number above zero: never zero, negative
    or [NaN]. *)
Theorem normalizedTo_positive :
  forall (s : AreaSeries) (v : option num),
    match _normalizedTo (set_normalizedTo s v) with
    | Some T => lt zero T = true /\ isNaN T = false
    | None => True
    end.
Proof.
  intros s v.
  destruct v as [n|]; [destruct (truthy n) eqn:Hn|].
  - destruct (@set_normalizedTo_truthy s n Hn) as (w & -> & Hw).
    destruct n as [q| | |]; try discriminate; destruct w as [t| | |]; try discriminate;
      simpl in *; try (now split).
    apply Qeq_bool_iff in Hw. apply negb_true_iff in Hn. apply Qeq_bool_neq in Hn.
    split; [|reflexivity].
    assert (0 < Qabs q)%Q.
    { pose proof (Qabs_nonneg q). destruct (Qeq_dec (Qabs q) 0) as [E|E]; [|lra].
      exfalso. apply Hn. revert E. apply Qabs_case; intros; lra. }
    destruct (Qcompare_spec 0 t); try reflexivity; lra.
  - rewrite (@set_normalizedTo_falsy s (Some n)); [exact I | exact Hn].
  - rewrite (@set_normalizedTo_falsy s None); exact I.
Qed.

Lemma largest_negative (totals : list MinMax) :
  Forall (fun v => isFinite v = true) (map min totals) ->
  lt (min (findLargestMinMax totals)) zero
  = existsb (fun t => lt (min t) zero) totals.
Proof.
  intros Hfin.
  pose proof (findLargestMinMax_least totals) as Hl.
  pose proof (leastWithZero_finite Hfin Hl) as Hf.
  destruct Hl as (Hin & Hz & Hall).
  destruct (min (findLargestMinMax totals)) as [l| | |] eqn:El; try discriminate.
  destruct (existsb (fun t => lt (min t) zero) totals) eqn:Ex.
  - apply existsb_exists in Ex. destruct Ex as (t & Ht & Hneg).
    assert (Hlo : lt (min t) (Fin l) = false) by (apply Hall, in_map, Ht).
    rewrite Forall_forall in Hfin. specialize (Hfin (min t) (in_map min _ _ Ht)).
    destruct (min t) as [a| | |]; try discriminate.
    apply lt_Fin in Hneg. apply lt_Fin_false in Hlo. apply lt_Fin. lra.
  - destruct (lt (Fin l) zero) eqn:Hneg; [|reflexivity].
    destruct Hin as [E | Hin]; [rewrite E in Hneg; discriminate|].
    apply in_map_iff in Hin. destruct Hin as (t & Et & Ht).
    assert (existsb (fun t => lt (min t) zero) totals = true)
      by (apply existsb_exists; exists t; split; [exact Ht | now rewrite Et]).
    congruence.
Qed.

(** Property X4. With value fields that are numbers or missing and a
    stored target that is undefined or above zero, the extent [processData]
    hands to [fixNumericExtent] is never empty or inverted: its lower end is at most zero and below its upper end. When
    normalization is on, the upper end is the target and the lower end is
    minus the target if some row has a negative total, zero otherwise. *)
Theorem processData_extent_proper :
  forall (fix_ : num * num -> num * num) (s : AreaSeries),
    numberFields s = true ->
    match _normalizedTo s with Some T => lt zero T = true | None => True end ->
    exists lo hi : Q,
      (lo <= 0)%Q /\ (lo < hi)%Q
      /\ yDomain (fst (processData fix_ s)) = (let '(a, b) := fix_ (Fin lo, Fin hi) in [a; b])
      /\ forall T,
           normalizing (_normalizedTo s) = Some T ->
           T = Fin hi
           /\ Fin lo = if existsb (fun t => lt (min t) zero) (map findMinMax (rawYData s))
                       then neg T else zero.
Proof.
  intros fix_ s _ Hinv.
  destruct (totals_finite s) as (Hmin & Hmax).
  pose proof (findLargestMinMax_least (map findMinMax (rawYData s))) as Hl.
  pose proof (findLargestMinMax_greatest (map findMinMax (rawYData s))) as Hg.
  pose proof (leastWithZero_finite Hmin Hl) as Hlf.
  pose proof (greatestWithZero_finite Hmax Hg) as Hgf.
  pose proof (largest_negative _ Hmin) as Hneg.
  destruct Hl as (_ & Hl0 & _). destruct Hg as (_ & Hg0 & _).
  unfold processData.
  destruct (min (findLargestMinMax (map findMinMax (rawYData s)))) as [l| | |] eqn:El;
    try discriminate.
  destruct (max (findLargestMinMax (map findMinMax (rawYData s)))) as [h| | |] eqn:Eh;
    try discriminate.
  destruct (normalizing (_normalizedTo s)) as [T|] eqn:En.
  - unfold normalizing in En. destruct (_normalizedTo s) as [T0|]; [|discriminate].
    destruct (truthy T0 && isFinite T0) eqn:Ht; [|discriminate].
    injection En as ->. apply andb_true_iff in Ht. destruct Ht as (Ht & Hf).
    destruct T as [t| | |]; try discriminate.
    apply lt_Fin in Hinv.
    assert (Hz : strict_eq (Fin t) zero = false).
    { simpl. apply Qeq_bool_false_of_neq. lra. }
    rewrite <- Hneg.
    destruct (lt (Fin l) zero) eqn:Hl'.
    + exists (- t)%Q, t. split; [lra|]. split; [lra|]. split.
      * cbn [neg]. rewrite Hz, andb_false_r. destruct (fix_ _); reflexivity.
      * intros T E. injection E as <-. split; reflexivity.
    + exists 0%Q, t. split; [lra|]. split; [lra|]. split.
      * rewrite Hz, andb_false_r. destruct (fix_ _); reflexivity.
      * intros T E. injection E as <-. split; reflexivity.
  - destruct (@widened_proper l h Hl0 Hg0) as (hi' & Ehi & Hlt).
    exists l, hi'. split; [apply lt_Fin_false in Hl0; lra|]. split; [exact Hlt|]. split.
    + rewrite Ehi. destruct (fix_ _); reflexivity.
    + intros T E. discriminate.
Qed.

Lemma processData_extent_proper_witness :
  exists lo hi : Q,
    (lo <= 0)%Q /\ (lo < hi)%Q
    /\ yDomain (fst (processData keepExtent (set_normalizedTo janFeb (Some (Fin 10)))))
       = (let '(a, b) := keepExtent (Fin lo, Fin hi) in [a; b])
    /\ forall T,
         normalizing (_normalizedTo (set_normalizedTo janFeb (Some (Fin 10)))) = Some T ->
         T = Fin hi
         /\ Fin lo = if existsb (fun t => lt (min t) zero)
                          (map findMinMax (rawYData (set_normalizedTo janFeb (Some (Fin 10)))))
                     then neg T else zero.
Proof.
  apply (@processData_extent_proper keepExtent (set_normalizedTo janFeb (Some (Fin 10))));
    reflexivity.
Defined.

Lemma scaled_bounded (qs : list Q) (mn mx t q : Q) :
  (0 < t)%Q -> (mn == sumNeg qs)%Q -> (mx == sumPos qs)%Q -> In q qs ->
  scaled mn mx t q = NaN \/ exists e, scaled mn mx t q = Fin e /\ (Qabs e <= t)%Q.
Proof.
  intros Ht Emn Emx Hin.
  destruct (Q_dec q 0) as [[Hq | Hq] | Hq].
  - destruct (sumNeg_bounds qs) as (_ & Hb). specialize (Hb q Hin Hq).
    assert (Hmn : (mn < 0)%Q) by lra.
    destruct (@scaled_negative mn mx t q Ht Hq Hmn) as (E & Hneg).
    right. eexists. split; [exact E|].
    apply Qabs_Qle_condition. split; [|lra].
    assert (Hr : (- q / - mn <= 1)%Q) by (apply Qle_shift_div_r; lra).
    assert (Er : (- q / mn == - (- q / - mn))%Q) by (field; lra).
    rewrite Er. nra.
  - destruct (sumPos_bounds qs) as (_ & Hb). specialize (Hb q Hin Hq).
    assert (Hmx : (0 < mx)%Q) by lra.
    destruct (@scaled_positive mn mx t q Ht Hq Hmx) as (E & Hpos).
    right. eexists. split; [exact E|].
    apply Qabs_Qle_condition. split; [lra|].
    assert (Hr : (q / mx <= 1)%Q) by (apply Qle_shift_div_r; lra).
    nra.
  - destruct (@scaled_zero mn mx t q Hq) as [E | (e & E & He)]; [now left|].
    right. exists e. split; [exact E|]. rewrite He. simpl. lra.
Qed.

(** Property X5. With value fields that are numbers or missing, after a
    finite target other than zero is assigned and the data is processed,
    every entry of [yData] is [NaN] or a number whose absolute value is at
    most the absolute value of what was assigned. *)
Theorem normalized_within_target :
  forall (fix_ : num * num -> num * num) (s0 : AreaSeries) (v : Q),
    numberFields s0 = true ->
    truthy (Fin v) = true ->
    forall row,
      In row (yData (fst (processData fix_ (set_normalizedTo s0 (Some (Fin v)))))) ->
      Forall (fun y => y = NaN \/ exists q, y = Fin q /\ (Qabs q <= Qabs v)%Q) row.
Proof.
  intros fix_ s0 v _ Hv row Hin.
  destruct (@set_normalizedTo_target s0 v Hv) as (t & En & Et & Ht).
  rewrite (processData_yData_normalized fix_ _ En), set_normalizedTo_rawYData in Hin.
  apply In_nth_error in Hin. destruct Hin as (i & Hi).
  assert (Hlen : i < List.length (rawYData s0)).
  { assert (H : nth_error (normalizeData (map findMinMax (rawYData s0)) (Fin t) (rawYData s0)) i
                <> None) by congruence.
    apply nth_error_Some in H. unfold normalizeData, mapi in H.
    now rewrite length_mapi_from in H. }
  destruct (nth_error (rawYData s0) i) as [stack|] eqn:Es;
    [|apply nth_error_None in Es; lia].
  rewrite (normalizeData_nth _ _ _ Es) in Hi. injection Hi as <-.
  pose proof (rawYData_finite s0) as Hfin. rewrite Forall_forall in Hfin.
  destruct (finite_list (Hfin _ (nth_error_In _ _ Es))) as (qs & ->).
  destruct (findMinMax_of_finite qs) as (mn & mx & -> & Emn & Emx).
  rewrite normalizeStack_scaled. apply Forall_forall. intros y Hy.
  apply in_map_iff in Hy. destruct Hy as (q & <- & Hq).
  destruct (@scaled_bounded qs mn mx t q Ht Emn Emx Hq) as [E | (e & E & He)]; [now left|].
  right. exists e. split; [exact E | lra].
Qed.

Lemma normalized_within_target_witness :
  Forall (fun y => y = NaN \/ exists q, y = Fin q /\ (Qabs q <= Qabs (-10))%Q)
         [Fin (4 / 4 * 10); Fin (- -1 / -1 * 10)].
Proof.
  apply (@normalized_within_target keepExtent fourMinusOne (-10)%Q eq_refl eq_refl).
  left. reflexivity.
Defined.

(** The entry of a key after [Map.set]. *)
Lemma enabled_map_set (m : list (string * bool)) (key : string) (b : bool) (k : string) :
  enabled (map_set m key b) k = if String.eqb key k then b else enabled m k.
Proof.
  induction m as [|[k0 b0] m IH]; simpl.
  - destruct (String.eqb key k); reflexivity.
  - destruct (String.eqb_spec k0 key) as [->|Hne]; simpl.
    + destruct (String.eqb key k); reflexivity.
    + destruct (String.eqb_spec k0 k) as [->|Hne'].
      * destruct (String.eqb_spec key k) as [->|_]; [contradiction|reflexivity].
      * exact IH.
Qed.

Lemma enabled_all_set (values : list string) (k : string) : forall m,
  enabled (fold_left (fun m key => map_set m key true) values m) k
  = existsb (fun key => String.eqb key k) values || enabled m k.
Proof.
  induction values as [|v values IH]; intros m; simpl; [reflexivity|].
  rewrite IH, enabled_map_set. destruct (String.eqb v k); simpl; [apply orb_true_r | reflexivity].
Qed.

(** Property X6. [toggleSeriesItem] sets the enabled flag of the item it
    names and of no other. Assigning new value keys clears the processed
    values, keeps the categories and leaves exactly the new keys enabled;
    assigning a new category key clears the categories and keeps the rest.
    Assigning the keys a series already has changes nothing, so disabled
    items stay disabled. *)
Theorem seriesItemEnabled_tracks_keys :
  forall (s : AreaSeries),
    (forall item b k,
       enabled (seriesItemEnabled (toggleSeriesItem s item b)) k
       = if String.eqb item k then b else enabled (seriesItemEnabled s) k)
    /\ (forall values,
          values <> _yKeys s ->
          let s' := set_yKeys s values in
          _yKeys s' = values /\ yData s' = [] /\ xData s' = xData s
          /\ forall k, enabled (seriesItemEnabled s') k = true <-> In k values)
    /\ set_yKeys s (_yKeys s) = s
    /\ (forall v,
          v <> _xKey s ->
          let s' := set_xKey s v in
          _xKey s' = v /\ xData s' = [] /\ yData s' = yData s
          /\ seriesItemEnabled s' = seriesItemEnabled s)
    /\ set_xKey s (_xKey s) = s.
Proof.
  intros s. split; [|split; [|split; [|split]]].
  - intros item b k. apply enabled_map_set.
  - intros values Hne s'. unfold s', set_yKeys.
    destruct (list_eq_dec string_dec (_yKeys s) values) as [E|_]; [congruence|].
    cbn. repeat split; try reflexivity.
    + rewrite enabled_all_set, orb_false_r. intros H. apply existsb_exists in H.
      destruct H as (key & Hin & E). apply String.eqb_eq in E. now subst.
    + intros Hin. rewrite enabled_all_set, orb_false_r. apply existsb_exists.
      exists k. split; [exact Hin | apply String.eqb_refl].
  - unfold set_yKeys. destruct (list_eq_dec string_dec (_yKeys s) (_yKeys s)); congruence.
  - intros v Hne s'. unfold s', set_xKey.
    destruct (String.eqb_spec (_xKey s) v) as [E|_]; [congruence|].
    cbn. repeat split.
  - unfold set_xKey. now rewrite String.eqb_refl.
Qed.

(** Property X7. With value fields that are numbers or missing and
    without normalization, disabling a series item makes its
    entry zero in every row of [yData] and leaves the entries of the other
    value keys as they were; enabling it gives the entry the row's own
    value under that key, or zero when that is missing or not a finite
    number. *)
Theorem disabled_item_is_zero :
  forall (fix_ : num * num -> num * num) (s : AreaSeries) (item : string),
    numberFields s = true ->
    normalizing (_normalizedTo s) = None ->
    let base := fst (processData fix_ s) in
    let off := fst (processData fix_ (toggleSeriesItem s item false)) in
    let on := fst (processData fix_ (toggleSeriesItem s item true)) in
    forall i j yKey rowBase,
      nth_error (_yKeys s) j = Some yKey ->
      nth_error (yData base) i = Some rowBase ->
      exists datum rowOff rowOn,
        nth_error (processedRows s) i = Some datum
        /\ nth_error (yData off) i = Some rowOff
        /\ nth_error (yData on) i = Some rowOn
        /\ nth_error rowOff j
           = (if String.eqb item yKey then Some zero else nth_error rowBase j)
        /\ nth_error rowOn j
           = (if String.eqb item yKey
              then Some match finite_number (get datum yKey) with Some n => n | None => zero end
              else nth_error rowBase j).
Proof.
  intros fix_ s item _ Hn base off on i j yKey rowBase Hj Hbase.
  unfold base in Hbase. unfold off, on.
  rewrite processData_yData_raw in Hbase by exact Hn.
  rewrite !processData_yData_raw by exact Hn.
  unfold rawYData in *.
  change (processedRows (toggleSeriesItem s item false)) with (processedRows s).
  change (processedRows (toggleSeriesItem s item true)) with (processedRows s).
  rewrite nth_error_map in Hbase. rewrite !nth_error_map.
  destruct (nth_error (processedRows s) i) as [datum|]; [|discriminate].
  injection Hbase as <-. exists datum. do 2 eexists.
  split; [reflexivity|]. split; [reflexivity|]. split; [reflexivity|].
  cbn [toggleSeriesItem with_keys _yKeys seriesItemEnabled].
  unfold yRow. rewrite !nth_error_map, Hj. cbn [option_map].
  rewrite !enabled_map_set.
  destruct (String.eqb item yKey); destruct (finite_number (get datum yKey));
    split; reflexivity.
Qed.

Lemma disabled_item_is_zero_witness :
  exists datum rowOff rowOn,
    nth_error (processedRows janFeb) 1 = Some datum
    /\ nth_error (yData (fst (processData keepExtent (toggleSeriesItem janFeb "b" false)))) 1
       = Some rowOff
    /\ nth_error (yData (fst (processData keepExtent (toggleSeriesItem janFeb "b" true)))) 1
       = Some rowOn
    /\ nth_error rowOff 1
       = (if String.eqb "b" "b" then Some zero else nth_error [Fin 10; Fin (-15)] 1)
    /\ nth_error rowOn 1
       = (if String.eqb "b" "b"
          then Some match finite_number (get datum "b") with Some n => n | None => zero end
          else nth_error [Fin 10; Fin (-15)] 1).
Proof.
  apply (@disabled_item_is_zero keepExtent janFeb "b"%string eq_refl eq_refl 1 1 "b"%string
           [Fin 10; Fin (-15)]); reflexivity.
Defined.

(** *** generateSelectionData *)

Lemma array_get_set_same (A : Type) (a : list (option A)) (i : nat) (v : A) :
  array_get (array_set a i v) i = Some v.
Proof. unfold array_get. now rewrite nth_error_array_set_same. Qed.

Lemma array_get_set_other (A : Type) (v : A) : forall i (a : list (option A)) j,
  i <> j -> array_get (array_set a i v) j = array_get a j.
Proof.
  unfold array_get. induction i as [|i IH]; intros [|h t] [|j] Hne; try congruence; simpl;
    try reflexivity.
  - now destruct j.
  - rewrite (IH [] j) by congruence. now destruct j.
  - apply IH. congruence.
Qed.

Lemma firstn_snoc (A : Type) (l : list A) : forall j x,
  nth_error l j = Some x -> firstn (Datatypes.S j) l = firstn j l ++ [x].
Proof.
  induction l as [|h t IH]; intros [|j] x H; try discriminate.
  - injection H as ->. reflexivity.
  - simpl in H. change (firstn (Datatypes.S (Datatypes.S j)) (h :: t))
      with (h :: firstn (Datatypes.S j) t).
    rewrite (IH j x H). reflexivity.
Qed.

Lemma sumWhere_snoc (p : num -> bool) (l : list num) (x : num) :
  sumWhere p (l ++ [x]) = if p x then add (sumWhere p l) x else sumWhere p l.
Proof.
  unfold sumWhere. rewrite filter_app, fold_left_app. simpl.
  destruct (p x); reflexivity.
Qed.

(** A loop over a list keeps an invariant that each round keeps; the round
    knows which element it is at. *)
Lemma forEachM_from_nth (A S : Type) (f : S -> A -> nat -> outcome S)
  (P : nat -> S -> Prop) (l0 : list A) :
  (forall s x j s', nth_error l0 j = Some x -> P j s -> f s x j = Returned s' ->
                    P (Datatypes.S j) s') ->
  forall l pre s s',
    l0 = pre ++ l -> P (List.length pre) s ->
    forEachM_from f (List.length pre) l s = Returned s' -> P (List.length l0) s'.
Proof.
  intros Hstep. induction l as [|x l IH]; intros pre s s' E HP Hrun.
  - simpl in Hrun. injection Hrun as <-. subst l0. now rewrite app_nil_r.
  - simpl in Hrun. destruct (f s x (List.length pre)) as [s1| |] eqn:E1; try discriminate.
    simpl in Hrun.
    assert (Hx : nth_error l0 (List.length pre) = Some x).
    { subst l0. rewrite nth_error_app2 by lia. now rewrite Nat.sub_diag. }
    apply (IH (pre ++ [x]) s1 s').
    + subst l0. now rewrite <- app_assoc.
    + rewrite length_app, Nat.add_1_r. exact (Hstep _ _ _ _ Hx HP E1).
    + rewrite length_app, Nat.add_1_r. exact Hrun.
Qed.

(** The running total a value is stacked on is the one the loop holds. *)
Lemma stackedOn_prev (yDatum : list num) (j : nat) (curr pmin pmax : num) :
  nth_error yDatum j = Some curr ->
  pmin = sumWhere (fun v => lt v zero) (firstn j yDatum) ->
  pmax = sumWhere (fun v => negb (lt v zero)) (firstn j yDatum) ->
  (if lt curr zero then pmin else pmax) = stackedOn yDatum j.
Proof.
  intros Hc -> ->. unfold stackedOn, sumWhere. rewrite (nth_error_nth _ _ zero Hc).
  destruct (lt curr zero); f_equal; apply filter_ext; intros v; now destruct (lt v zero).
Qed.

Lemma stackedOn_next (yDatum : list num) (j : nat) (c1 c2 : num) :
  nth_error yDatum j = Some c1 -> nth_error yDatum (Datatypes.S j) = Some c2 ->
  lt c1 zero = lt c2 zero ->
  stackedOn yDatum (Datatypes.S j) = add (stackedOn yDatum j) c1.
Proof.
  intros H1 H2 Hs. unfold stackedOn.
  rewrite (firstn_snoc _ _ H1), sumWhere_snoc.
  rewrite (nth_error_nth _ _ zero H1), (nth_error_nth _ _ zero H2), Hs, eqb_reflx.
  reflexivity.
Qed.

Section Stacking.

Variable toFixed2 : num -> string.
Variable String_of_num : num -> string.
Variable s : AreaSeries.
Variables xScale yScale : Scale.
Variable n : nat.
Hypothesis Hn : n = List.length (xData s).

Lemma eachValue_stacks k seriesDatum xDatum yDatum st curr j st' :
  k < n ->
  nth_error (xData s) k = Some xDatum ->
  nth_error (yData s) k = Some yDatum ->
  nth_error yDatum j = Some curr ->
  prevMin st = sumWhere (fun v => lt v zero) (firstn j yDatum) ->
  prevMax st = sumWhere (fun v => negb (lt v zero)) (firstn j yDatum) ->
  keyed s (areaSelectionData (built st)) ->
  (forall i j', i < k -> stackedAt s xScale yScale (n * 2 - 1) (areaSelectionData (built st)) i j') ->
  (forall j', j' < j -> stackedAt s xScale yScale (n * 2 - 1) (areaSelectionData (built st)) k j') ->
  eachValue toFixed2 String_of_num s yScale (div (or_zero (bandwidth yScale)) (Fin 2))
    (n * 2 - 1) k seriesDatum
    (add (convert xScale xDatum) (div (or_zero (bandwidth xScale)) (Fin 2))) st curr j
  = Returned st' ->
  prevMin st' = sumWhere (fun v => lt v zero) (firstn (Datatypes.S j) yDatum)
  /\ prevMax st' = sumWhere (fun v => negb (lt v zero)) (firstn (Datatypes.S j) yDatum)
  /\ keyed s (areaSelectionData (built st'))
  /\ (forall i j', i < k ->
        stackedAt s xScale yScale (n * 2 - 1) (areaSelectionData (built st')) i j')
  /\ (forall j', j' < Datatypes.S j ->
        stackedAt s xScale yScale (n * 2 - 1) (areaSelectionData (built st')) k j').
Proof.
  intros Hk Hx Hy Hc Hmin Hmax Hkey Hold Hrow Hrun.
  unfold eachValue in Hrun. destruct seriesDatum as [datum|]; [|discriminate].
  injection Hrun as <-. cbn [prevMin prevMax built areaSelectionData].
  rewrite (firstn_snoc _ _ Hc), !sumWhere_snoc.
  rewrite (@stackedOn_prev yDatum j curr _ _ Hc Hmin Hmax).
  split; [destruct (lt curr zero); simpl; congruence|].
  split; [destruct (lt curr zero); simpl; congruence|].
  set (area := areaSelectionData (built st)) in *.
  set (old := match array_get area j with
              | Some d => d
              | None => {| itemId := nth_error (_yKeys s) j; points := [] |}
              end).
  split; [|split].
  - intros j' d Hd. destruct (Nat.eq_dec j j') as [<-|Hne].
    + rewrite array_get_set_same in Hd. injection Hd as <-. cbn [itemId].
      unfold old. destruct (array_get area j) as [d0|] eqn:E0; [|reflexivity].
      exact (Hkey _ _ E0).
    + rewrite array_get_set_other in Hd by exact Hne. exact (Hkey _ _ Hd).
  - intros i j' Hi xD yD c Hxi Hyi Hci.
    destruct (Hold i j' Hi xD yD c Hxi Hyi Hci) as (d & Ed & Etop & Ebot).
    destruct (Nat.eq_dec j j') as [<-|Hne].
    + rewrite array_get_set_same. eexists. split; [reflexivity|].
      cbn [points]. unfold old. rewrite Ed.
      rewrite !array_get_set_other by lia. split; assumption.
    + rewrite array_get_set_other by exact Hne. exists d. repeat split; assumption.
  - intros j' Hj' xD yD c Hxi Hyi Hci.
    destruct (Nat.eq_dec j j') as [<-|Hne].
    + rewrite array_get_set_same. eexists. split; [reflexivity|].
      cbn [points].
      assert (xD = xDatum) by congruence. assert (yD = yDatum) by congruence.
      subst xD yD. assert (c = curr) by congruence. subst c.
      rewrite array_get_set_other by lia. rewrite !array_get_set_same.
      split; reflexivity.
    + rewrite array_get_set_other by exact Hne. apply (Hrow j'); [lia | assumption..].
Qed.

Lemma eachRow_stacks rows acc xDatum k acc' :
  nth_error (xData s) k = Some xDatum ->
  keyed s (areaSelectionData acc) ->
  (forall i j, i < k -> stackedAt s xScale yScale (n * 2 - 1) (areaSelectionData acc) i j) ->
  eachRow toFixed2 String_of_num s rows xScale yScale
    (div (or_zero (bandwidth xScale)) (Fin 2)) (div (or_zero (bandwidth yScale)) (Fin 2))
    (n * 2 - 1) acc xDatum k
  = Returned acc' ->
  keyed s (areaSelectionData acc')
  /\ forall i j, i < Datatypes.S k ->
       stackedAt s xScale yScale (n * 2 - 1) (areaSelectionData acc') i j.
Proof.
  intros Hx Hkey Hold Hrun.
  assert (Hk : k < n) by (rewrite Hn; apply nth_error_Some; congruence).
  unfold eachRow in Hrun.
  destruct (nth_error (yData s) k) as [yDatum|] eqn:Ey; [|discriminate].
  match type of Hrun with
  | bind (forEachM ?f ?l ?st0) _ = _ =>
      destruct (forEachM f l st0) as [st| |] eqn:Erun; try discriminate
  end.
  simpl in Hrun. injection Hrun as <-.
  pose (Q := fun (j : nat) (st : RowState) =>
    prevMin st = sumWhere (fun v => lt v zero) (firstn j yDatum)
    /\ prevMax st = sumWhere (fun v => negb (lt v zero)) (firstn j yDatum)
    /\ keyed s (areaSelectionData (built st))
    /\ (forall i j', i < k ->
          stackedAt s xScale yScale (n * 2 - 1) (areaSelectionData (built st)) i j')
    /\ (forall j', j' < j ->
          stackedAt s xScale yScale (n * 2 - 1) (areaSelectionData (built st)) k j')).
  assert (HQ : Q (List.length yDatum) st).
  { unfold forEachM in Erun.
    refine (@forEachM_from_nth _ _ _ Q yDatum _ yDatum [] _ _ eq_refl _ Erun).
    - intros st0 curr j st1 Hc (H1 & H2 & H3 & H4 & H5) Hstep.
      apply (@eachValue_stacks k (nth_error rows k) xDatum yDatum st0 curr j st1);
        assumption.
    - unfold Q. cbn. repeat split; try assumption. intros j' Hj'. lia. }
  destruct HQ as (_ & _ & Hkey' & Hold' & Hrow').
  split; [exact Hkey'|].
  intros i j Hi. destruct (Nat.eq_dec i k) as [->|Hne]; [|apply Hold'; lia].
  destruct (Nat.lt_ge_cases j (List.length yDatum)) as [Hj|Hj]; [now apply Hrow'|].
  intros xD yD c _ Hyi Hci. assert (yD = yDatum) by congruence. subst yD.
  apply nth_error_None in Hj. congruence.
Qed.

Lemma generateSelectionData_stacked rows (sel : SelectionData) :
  data s = Some rows -> xAxis s = Some xScale -> yAxis s = Some yScale ->
  generateSelectionData toFixed2 String_of_num s = Returned (Some sel) ->
  keyed s (areaSelectionData sel)
  /\ forall i j, stackedAt s xScale yScale (n * 2 - 1) (areaSelectionData sel) i j.
Proof.
  intros Hd Hxa Hya Hrun. unfold generateSelectionData in Hrun.
  rewrite Hd, Hxa, Hya in Hrun.
  match type of Hrun with
  | bind (forEachM ?f ?l ?a0) _ = _ =>
      destruct (forEachM f l a0) as [acc| |] eqn:Erun; try discriminate
  end.
  simpl in Hrun. injection Hrun as <-.
  pose (P := fun (k : nat) (acc : SelectionData) =>
    keyed s (areaSelectionData acc)
    /\ forall i j, i < k -> stackedAt s xScale yScale (n * 2 - 1) (areaSelectionData acc) i j).
  assert (HP : P (List.length (xData s)) acc).
  { unfold forEachM in Erun. rewrite <- Hn in Erun.
    refine (@forEachM_from_nth _ _ _ P (xData s) _ (xData s) [] _ _ eq_refl _ Erun).
    - intros acc0 xDatum k acc1 Hx (H1 & H2) Hstep.
      apply (@eachRow_stacks rows acc0 xDatum k acc1); assumption.
    - split; [intros j d H; destruct j; discriminate | intros i j Hi; simpl in Hi; lia]. }
  destruct HP as (Hkey & Hall). split; [exact Hkey|].
  intros i j xD yD c Hxi Hyi Hci. apply (Hall i j); try assumption.
  apply nth_error_Some. congruence.
Qed.

End Stacking.

(** Property X8. In what [generateSelectionData] returns, the polygon of
    value key [j] carries the key as its item id and holds, for every row
    [i], the top point of the row's value at [i] and its bottom point at
    [2n - 1 - i]: both at the category's x plus half the x band width, the
    bottom at the converted sum of the row's earlier values on the same
    side of zero, the top at that sum plus the value, each plus half the y
    band width. *)
Theorem generateSelectionData_stacks :
  forall (toFixed2 String_of_num : num -> string) (s : AreaSeries) (rows : list object)
         (xScale yScale : Scale) (sel : SelectionData),
    data s = Some rows -> xAxis s = Some xScale -> yAxis s = Some yScale ->
    generateSelectionData toFixed2 String_of_num s = Returned (Some sel) ->
    forall i j xDatum yDatum curr,
      nth_error (xData s) i = Some xDatum ->
      nth_error (yData s) i = Some yDatum ->
      nth_error yDatum j = Some curr ->
      exists d,
        array_get (areaSelectionData sel) j = Some d
        /\ itemId d = nth_error (_yKeys s) j
        /\ array_get (points d) i
           = Some (stackPoint xScale yScale xDatum (add (stackedOn yDatum j) curr))
        /\ array_get (points d) (List.length (xData s) * 2 - 1 - i)
           = Some (stackPoint xScale yScale xDatum (stackedOn yDatum j)).
Proof.
  intros tf sn s rows xScale yScale sel Hd Hxa Hya Hrun i j xDatum yDatum curr Hx Hy Hc.
  destruct (@generateSelectionData_stacked tf sn s xScale yScale _ eq_refl rows sel
              Hd Hxa Hya Hrun) as (Hkey & Hall).
  destruct (Hall i j xDatum yDatum curr Hx Hy Hc) as (d & Ed & Etop & Ebot).
  exists d. split; [exact Ed|]. split; [exact (Hkey _ _ Ed)|]. split; assumption.
Qed.

Lemma generateSelectionData_stacks_witness :
  exists sel d,
    generateSelectionData plainText plainText (fst (processData keepExtent janFebCharted))
    = Returned (Some sel)
    /\ array_get (areaSelectionData sel) 1 = Some d
    /\ itemId d = Some "b"%string
    /\ array_get (points d) 1
       = Some (stackPoint bandScale linearScale (Some (VStr "Feb"))
                 (add (stackedOn [Fin 10; Fin (-15)] 1) (Fin (-15))))
    /\ array_get (points d) 2
       = Some (stackPoint bandScale linearScale (Some (VStr "Feb"))
                 (stackedOn [Fin 10; Fin (-15)] 1)).
Proof.
  destruct (@generateSelectionData_returns plainText plainText keepExtent janFebCharted)
    as (sel & Hsel); try discriminate.
  destruct (@generateSelectionData_stacks plainText plainText
              (fst (processData keepExtent janFebCharted))
              [row "Jan" 5 (-3); row "Feb" 10 (-15)] bandScale linearScale sel
              eq_refl eq_refl eq_refl Hsel 1 1 (Some (VStr "Feb")) [Fin 10; Fin (-15)]
              (Fin (-15)) eq_refl eq_refl eq_refl) as (d & Hd & Hid & Htop & Hbot).
  exists sel, d. repeat split; assumption.
Defined.

(** Property X9. Two neighbouring values of a row on the same side of zero
    give bands that touch: the bottom point of the later key's polygon is
    the top point of the earlier key's polygon. *)
Theorem stacked_bands_touch :
  forall (toFixed2 String_of_num : num -> string) (s : AreaSeries) (rows : list object)
         (xScale yScale : Scale) (sel : SelectionData),
    data s = Some rows -> xAxis s = Some xScale -> yAxis s = Some yScale ->
    generateSelectionData toFixed2 String_of_num s = Returned (Some sel) ->
    forall i j xDatum yDatum below above,
      nth_error (xData s) i = Some xDatum ->
      nth_error (yData s) i = Some yDatum ->
      nth_error yDatum j = Some below ->
      nth_error yDatum (Datatypes.S j) = Some above ->
      lt below zero = lt above zero ->
      exists lower upper p,
        array_get (areaSelectionData sel) j = Some lower
        /\ array_get (areaSelectionData sel) (Datatypes.S j) = Some upper
        /\ array_get (points lower) i = Some p
        /\ array_get (points upper) (List.length (xData s) * 2 - 1 - i) = Some p.
Proof.
  intros tf sn s rows xScale yScale sel Hd Hxa Hya Hrun i j xDatum yDatum c1 c2
    Hx Hy H1 H2 Hs.
  destruct (@generateSelectionData_stacked tf sn s xScale yScale _ eq_refl rows sel
              Hd Hxa Hya Hrun) as (_ & Hall).
  destruct (Hall i j xDatum yDatum c1 Hx Hy H1) as (d1 & E1 & Etop & _).
  destruct (Hall i (Datatypes.S j) xDatum yDatum c2 Hx Hy H2) as (d2 & E2 & _ & Ebot).
  exists d1, d2. eexists. split; [exact E1|]. split; [exact E2|]. split; [exact Etop|].
  rewrite Ebot. now rewrite (@stackedOn_next yDatum j c1 c2 H1 H2 Hs).
Qed.

Lemma stacked_bands_touch_witness :
  exists sel lower upper p,
    generateSelectionData plainText plainText (fst (processData keepExtent risingCharted))
    = Returned (Some sel)
    /\ array_get (areaSelectionData sel) 0 = Some lower
    /\ array_get (areaSelectionData sel) 1 = Some upper
    /\ array_get (points lower) 1 = Some p
    /\ array_get (points upper) 2 = Some p.
Proof.
  destruct (@generateSelectionData_returns plainText plainText keepExtent risingCharted)
    as (sel & Hsel); try discriminate.
  destruct (@stacked_bands_touch plainText plainText
              (fst (processData keepExtent risingCharted))
              [row "Jan" 1 2; row "Feb" 3 4] bandScale linearScale sel
              eq_refl eq_refl eq_refl Hsel 1 0 (Some (VStr "Feb")) [Fin 3; Fin 4]
              (Fin 3) (Fin 4) eq_refl eq_refl eq_refl eq_refl eq_refl)
    as (lower & upper & p & H1 & H2 & H3 & H4).
  exists sel, lower, upper, p. repeat split; assumption.
Defined.

Lemma nth_error_snoc_old (A : Type) (l : list A) (x : A) (i : nat) (y : A) :
  nth_error l i = Some y -> nth_error (l ++ [x]) i = Some y.
Proof.
  intros H. rewrite nth_error_app1; [exact H|]. apply nth_error_Some. congruence.
Qed.

Lemma nth_error_snoc_new (A : Type) (l : list A) (x : A) :
  nth_error (l ++ [x]) (List.length l) = Some x.
Proof. rewrite nth_error_app2 by lia. now rewrite Nat.sub_diag. Qed.

Section Markers.

Variable toFixed2 : num -> string.
Variable String_of_num : num -> string.
Variable s : AreaSeries.
Variable rows : list object.
Variables xScale yScale : Scale.
Variable m : nat.
Hypothesis Hrect : Forall (fun r : list num => List.length r = m) (yData s).

Lemma eachValue_marks last k xDatum yDatum st curr j st' :
  nth_error (xData s) k = Some xDatum ->
  nth_error (yData s) k = Some yDatum ->
  nth_error yDatum j = Some curr ->
  prevMin st = sumWhere (fun v => lt v zero) (firstn j yDatum) ->
  prevMax st = sumWhere (fun v => negb (lt v zero)) (firstn j yDatum) ->
  List.length (markerSelectionData_ (built st)) = k * m + j ->
  List.length (labelSelectionData (built st)) = k * m + j ->
  (forall i j', i < k ->
     markedAt toFixed2 String_of_num s rows xScale yScale m
       (markerSelectionData_ (built st)) (labelSelectionData (built st)) i j') ->
  (forall j', j' < j ->
     markedAt toFixed2 String_of_num s rows xScale yScale m
       (markerSelectionData_ (built st)) (labelSelectionData (built st)) k j') ->
  eachValue toFixed2 String_of_num s yScale (div (or_zero (bandwidth yScale)) (Fin 2))
    last k (nth_error rows k)
    (add (convert xScale xDatum) (div (or_zero (bandwidth xScale)) (Fin 2))) st curr j
  = Returned st' ->
  prevMin st' = sumWhere (fun v => lt v zero) (firstn (Datatypes.S j) yDatum)
  /\ prevMax st' = sumWhere (fun v => negb (lt v zero)) (firstn (Datatypes.S j) yDatum)
  /\ List.length (markerSelectionData_ (built st')) = k * m + Datatypes.S j
  /\ List.length (labelSelectionData (built st')) = k * m + Datatypes.S j
  /\ (forall i j', i < k ->
        markedAt toFixed2 String_of_num s rows xScale yScale m
          (markerSelectionData_ (built st')) (labelSelectionData (built st')) i j')
  /\ (forall j', j' < Datatypes.S j ->
        markedAt toFixed2 String_of_num s rows xScale yScale m
          (markerSelectionData_ (built st')) (labelSelectionData (built st')) k j').
Proof.
  intros Hx Hy Hc Hmin Hmax Hlm Hll Hold Hrow Hrun.
  unfold eachValue in Hrun. destruct (nth_error rows k) as [datum|] eqn:Ed; [|discriminate].
  injection Hrun as <-. cbn [prevMin prevMax built markerSelectionData_ labelSelectionData].
  rewrite (firstn_snoc _ _ Hc), !sumWhere_snoc.
  rewrite (@stackedOn_prev yDatum j curr _ _ Hc Hmin Hmax).
  split; [destruct (lt curr zero); simpl; congruence|].
  split; [destruct (lt curr zero); simpl; congruence|].
  rewrite !length_app, Hlm, Hll. cbn [List.length].
  split; [lia|]. split; [lia|]. split.
  - intros i j' Hi xD yD c Hxi Hyi Hci.
    destruct (Hold i j' Hi xD yD c Hxi Hyi Hci) as (dt & E1 & E2 & E3).
    exists dt. split; [exact E1|].
    split; apply nth_error_snoc_old; assumption.
  - intros j' Hj' xD yD c Hxi Hyi Hci.
    destruct (Nat.eq_dec j' j) as [->|Hne].
    + assert (xD = xDatum) by congruence. assert (yD = yDatum) by congruence.
      subst xD yD. assert (c = curr) by congruence. subst c.
      exists datum. split; [exact Ed|].
      rewrite <- Hlm at 1. rewrite <- Hll. rewrite !nth_error_snoc_new.
      split; reflexivity.
    + destruct (Hrow j' ltac:(lia) xD yD c Hxi Hyi Hci) as (dt & E1 & E2 & E3).
      exists dt. split; [exact E1|].
      split; apply nth_error_snoc_old; assumption.
Qed.

Lemma eachRow_marks last acc xDatum k acc' :
  nth_error (xData s) k = Some xDatum ->
  List.length (markerSelectionData_ acc) = k * m ->
  List.length (labelSelectionData acc) = k * m ->
  (forall i j, i < k ->
     markedAt toFixed2 String_of_num s rows xScale yScale m
       (markerSelectionData_ acc) (labelSelectionData acc) i j) ->
  eachRow toFixed2 String_of_num s rows xScale yScale
    (div (or_zero (bandwidth xScale)) (Fin 2)) (div (or_zero (bandwidth yScale)) (Fin 2))
    last acc xDatum k
  = Returned acc' ->
  List.length (markerSelectionData_ acc') = Datatypes.S k * m
  /\ List.length (labelSelectionData acc') = Datatypes.S k * m
  /\ forall i j, i < Datatypes.S k ->
       markedAt toFixed2 String_of_num s rows xScale yScale m
         (markerSelectionData_ acc') (labelSelectionData acc') i j.
Proof.
  intros Hx Hlm Hll Hold Hrun.
  unfold eachRow in Hrun.
  destruct (nth_error (yData s) k) as [yDatum|] eqn:Ey; [|discriminate].
  assert (Hm : List.length yDatum = m).
  { rewrite Forall_forall in Hrect. apply Hrect. exact (nth_error_In _ _ Ey). }
  match type of Hrun with
  | bind (forEachM ?f ?l ?st0) _ = _ =>
      destruct (forEachM f l st0) as [st| |] eqn:Erun; try discriminate
  end.
  simpl in Hrun. injection Hrun as <-.
  pose (Q := fun (j : nat) (st : RowState) =>
    prevMin st = sumWhere (fun v => lt v zero) (firstn j yDatum)
    /\ prevMax st = sumWhere (fun v => negb (lt v zero)) (firstn j yDatum)
    /\ List.length (markerSelectionData_ (built st)) = k * m + j
    /\ List.length (labelSelectionData (built st)) = k * m + j
    /\ (forall i j', i < k ->
          markedAt toFixed2 String_of_num s rows xScale yScale m
            (markerSelectionData_ (built st)) (labelSelectionData (built st)) i j')
    /\ (forall j', j' < j ->
          markedAt toFixed2 String_of_num s rows xScale yScale m
            (markerSelectionData_ (built st)) (labelSelectionData (built st)) k j')).
  assert (HQ : Q (List.length yDatum) st).
  { unfold forEachM in Erun.
    refine (@forEachM_from_nth _ _ _ Q yDatum _ yDatum [] _ _ eq_refl _ Erun).
    - intros st0 curr j st1 Hc (H1 & H2 & H3 & H4 & H5 & H6) Hstep.
      apply (@eachValue_marks last k xDatum yDatum st0 curr j st1); assumption.
    - unfold Q. cbn. rewrite Nat.add_0_r. repeat split; try assumption.
      intros j' Hj'. lia. }
  destruct HQ as (_ & _ & Hlm' & Hll' & Hold' & Hrow').
  rewrite Hm in Hlm', Hll'.
  split; [simpl; lia|]. split; [simpl; lia|].
  intros i j Hi. destruct (Nat.eq_dec i k) as [->|Hne]; [|apply Hold'; lia].
  destruct (Nat.lt_ge_cases j (List.length yDatum)) as [Hj|Hj]; [now apply Hrow'|].
  intros xD yD c _ Hyi Hci. assert (yD = yDatum) by congruence. subst yD.
  apply nth_error_None in Hj. congruence.
Qed.

Lemma generateSelectionData_marked (sel : SelectionData) :
  data s = Some rows -> xAxis s = Some xScale -> yAxis s = Some yScale ->
  generateSelectionData toFixed2 String_of_num s = Returned (Some sel) ->
  List.length (markerSelectionData_ sel) = List.length (xData s) * m
  /\ List.length (labelSelectionData sel) = List.length (xData s) * m
  /\ forall i j,
       markedAt toFixed2 String_of_num s rows xScale yScale m
         (markerSelectionData_ sel) (labelSelectionData sel) i j.
Proof.
  intros Hd Hxa Hya Hrun. unfold generateSelectionData in Hrun.
  rewrite Hd, Hxa, Hya in Hrun.
  match type of Hrun with
  | bind (forEachM ?f ?l ?a0) _ = _ =>
      destruct (forEachM f l a0) as [acc| |] eqn:Erun; try discriminate
  end.
  simpl in Hrun. injection Hrun as <-.
  pose (P := fun (k : nat) (acc : SelectionData) =>
    List.length (markerSelectionData_ acc) = k * m
    /\ List.length (labelSelectionData acc) = k * m
    /\ forall i j, i < k ->
         markedAt toFixed2 String_of_num s rows xScale yScale m
           (markerSelectionData_ acc) (labelSelectionData acc) i j).
  assert (HP : P (List.length (xData s)) acc).
  { unfold forEachM in Erun.
    refine (@forEachM_from_nth _ _ _ P (xData s) _ (xData s) [] _ _ eq_refl _ Erun).
    - intros acc0 xDatum k acc1 Hx (H1 & H2 & H3) Hstep.
      apply (@eachRow_marks (List.length (xData s) * 2 - 1) acc0 xDatum k acc1);
        assumption.
    - split; [reflexivity|]. split; [reflexivity|]. intros i j Hi; simpl in Hi; lia. }
  destruct HP as (Hlm & Hll & Hall). split; [exact Hlm|]. split; [exact Hll|].
  intros i j xD yD c Hxi Hyi Hci. apply (Hall i j); try assumption.
  apply nth_error_Some. congruence.
Qed.

End Markers.

(** Property X10. When every row of [yData] has [m] values,
    [generateSelectionData] returns one marker datum and one label datum per
    row and value, row after row: those of value [j] of row [i] are at
    [i * m + j]. The marker datum carries the row index, the value key, the
    raw row and the raw value read off it, the colours of position [j],
    and the top point of the value's band; the label datum has the same
    point and the text made from the raw value. *)
Theorem generateSelectionData_marks_each_value :
  forall (toFixed2 String_of_num : num -> string) (s : AreaSeries) (rows : list object)
         (xScale yScale : Scale) (m : nat) (sel : SelectionData),
    data s = Some rows -> xAxis s = Some xScale -> yAxis s = Some yScale ->
    Forall (fun r : list num => List.length r = m) (yData s) ->
    generateSelectionData toFixed2 String_of_num s = Returned (Some sel) ->
    List.length (markerSelectionData_ sel) = List.length (xData s) * m
    /\ List.length (labelSelectionData sel) = List.length (xData s) * m
    /\ forall i j xDatum yDatum curr,
         nth_error (xData s) i = Some xDatum ->
         nth_error (yData s) i = Some yDatum ->
         nth_error yDatum j = Some curr ->
         exists datum,
           nth_error rows i = Some datum
           /\ nth_error (markerSelectionData_ sel) (i * m + j)
              = Some {| marker_index := i;
                        marker_itemId := nth_error (_yKeys s) j;
                        seriesDatum := datum;
                        yValue := get_key datum (nth_error (_yKeys s) j);
                        yKey := nth_error (_yKeys s) j;
                        marker_point :=
                          stackPoint xScale yScale xDatum (add (stackedOn yDatum j) curr);
                        marker_datum_fill := cycle (fills s) j;
                        marker_datum_stroke := cycle (strokes s) j |}
           /\ nth_error (labelSelectionData sel) (i * m + j)
              = Some (labelOf toFixed2 String_of_num s xScale yScale i j datum
                        xDatum yDatum curr).
Proof.
  intros tf sn s rows xScale yScale m sel Hd Hxa Hya Hrect Hrun.
  destruct (@generateSelectionData_marked tf sn s rows xScale yScale m Hrect sel
              Hd Hxa Hya Hrun) as (Hlm & Hll & Hall).
  split; [exact Hlm|]. split; [exact Hll|].
  intros i j xDatum yDatum curr Hx Hy Hc.
  exact (Hall i j xDatum yDatum curr Hx Hy Hc).
Qed.

Lemma generateSelectionData_marks_each_value_witness :
  exists sel datum,
    generateSelectionData plainText plainText (fst (processData keepExtent janFebCharted))
    = Returned (Some sel)
    /\ List.length (markerSelectionData_ sel) = 4
    /\ nth_error [row "Jan" 5 (-3); row "Feb" 10 (-15)] 1 = Some datum
    /\ nth_error (markerSelectionData_ sel) 3
       = Some (markerOf (fst (processData keepExtent janFebCharted)) bandScale linearScale
                 1 1 datum (Some (VStr "Feb")) [Fin 10; Fin (-15)] (Fin (-15))).
Proof.
  destruct (@generateSelectionData_returns plainText plainText keepExtent janFebCharted)
    as (sel & Hsel); try discriminate.
  destruct (@generateSelectionData_marks_each_value plainText plainText
              (fst (processData keepExtent janFebCharted))
              [row "Jan" 5 (-3); row "Feb" 10 (-15)] bandScale linearScale 2 sel
              eq_refl eq_refl eq_refl ltac:(repeat constructor) Hsel)
    as (Hlm & _ & Hall).
  destruct (Hall 1 1 (Some (VStr "Feb")) [Fin 10; Fin (-15)] (Fin (-15))
              eq_refl eq_refl eq_refl) as (datum & Hrow & Hmk & _).
  exists sel, datum. split; [exact Hsel|]. split; [exact Hlm|].
  split; [exact Hrow | exact Hmk].
Defined.

(** *** The paths of the fill and stroke nodes *)

Lemma fill_dense (ps : list Point) : forall k acc,
  forEach_from
    (fun cmds (slot : option Point) i =>
       match slot with
       | Some p =>
           cmds ++ [if 0 <? i then LineTo (point_x p) (point_y p)
                    else MoveTo (point_x p) (point_y p)]
       | None => cmds
       end) k (map Some ps) acc
  = acc ++ mapi_from drawTo k ps.
Proof.
  induction ps as [|p ps IH]; intros k acc; simpl; [now rewrite app_nil_r|].
  rewrite IH, <- app_assoc. reflexivity.
Qed.

Lemma mapi_from_seq (A : Type) (f : Point -> nat -> A) (d : Point) (ps : list Point) :
  forall k,
    mapi_from f k ps = map (fun i => f (nth (i - k) ps d) i) (seq k (List.length ps)).
Proof.
  induction ps as [|p ps IH]; intros k; simpl; [reflexivity|].
  rewrite Nat.sub_diag. f_equal. rewrite IH. apply map_ext_in. intros i Hi.
  apply in_seq in Hi. replace (i - k) with (Datatypes.S (i - Datatypes.S k)) by lia.
  reflexivity.
Qed.

Lemma stroke_dense (pts : list (option Point)) (ps : list Point) (d : Point) :
  forall n k idx acc,
    (forall i, k <= i < k + n -> array_get pts i = Some (nth i ps d)) ->
    forEachM_from
      (fun cmds i (_ : nat) =>
         match array_get pts i with
         | Some p =>
             Returned (cmds ++ [if 0 <? i then LineTo (point_x p) (point_y p)
                                else MoveTo (point_x p) (point_y p)])
         | None => Threw
         end) idx (seq k n) acc
    = Returned (acc ++ map (fun i => drawTo (nth i ps d) i) (seq k n)).
Proof.
  induction n as [|n IH]; intros k idx acc H; simpl; [now rewrite app_nil_r|].
  rewrite (H k) by lia. simpl. rewrite IH by (intros i Hi; apply H; lia).
  rewrite <- app_assoc. reflexivity.
Qed.

Lemma stroke_missing (pts : list (option Point)) (i : nat) :
  array_get pts i = None ->
  forall n k idx acc,
    k <= i < k + n ->
    forEachM_from
      (fun cmds i (_ : nat) =>
         match array_get pts i with
         | Some p =>
             Returned (cmds ++ [if 0 <? i then LineTo (point_x p) (point_y p)
                                else MoveTo (point_x p) (point_y p)])
         | None => Threw
         end) idx (seq k n) acc
    = Threw.
Proof.
  intros Hi. induction n as [|n IH]; intros k idx acc Hk; [lia|]. simpl.
  destruct (Nat.eq_dec k i) as [->|Hne]; [now rewrite Hi|].
  destruct (array_get pts k); [|reflexivity]. simpl. apply IH. lia.
Qed.

Lemma firstn_seq_le : forall n k len, n <= len -> firstn n (seq k len) = seq k n.
Proof.
  induction n as [|n IH]; intros k [|len] H; simpl; try reflexivity; [lia|].
  f_equal. apply IH. lia.
Qed.

Lemma array_get_dense (ps : list Point) (d : Point) (i : nat) :
  i < List.length ps -> array_get (map Some ps) i = Some (nth i ps d).
Proof.
  intros Hi. unfold array_get. rewrite nth_error_map.
  rewrite (nth_error_nth' ps d Hi). reflexivity.
Qed.

Lemma paths_dense (ps : list Point) (n : nat) :
  n <= List.length ps ->
  fillCommands (map Some ps) = mapi drawTo ps ++ [ClosePath]
  /\ strokeCommands (map Some ps) n = Returned (firstn n (fillCommands (map Some ps))).
Proof.
  intros Hn.
  assert (Efill : fillCommands (map Some ps) = mapi drawTo ps ++ [ClosePath]).
  { unfold fillCommands, forEach. now rewrite fill_dense. }
  split; [exact Efill|].
  set (d := {| point_x := zero; point_y := zero |}).
  unfold strokeCommands, forEachM.
  rewrite (@stroke_dense (map Some ps) ps d).
  - rewrite Efill. unfold mapi. rewrite (mapi_from_seq drawTo d ps 0).
    rewrite firstn_app, length_map, length_seq.
    replace (n - List.length ps) with 0 by lia. rewrite app_nil_r.
    rewrite firstn_map, firstn_seq_le by exact Hn. simpl.
    f_equal. apply map_ext. intros i. now rewrite Nat.sub_0_r.
  - intros i Hi. apply array_get_dense. lia.
Qed.

(** Property X11. For an outline with no missing point, the fill path
    moves to the first point, draws a line to every other point in order and
    closes; the stroke path over [rowCount] rows is the first [rowCount]
    commands of the fill path, the top edge. When one of the first
    [rowCount] points is missing, building the stroke path throws. *)
Theorem stroke_is_top_edge_of_fill :
  forall (pts : list (option Point)) (rowCount : nat),
    (forall ps,
       pts = map Some ps -> rowCount <= List.length ps ->
       fillCommands pts = mapi drawTo ps ++ [ClosePath]
       /\ strokeCommands pts rowCount = Returned (firstn rowCount (fillCommands pts)))
    /\ (forall i, i < rowCount -> array_get pts i = None -> strokeCommands pts rowCount = Threw).
Proof.
  intros pts n. split.
  - intros ps -> Hn. exact (paths_dense ps Hn).
  - intros i Hi Hnone. unfold strokeCommands, forEachM.
    apply (@stroke_missing pts i Hnone). lia.
Qed.

Lemma all_present (A : Type) (l : list (option A)) :
  (forall k, k < List.length l -> exists p, nth_error l k = Some (Some p)) ->
  exists ps, l = map Some ps.
Proof.
  induction l as [|h t IH]; intros H; [now exists []|].
  destruct (H 0 ltac:(simpl; lia)) as (p & Hp). simpl in Hp. injection Hp as ->.
  destruct IH as (ps & ->).
  { intros k Hk. apply (H (Datatypes.S k)). simpl. lia. }
  now exists (p :: ps).
Qed.

Section Drawn.

Variable toFixed2 : num -> string.
Variable String_of_num : num -> string.
Variable s : AreaSeries.
Variables n m : nat.
Hypothesis Hn : n = List.length (xData s).
Hypothesis Hrect : Forall (fun r : list num => List.length r = m) (yData s).

Lemma generateSelectionData_rowsDone (sel : SelectionData) :
  generateSelectionData toFixed2 String_of_num s = Returned (Some sel) ->
  rowsDone n m n (areaSelectionData sel).
Proof.
  unfold generateSelectionData. rewrite <- Hn.
  destruct (data s) as [rows|]; [|discriminate].
  destruct (xAxis s) as [xScale|]; [|discriminate].
  destruct (yAxis s) as [yScale|]; [|discriminate].
  match goal with
  | |- bind (forEachM ?f _ ?a0) _ = _ -> _ =>
      destruct (forEachM f (xData s) a0) as [acc| |] eqn:E; simpl; try discriminate
  end.
  intros H. inversion H; subst acc; clear H.
  unfold forEachM in E.
  refine (@forEachM_from_inv _ _ _
            (fun k acc => rowsDone n m k (areaSelectionData acc))
            n _ (xData s) 0 _ _ _ _ E).
  - intros a1 x k a2 Hk HP Hstep.
    apply (@eachRow_step toFixed2 String_of_num s n m Hn Hrect rows xScale yScale
             _ _ a1 x k a2 Hk HP Hstep).
  - simpl. now rewrite Hn.
  - left. now split.
Qed.

(** With at least one row, there is a polygon for each value key and no
    polygon misses a point. *)
Lemma polygons_dense (sel : SelectionData) :
  0 < n ->
  generateSelectionData toFixed2 String_of_num s = Returned (Some sel) ->
  List.length (areaSelectionData sel) = m
  /\ forall datum,
       In datum (areaSelectionData sel) ->
       exists d ps, datum = Some d /\ points d = map Some ps /\ List.length ps = 2 * n.
Proof.
  intros Hpos Hrun.
  destruct (generateSelectionData_rowsDone Hrun) as [[E _]|(_ & Hlen & Hall)]; [lia|].
  split; [exact Hlen|].
  intros datum Hin. apply In_nth_error in Hin. destruct Hin as (j & Hj).
  assert (Hjm : j < m) by (rewrite <- Hlen; apply nth_error_Some; congruence).
  destruct (Hall j Hjm) as (d & Ed & Hpts & Hclosed).
  assert (datum = Some d) by congruence. subst datum.
  destruct (@all_present _ (points d)) as (ps & Eps).
  { intros k Hk. rewrite Hpts in Hk.
    destruct (Nat.lt_ge_cases k n) as [Hlt|Hge].
    - destruct (Hclosed k Hlt) as (p & _ & E & _). eauto.
    - destruct (Hclosed (2 * n - 1 - k) ltac:(lia)) as (_ & q & _ & E & _).
      replace (2 * n - 1 - (2 * n - 1 - k)) with k in E by lia.
      eauto. }
  exists d, ps. split; [reflexivity|]. split; [exact Eps|].
  rewrite <- Hpts, Eps. now rewrite length_map.
Qed.

End Drawn.

(** Property X12. On processed data of [n] rows that the data still has,
    every polygon [generateSelectionData] returns has all its [2n] points:
    its fill path has a command per point and the closing command, and its
    stroke path is built without throwing from the first [n] of them. *)
Theorem polygons_give_closed_paths :
  forall (toFixed2 String_of_num : num -> string) (fix_ : num * num -> num * num)
         (s0 : AreaSeries) (rows : list object) (sel : SelectionData),
    let s := fst (processData fix_ s0) in
    data s0 = Some rows ->
    List.length (xData s) = List.length rows ->
    generateSelectionData toFixed2 String_of_num s = Returned (Some sel) ->
    forall j d,
      nth_error (areaSelectionData sel) j = Some (Some d) ->
      exists ps,
        points d = map Some ps
        /\ List.length ps = 2 * List.length rows
        /\ fillCommands (points d) = mapi drawTo ps ++ [ClosePath]
        /\ strokeCommands (points d) (List.length rows)
           = Returned (firstn (List.length rows) (fillCommands (points d))).
Proof.
  intros tf sn fix_ s0 rows sel s Hd Hlen Hrun j d Hj.
  destruct (processData_fields fix_ s0) as (_ & _ & _ & _ & _ & Hrect).
  destruct (@generateSelectionData_closed tf sn s (List.length (xData s))
              (List.length (_yKeys s0)) eq_refl Hrect sel Hrun j d Hj) as (Hpts & Hclosed).
  rewrite Hlen in Hpts, Hclosed.
  destruct (@all_present _ (points d)) as (ps & Eps).
  { intros k Hk. rewrite Hpts in Hk.
    destruct (Nat.lt_ge_cases k (List.length rows)) as [Hlt|Hge].
    - destruct (Hclosed k Hlt) as (p & _ & E & _). eauto.
    - destruct (Hclosed (2 * List.length rows - 1 - k) ltac:(lia)) as (_ & q & _ & E & _).
      replace (2 * List.length rows - 1 - (2 * List.length rows - 1 - k)) with k in E by lia.
      eauto. }
  exists ps. split; [exact Eps|].
  assert (Hps : List.length ps = 2 * List.length rows).
  { rewrite <- Hpts, Eps. now rewrite length_map. }
  split; [exact Hps|].
  rewrite Eps. apply paths_dense. lia.
Qed.

Lemma polygons_give_closed_paths_witness :
  exists sel d ps,
    generateSelectionData plainText plainText (fst (processData keepExtent janFebCharted))
    = Returned (Some sel)
    /\ nth_error (areaSelectionData sel) 1 = Some (Some d)
    /\ points d = map Some ps
    /\ List.length ps = 4
    /\ strokeCommands (points d) 2 = Returned (firstn 2 (fillCommands (points d))).
Proof.
  destruct (@generateSelectionData_returns plainText plainText keepExtent janFebCharted)
    as (sel & Hsel); try discriminate.
  destruct (nth_error (areaSelectionData sel) 1) as [[d|]|] eqn:Ed.
  - destruct (@polygons_give_closed_paths plainText plainText keepExtent janFebCharted
                [row "Jan" 5 (-3); row "Feb" 10 (-15)] sel eq_refl eq_refl Hsel 1 d Ed)
      as (ps & Eps & Hlen & _ & Hstroke).
    exists sel, d, ps. split; [exact Hsel|]. split; [exact Ed|].
    split; [exact Eps|]. split; [exact Hlen | exact Hstroke].
  - exfalso. revert Ed. generalize Hsel. vm_compute. intros H; inversion H; subst.
    discriminate.
  - exfalso. revert Ed. generalize Hsel. vm_compute. intros H; inversion H; subst.
    discriminate.
Defined.

(** *** update on processed data *)

Lemma rebind_data (N D : Type) (fresh : N) (newData : list D) : forall sel,
  map snd (rebind fresh sel newData) = newData.
Proof.
  induction newData as [|d rest IH]; intros sel; simpl; [reflexivity|].
  destruct sel as [|[n0 d0] sel']; simpl; now rewrite IH.
Qed.

Lemma each_from_data (N D : Type) (f : N -> D -> nat -> outcome N) (P : N * D -> Prop) :
  forall sel i,
    (forall n d idx, In d (map snd sel) -> exists n', f n d idx = Returned n' /\ P (n', d)) ->
    exists r, each_from f i sel = Returned r /\ map snd r = map snd sel /\ Forall P r.
Proof.
  induction sel as [|[n d] sel IH]; intros i H; simpl.
  - exists []. repeat split. constructor.
  - destruct (H n d i (or_introl eq_refl)) as (n' & -> & Hn'). simpl.
    destruct (IH (Datatypes.S i)) as (r & -> & Hr & HP).
    { intros n0 d0 idx Hin. apply H. now right. }
    simpl. exists ((n', d) :: r). split; [reflexivity|]. split; [simpl; now rewrite Hr|].
    now constructor.
Qed.

Lemma processData_frame fix_ (s : AreaSeries) :
  let s' := fst (processData fix_ s) in
  chart s' = chart s /\ visible s' = visible s /\ marker s' = marker s
  /\ label s' = label s /\ seriesItemEnabled s' = seriesItemEnabled s
  /\ _yKeys s' = _yKeys s.
Proof.
  unfold processData. destruct (normalizing _); destruct (fix_ _); repeat split.
Qed.

(** [update] on processed data, as far as the fill and the stroke nodes. *)
Lemma update_runs (toFixed2 String_of_num : num -> string) (newPath : Path)
  (newMarker : Marker) (newText : Text) (fix_ : num * num -> num * num)
  (s0 : AreaSeries) (rows : list object) (c : Chart) (xScale yScale : Scale) :
  data s0 = Some rows -> rows <> [] ->
  _xKey s0 <> EmptyString -> _yKeys s0 <> [] ->
  visible s0 = true ->
  chart s0 = Some c -> layoutPending c = false -> dataPending c = false ->
  xAxis s0 = Some xScale -> yAxis s0 = Some yScale ->
  let s := fst (processData fix_ s0) in
  let s1 := with_group_visible s true in
  exists sel fillSel strokeSel,
    generateSelectionData toFixed2 String_of_num s = Returned (Some sel)
    /\ update toFixed2 String_of_num newPath newMarker newText s
       = Returned
           (with_selections s1 fillSel strokeSel
              (updateMarkerNodes s1 (updateMarkerSelection newMarker s1 (markerSelectionData_ sel)))
              (updateLabelNodes s1 (updateLabelSelection newText s1 (labelSelectionData sel)))
              (markerSelectionData_ sel))
    /\ map snd fillSel = areaSelectionData sel
    /\ map snd strokeSel = areaSelectionData sel
    /\ List.length (areaSelectionData sel) = List.length (_yKeys s0)
    /\ Forall (drawnFill s0) fillSel
    /\ Forall (drawnStroke s0 (List.length rows)) strokeSel.
Proof.
  intros Hd Hrows Hxk Hyk Hvis Hc Hlp Hdp Hxa Hya s s1.
  destruct (processData_fields fix_ s0) as (Ed & Ex & Ey & Exs & Elen & Hrect).
  destruct (processData_frame fix_ s0) as (Ec & Ev & Em & El & Ee & Ek).
  fold s in Ed, Ex, Ey, Exs, Elen, Hrect, Ec, Ev, Em, El, Ee, Ek.
  assert (Erows : processedRows s0 = rows).
  { unfold processedRows. rewrite Hd.
    destruct (String.eqb_spec (_xKey s0) EmptyString) as [?|_]; [contradiction|].
    destruct (_yKeys s0); [contradiction|reflexivity]. }
  rewrite Erows in Exs, Elen.
  assert (Hxlen : List.length (xData s) = List.length rows)
    by (rewrite Exs; apply length_map).
  assert (Hpos : 0 < List.length rows) by (destruct rows; [contradiction | simpl; lia]).
  destruct (@generateSelectionData_returns toFixed2 String_of_num fix_ s0) as (sel & Hsel);
    try congruence.
  fold s in Hsel.
  destruct (@polygons_dense toFixed2 String_of_num s (List.length (xData s))
              (List.length (_yKeys s0)) eq_refl Hrect sel ltac:(lia) Hsel) as (Hm & Hdense).
  exists sel.
  unfold update.
  rewrite notReady_with_group_visible.
  assert (Hready : notReady s = false).
  { unfold notReady. rewrite Ec, Hc, Hlp, Hdp, Ev, Hvis, Ex, Hxa, Ey, Hya, Hxlen, Elen.
    destruct (List.length rows); [lia | reflexivity]. }
  rewrite Hready.
  assert (Hgv : groupVisible s = true).
  { unfold groupVisible. rewrite Ev, Hvis, Hxlen, Elen.
    destruct (List.length rows); [lia | reflexivity]. }
  rewrite Hgv. fold s1.
  change (generateSelectionData toFixed2 String_of_num s1)
    with (generateSelectionData toFixed2 String_of_num s).
  rewrite Hsel. cbn [bind].
  unfold updateFillNodes, updateFillSelection, each.
  match goal with
  | |- context [each_from ?f 0 (rebind ?fr ?old (areaSelectionData sel))] =>
      destruct (@each_from_data _ _ f (drawnFill s0) (rebind fr old (areaSelectionData sel)) 0)
        as (fillSel & -> & Efill & Hfill)
  end.
  { intros nd datum idx Hin. rewrite rebind_data in Hin.
    destruct (Hdense datum Hin) as (d & ps & -> & _ & _).
    eexists. split; [reflexivity|]. exists d. cbn. rewrite Ee. repeat split. }
  rewrite rebind_data in Efill. cbn [bind].
  unfold updateStrokeNodes, updateStrokeSelection, each.
  change (data s1) with (data s). rewrite Ed, Hd.
  match goal with
  | |- context [each_from ?f 0 (rebind ?fr ?old (areaSelectionData sel))] =>
      destruct (@each_from_data _ _ f (drawnStroke s0 (List.length rows))
                  (rebind fr old (areaSelectionData sel)) 0)
        as (strokeSel & -> & Estroke & Hstroke)
  end.
  { intros nd datum idx Hin. rewrite rebind_data in Hin.
    destruct (Hdense datum Hin) as (d & ps & -> & Eps & Hps).
    destruct (@paths_dense ps (List.length rows) ltac:(lia)) as (_ & Hs).
    rewrite Eps, Hs. cbn [bind]. eexists. split; [reflexivity|].
    exists d. cbn. rewrite Ee, Eps. repeat split. }
  rewrite rebind_data in Estroke. cbn [bind].
  exists fillSel, strokeSel. repeat split; assumption.
Qed.

(** Property X13. For a visible series with data whose value fields are
    numbers or missing, keys, both axes and a chart with nothing pending,
    [update] right after [processData] does not throw. It shows the group, binds the polygons of [generateSelectionData]
    to the fill nodes and to the stroke nodes, one per value key, gives each
    fill node the closed path of its polygon and each stroke node the top
    edge of it, makes both visible exactly when the polygon's item is
    enabled, and binds the marker and label data when markers and labels are
    enabled and no data otherwise. *)
Theorem update_draws_processed_data :
  forall (toFixed2 String_of_num : num -> string) (newPath : Path) (newMarker : Marker)
         (newText : Text) (fix_ : num * num -> num * num)
         (s0 : AreaSeries) (rows : list object) (c : Chart) (xScale yScale : Scale),
    data s0 = Some rows -> rows <> [] -> numberFields s0 = true ->
    _xKey s0 <> EmptyString -> _yKeys s0 <> [] ->
    visible s0 = true ->
    chart s0 = Some c -> layoutPending c = false -> dataPending c = false ->
    xAxis s0 = Some xScale -> yAxis s0 = Some yScale ->
    let s := fst (processData fix_ s0) in
    exists sel s',
      generateSelectionData toFixed2 String_of_num s = Returned (Some sel)
      /\ update toFixed2 String_of_num newPath newMarker newText s = Returned s'
      /\ group_visible s' = true
      /\ map snd (fillSelection s') = areaSelectionData sel
      /\ map snd (strokeSelection s') = areaSelectionData sel
      /\ List.length (areaSelectionData sel) = List.length (_yKeys s0)
      /\ Forall (drawnFill s0) (fillSelection s')
      /\ Forall (drawnStroke s0 (List.length rows)) (strokeSelection s')
      /\ map snd (markerSelection s')
         = (if marker_enabled (marker s0) then markerSelectionData_ sel else [])
      /\ map snd (labelSelection s')
         = (if label_enabled (label s0) then labelSelectionData sel else [])
      /\ markerSelectionData s' = markerSelectionData_ sel.
Proof.
  intros tf sn newPath newMarker newText fix_ s0 rows c xScale yScale
    Hd Hrows _ Hxk Hyk Hvis Hc Hlp Hdp Hxa Hya s.
  destruct (@update_runs tf sn newPath newMarker newText fix_ s0 rows c xScale yScale
              Hd Hrows Hxk Hyk Hvis Hc Hlp Hdp Hxa Hya)
    as (sel & fillSel & strokeSel & Hsel & Hrun & Efill & Estroke & Hm & Hfill & Hstroke).
  destruct (processData_frame fix_ s0) as (Ec & _ & Em & El & _ & _).
  fold s in Hsel, Hrun, Ec, Em, El.
  exists sel. eexists. split; [exact Hsel|]. split; [exact Hrun|].
  cbn [with_selections group_visible fillSelection strokeSelection markerSelection
       labelSelection markerSelectionData with_group_visible].
  split; [reflexivity|]. split; [exact Efill|]. split; [exact Estroke|].
  split; [exact Hm|]. split; [exact Hfill|]. split; [exact Hstroke|].
  unfold updateMarkerNodes, updateMarkerSelection, updateLabelNodes, updateLabelSelection.
  cbn [chart marker label with_group_visible].
  rewrite Ec, Hc, Em, El.
  split; [|split; [|reflexivity]].
  - rewrite map_map. cbn [snd]. change (fun x => snd x) with (@snd Marker MarkerSelectionDatum).
    apply rebind_data.
  - rewrite map_map.
    erewrite map_ext; [apply rebind_data|].
    intros [text datum]. destruct (label_text datum); [destruct (label_enabled (label s0))|];
      reflexivity.
Qed.

Lemma update_draws_processed_data_witness :
  exists sel s',
    generateSelectionData plainText plainText (fst (processData keepExtent janFebCharted))
    = Returned (Some sel)
    /\ update plainText plainText blankPath blankMarker blankText
         (fst (processData keepExtent janFebCharted)) = Returned s'
    /\ group_visible s' = true
    /\ map snd (fillSelection s') = areaSelectionData sel
    /\ Forall (drawnStroke janFebCharted 2) (strokeSelection s').
Proof.
  destruct (@update_draws_processed_data plainText plainText blankPath blankMarker blankText
              keepExtent janFebCharted [row "Jan" 5 (-3); row "Feb" 10 (-15)]
              readyChart bandScale linearScale)
    as (sel & s' & H1 & H2 & H3 & H4 & _ & _ & _ & H8 & _);
    try reflexivity; try discriminate.
  exists sel, s'. repeat split; assumption.
Defined.



(** *** The legend *)

Lemma forEach_from_push (A B : Type) (g : A -> nat -> B) (l : list A) : forall k acc,
  forEach_from (fun acc x i => acc ++ [g x i]) k l acc = acc ++ mapi_from g k l.
Proof.
  induction l as [|x l IH]; intros k acc; simpl; [now rewrite app_nil_r|].
  rewrite IH, <- app_assoc. reflexivity.
Qed.

(** Property X15. With data and a category key, [listSeriesItems] appends
    one legend entry per value key, in the order of the keys, to the entries
    it is given: the entry names the key, shows the key's name from
    [yNames] or else the key, and its enabled flag is what
    [toggleSeriesItem] set last for the key. Without data, without a
    category key or without value keys it appends nothing. *)
Theorem legend_lists_value_keys :
  forall (s : AreaSeries) (id : string) (yNames : list string) (legend : list LegendDatum),
    (forall datum rows,
       data s = Some (datum :: rows) -> _xKey s <> EmptyString ->
       forall item b,
         let listed := listSeriesItems (toggleSeriesItem s item b) id yNames legend in
         List.length listed = List.length legend + List.length (_yKeys s)
         /\ firstn (List.length legend) listed = legend
         /\ forall j yKey,
              nth_error (_yKeys s) j = Some yKey ->
              exists entry,
                nth_error listed (List.length legend + j) = Some entry
                /\ legend_itemId entry = yKey
                /\ legend_text entry = legendText yNames yKey j
                /\ legend_enabled entry
                   = if String.eqb item yKey then b else enabled (seriesItemEnabled s) yKey)
    /\ (data s = None \/ data s = Some [] \/ _xKey s = EmptyString \/ _yKeys s = [] ->
        listSeriesItems s id yNames legend = legend).
Proof.
  intros s id yNames legend. split.
  - intros datum rows Hd Hx item b listed. unfold listed, listSeriesItems.
    cbn [toggleSeriesItem with_keys data _xKey _yKeys seriesItemEnabled marker fills strokes
         fillOpacity strokeOpacity].
    rewrite Hd.
    destruct (String.eqb_spec (_xKey s) EmptyString) as [?|_]; [contradiction|].
    destruct (_yKeys s) as [|k0 ks] eqn:Ek.
    + simpl. rewrite Nat.add_0_r, firstn_all. repeat split. intros [|j] yKey H; discriminate.
    + rewrite <- Ek. replace (Nat.eqb (List.length (_yKeys s)) 0) with false
        by (rewrite Ek; reflexivity).
      cbn [negb andb]. unfold forEach.
      rewrite (forEach_from_push
                 (fun yKey index =>
                    {| legend_id := id; legend_itemId := yKey;
                       legend_enabled := enabled (map_set (seriesItemEnabled s) item b) yKey;
                       legend_text := legendText yNames yKey index;
                       legend_fill := or_else (marker_fill (marker s)) (cycle (fills s) index);
                       legend_stroke :=
                         or_else (marker_stroke (marker s)) (cycle (strokes s) index);
                       legend_fillOpacity := fillOpacity s;
                       legend_strokeOpacity := strokeOpacity s |})).
      rewrite length_app, length_mapi_from.
      split; [reflexivity|]. split.
      * rewrite firstn_app, Nat.sub_diag, firstn_all. simpl. apply app_nil_r.
      * intros j yKey Hj. rewrite nth_error_app2 by lia.
        replace (List.length legend + j - List.length legend) with j by lia.
        rewrite nth_error_mapi_from, Hj. cbn [option_map]. eexists. split; [reflexivity|].
        cbn. rewrite enabled_map_set. repeat split.
  - intros H. unfold listSeriesItems.
    destruct H as [-> | [-> | [-> | ->]]]; try reflexivity.
    + destruct (data s) as [[|? ?]|]; reflexivity.
    + destruct (data s) as [[|? ?]|]; try reflexivity.
      now rewrite andb_false_r.
Qed.

End AreaSeriesMore.

(** ** The range aggregator *)

Module StatusBarMore.
Import JS JSFacts StatusBar StatusBarFacts.

(** Property X16. A pass over ranges counts every distinct cell, whatever
    it holds, and totals only the numbers: the values that are numbers other
    than [NaN], strings counting as what [Number] makes of them. The sum is
    the sum of these numbers from zero; the minimum is zero or one of them,
    not above zero and not above any of them; the maximum is zero or one of
    them, not below zero and not below any of them. *)
Theorem aggregate_totals :
  forall (RowNode : Type) (getValue : Column -> option RowNode -> option value)
         (Number : string -> num) (g : Grid RowNode) (ranges : list CellRange)
         (cells : list GridCell),
    cellsOfRanges g ranges = Returned cells ->
    let ns := numbersOf getValue Number g (distinctCells cells) in
    exists a,
      aggregate getValue Number g (Some ranges) = Returned a
      /\ count a = List.length (distinctCells cells)
      /\ sum a = fold_left add ns zero
      /\ (min a = zero \/ In (min a) ns)
      /\ lt zero (min a) = false
      /\ (forall v, In v ns -> lt v (min a) = false)
      /\ (max a = zero \/ In (max a) ns)
      /\ lt (max a) zero = false
      /\ (forall v, In v ns -> lt (max a) v = false).
Proof.
  intros RowNode getValue Number g ranges cells Hcells ns.
  rewrite aggregate_cells, Hcells. cbn [bind]. eexists. split; [reflexivity|].
  split; [apply count_aggregateCells|].
  destruct (fold_countCell_totals getValue Number g (distinctCells cells) initial)
    as (Hs & Hmin & Hmax).
  fold (aggregateCells getValue Number g (distinctCells cells)) in Hs, Hmin, Hmax.
  fold ns in Hs, Hmin, Hmax. cbn [initial sum min max] in Hs, Hmin, Hmax.
  rewrite Hs, Hmin, Hmax. split; [reflexivity|].
  destruct (@fold_least ns zero eq_refl) as (H1 & H2 & H3 & _).
  destruct (@fold_greatest ns zero eq_refl) as (H4 & H5 & H6 & _).
  repeat split; assumption.
Qed.

Lemma aggregate_totals_witness :
  exists a,
    aggregate readField notANumber threeRows (Some [rangeOf topRow (bodyRow 1)]) = Returned a
    /\ count a = 3
    /\ sum a = fold_left add [Fin 1; Fin 2; Fin 3] zero
    /\ (min a = zero \/ In (min a) [Fin 1; Fin 2; Fin 3])
    /\ lt zero (min a) = false
    /\ (forall v, In v [Fin 1; Fin 2; Fin 3] -> lt v (min a) = false)
    /\ (max a = zero \/ In (max a) [Fin 1; Fin 2; Fin 3])
    /\ lt (max a) zero = false
    /\ (forall v, In v [Fin 1; Fin 2; Fin 3] -> lt (max a) v = false).
Proof.
  apply (@aggregate_totals object readField notANumber threeRows
           [rangeOf topRow (bodyRow 1)]
           [getGridCell topRow "c"%string; getGridCell (bodyRow 0) "c"%string;
            getGridCell (bodyRow 1) "c"%string]).
  reflexivity.
Defined.

(** Property X17. Handling the same selection again changes nothing: the
    status bar that [onRangeSelectionChanged] returns is what it returns
    when run on that bar once more. And when it shows the items, the bar it
    returns does not depend on the bar it started from. *)
Theorem onRangeSelectionChanged_settles :
  forall (RowNode : Type) (getValue : Column -> option RowNode -> option value)
         (Number : string -> num) (g : Grid RowNode) (cellRanges : option (list CellRange))
         (bar bar' : StatusBar),
    onRangeSelectionChanged getValue Number g cellRanges bar = Returned bar' ->
    onRangeSelectionChanged getValue Number g cellRanges bar' = Returned bar'
    /\ forall other other',
         onRangeSelectionChanged getValue Number g cellRanges other = Returned other' ->
         Forall (fun item => item_visible item = true) (statusItems bar') ->
         other' = bar'.
Proof.
  intros RowNode getValue Number g cellRanges bar bar' H.
  unfold onRangeSelectionChanged in *.
  destruct (aggregate getValue Number g cellRanges) as [a| |]; try discriminate.
  cbn [bind] in *. injection H as <-.
  destruct (1 <? count a) eqn:Hgot.
  - split; [reflexivity|]. intros other other' Ho _. injection Ho as <-. reflexivity.
  - split; [reflexivity|]. intros other other' _ Hvis. exfalso.
    inversion Hvis as [|? ? Hv _]. discriminate.
Qed.

Lemma onRangeSelectionChanged_settles_witness :
  exists bar',
    onRangeSelectionChanged readField notANumber threeRows
      (Some [rangeOf topRow (bodyRow 1)]) createStatusItems = Returned bar'
    /\ onRangeSelectionChanged readField notANumber threeRows
         (Some [rangeOf topRow (bodyRow 1)]) bar' = Returned bar'.
Proof.
  eexists. split; [reflexivity|].
  apply (@onRangeSelectionChanged_settles object readField notANumber threeRows
           (Some [rangeOf topRow (bodyRow 1)]) createStatusItems _ eq_refl).
Defined.

(** Property X18. When a selection covers more than one distinct cell,
    the status bar shows the sum of the numbers among them, the count of
    all of them, and as average that sum divided by that count: cells that
    hold no number are counted in the divisor. *)
Theorem average_divides_by_all_cells :
  forall (RowNode : Type) (getValue : Column -> option RowNode -> option value)
         (Number : string -> num) (g : Grid RowNode) (ranges : list CellRange)
         (cells : list GridCell) (bar : StatusBar),
    cellsOfRanges g ranges = Returned cells ->
    1 < List.length (distinctCells cells) ->
    let total := fold_left add (numbersOf getValue Number g (distinctCells cells)) zero in
    let visited := of_nat (List.length (distinctCells cells)) in
    exists bar',
      onRangeSelectionChanged getValue Number g (Some ranges) bar = Returned bar'
      /\ item_value (statusItemSum bar') = Some total
      /\ item_value (statusItemCount bar') = Some visited
      /\ item_value (statusItemAvg bar') = Some (div total visited).
Proof.
  intros RowNode getValue Number g ranges cells bar Hcells Hmany total visited.
  unfold onRangeSelectionChanged. rewrite aggregate_cells, Hcells. cbn [bind].
  rewrite count_aggregateCells.
  destruct (Nat.ltb_spec 1 (List.length (distinctCells cells))) as [_|?]; [|lia].
  destruct (fold_countCell_totals getValue Number g (distinctCells cells) initial)
    as (Hs & _ & _).
  fold (aggregateCells getValue Number g (distinctCells cells)) in Hs.
  cbn [initial sum] in Hs.
  eexists. split; [reflexivity|].
  cbn [forEachStatusItem statusItemSum statusItemCount statusItemAvg setVisible setValue
       item_value].
  rewrite Hs. repeat split.
Qed.

Lemma average_divides_by_all_cells_witness :
  exists bar',
    onRangeSelectionChanged readField notANumber threeRows
      (Some [rangeOf topRow (bodyRow 1)]) createStatusItems = Returned bar'
    /\ item_value (statusItemSum bar') = Some (fold_left add [Fin 1; Fin 2; Fin 3] zero)
    /\ item_value (statusItemCount bar') = Some (of_nat 3)
    /\ item_value (statusItemAvg bar')
       = Some (div (fold_left add [Fin 1; Fin 2; Fin 3] zero) (of_nat 3)).
Proof.
  apply (@average_divides_by_all_cells object readField notANumber threeRows
           [rangeOf topRow (bodyRow 1)]
           [getGridCell topRow "c"%string; getGridCell (bodyRow 0) "c"%string;
            getGridCell (bodyRow 1) "c"%string] createStatusItems eq_refl).
  simpl. lia.
Defined.

End StatusBarMore.
